(** * BizOps: the analytics pipeline of BizOps.go, embedded and verified

    The first part is the program.  It follows the layout of [BizOps.go]:

    - the Go library the pipeline calls: [float64] arithmetic, packages
      [strings], [time] and [sort], and ranging over a map;
    - the data model ([Sale], [KVf], [KVt], [Anomaly], [KPIs]);
    - analytics ([computeKPIs], [topN], [retentionRate],
      [detectAnomalies], [forecast7], [suggestions]);
    - CSV ingest ([parseCSV], [parseDateFlexible], [nz]);
    - the notions of the specification and the example inputs.

    The second part, Properties, proves the claims of the specification,
    one theorem for each, named C1 to C10 in the comments, and then further
    properties of the code, named X1 to X21.

    Conventions.  A Go [string] is a sequence of bytes, here a [string] of
    [ascii] bytes.  A Go [map[string]V] is a [gmap string V]; the order in
    which [range] visits a map is unspecified in Go and is an explicit
    argument wherever the source ranges over a map.  [len] and the counters
    [orders] and [overdueCount] are bounded by the length of a slice, which
    is below 2^63, so they never wrap and are natural numbers here.
    [float64] is IEEE 754 binary64; the functions are written once over the
    operations of the class [Float64] and run on the instance [binary64],
    which is Rocq's primitive binary64 arithmetic. *)

From Stdlib Require Import ZArith List String Ascii Floats Lia Bool.
From Stdlib Require Import Permutation Sorted DecimalString.
From stdpp Require Import gmap strings list fin_maps.

Set Warnings "-inexact-float".

Local Open Scope string_scope.
Local Open Scope list_scope.
Local Open Scope Z_scope.

(* ===================================================================== *)
(** * float64 *)
(* ===================================================================== *)

(** The operations of [float64] that the source uses: the constants and
    the conversion [float64(n)] of an integer, [+ - * /], [math.Sqrt],
    [math.Abs] and the comparisons [<], [<=], [==]. *)
Class Float64 (F : Type) := {
  f_of_Z : Z -> F;
  f_add : F -> F -> F;
  f_sub : F -> F -> F;
  f_mul : F -> F -> F;
  f_div : F -> F -> F;
  f_sqrt : F -> F;
  f_abs : F -> F;
  f_ltb : F -> F -> bool;
  f_leb : F -> F -> bool;
  f_eqb : F -> F -> bool
}.

Declare Scope f64_scope.
Delimit Scope f64_scope with f64.
Notation "x + y" := (f_add x y) : f64_scope.
Notation "x - y" := (f_sub x y) : f64_scope.
Notation "x * y" := (f_mul x y) : f64_scope.
Notation "x / y" := (f_div x y) : f64_scope.
Notation "x <? y" := (f_ltb x y) : f64_scope.
Notation "x <=? y" := (f_leb x y) : f64_scope.
Notation "x =? y" := (f_eqb x y) : f64_scope.

(** [float64(n)] for an integer [n]: the nearest binary64 value, ties to
    even.  Integers up to 2^53 in magnitude are converted exactly. *)
Definition float64_of_Z (n : Z) : float :=
  SF2Prim (binary_normalize prec emax n 0 false).

(** IEEE 754 binary64, the arithmetic the program runs on.  Every operation
    rounds to nearest even on its own (no fused multiply-add); comparisons
    with a NaN are false and [0 == -0]. *)
#[export] Instance binary64 : Float64 float := {
  f_of_Z := float64_of_Z;
  f_add := PrimFloat.add;
  f_sub := PrimFloat.sub;
  f_mul := PrimFloat.mul;
  f_div := PrimFloat.div;
  f_sqrt := PrimFloat.sqrt;
  f_abs := PrimFloat.abs;
  f_ltb := PrimFloat.ltb;
  f_leb := PrimFloat.leb;
  f_eqb := PrimFloat.eqb
}.

(** Exact integer arithmetic (amounts counted in whole units, division and
    square root rounded down): an arithmetic in which addition is
    associative and commutative, used to separate what the pipeline computes
    from the rounding of binary64. *)
Definition exactZ : Float64 Z := {|
  f_of_Z := fun n => n;
  f_add := Z.add;
  f_sub := Z.sub;
  f_mul := Z.mul;
  f_div := Z.div;
  f_sqrt := Z.sqrt;
  f_abs := Z.abs;
  f_ltb := Z.ltb;
  f_leb := Z.leb;
  f_eqb := Z.eqb
|}.

(** The sum of a list of floats as the source's loops compute it:
    [var sum float64; for _, x := range xs { sum += x }]. *)
Definition fsum `{Float64 F} (xs : list F) : F :=
  fold_left f_add xs (f_of_Z 0).

(* ===================================================================== *)
(** * Package strings *)
(* ===================================================================== *)

Module strings.

(** [strings.HasPrefix(s, prefix)]. *)
Fixpoint HasPrefix (s prefix : string) : bool :=
  match prefix, s with
  | EmptyString, _ => true
  | String _ _, EmptyString => false
  | String c prefix', String d s' => Ascii.eqb c d && HasPrefix s' prefix'
  end.

(** [strings.Contains(s, substr)]: [substr] occurs in [s] as a run of
    consecutive bytes; the empty string occurs in every string. *)
Fixpoint Contains (s substr : string) : bool :=
  HasPrefix s substr ||
  match s with
  | EmptyString => false
  | String _ s' => Contains s' substr
  end.

(** [strings.ReplaceAll(s, old, "")] for a one-byte [old]: every occurrence
    of the byte is removed. *)
Fixpoint RemoveAll (s : string) (old : ascii) : string :=
  match s with
  | EmptyString => EmptyString
  | String c s' =>
      if Ascii.eqb c old then RemoveAll s' old else String c (RemoveAll s' old)
  end.

(** White space is [unicode.IsSpace]: the ASCII characters tab, line feed,
    vertical tab, form feed, carriage return and space; in UTF-8, on two
    bytes U+0085 and U+00A0, and on three bytes U+1680, U+2000 to U+200A,
    U+2028, U+2029, U+202F, U+205F and U+3000. *)
Definition isSpace1 (c : nat) : bool :=
  ((9 <=? c) && (c <=? 13) || (c =? 32))%nat.

Definition isSpace2 (c1 c2 : nat) : bool :=
  ((c1 =? 194) && ((c2 =? 133) || (c2 =? 160)))%nat.

Definition isSpace3 (c1 c2 c3 : nat) : bool :=
  ((c1 =? 225) && (c2 =? 154) && (c3 =? 128)
   || (c1 =? 226) && (c2 =? 128)
      && ((128 <=? c3) && (c3 <=? 138) || (c3 =? 168) || (c3 =? 169) || (c3 =? 175))
   || (c1 =? 226) && (c2 =? 129) && (c3 =? 159)
   || (c1 =? 227) && (c2 =? 128) && (c3 =? 128))%nat.

(** The number of bytes of the white-space character at the head of a byte
    sequence, 0 when there is none. *)
Definition leadingSpace (bs : list ascii) : nat :=
  match List.map nat_of_ascii (take 3 bs) with
  | [c1] => if isSpace1 c1 then 1 else 0
  | [c1; c2] => if isSpace1 c1 then 1 else if isSpace2 c1 c2 then 2 else 0
  | [c1; c2; c3] =>
      if isSpace1 c1 then 1 else if isSpace2 c1 c2 then 2
      else if isSpace3 c1 c2 c3 then 3 else 0
  | _ => 0
  end%nat.

(** The same for the white-space character at the end of a byte sequence,
    given in reverse. *)
Definition trailingSpace (rbs : list ascii) : nat :=
  match List.map nat_of_ascii (take 3 rbs) with
  | [c3] => if isSpace1 c3 then 1 else 0
  | [c3; c2] => if isSpace1 c3 then 1 else if isSpace2 c2 c3 then 2 else 0
  | [c3; c2; c1] =>
      if isSpace1 c3 then 1 else if isSpace2 c2 c3 then 2
      else if isSpace3 c1 c2 c3 then 3 else 0
  | _ => 0
  end%nat.

(** [strings.ToLower(s)] for a string of ASCII characters: the letters
    A to Z become a to z. *)
Definition lowerASCII (c : ascii) : ascii :=
  let n := nat_of_ascii c in
  if ((65 <=? n) && (n <=? 90))%nat then ascii_of_nat (n + 32) else c.

Fixpoint ToLowerASCII (s : string) : string :=
  match s with
  | EmptyString => EmptyString
  | String c s' => String (lowerASCII c) (ToLowerASCII s')
  end.

(** Characters of the given [width] removed from the head of [bs] for as
    long as there is one. *)
Fixpoint trimWith (width : list ascii -> nat) (fuel : nat) (bs : list ascii)
  : list ascii :=
  match fuel with
  | O => bs
  | S fuel' =>
      match width bs with
      | O => bs
      | n => trimWith width fuel' (drop n bs)
      end
  end.

(** [strings.TrimSpace(s)]: [s] without its leading and trailing white
    space.  At most [length s] characters are removed at either end. *)
Definition TrimSpace (s : string) : string :=
  let bs := list_ascii_of_string s in
  let left := trimWith leadingSpace (length bs) bs in
  let right := trimWith trailingSpace (length left) (rev left) in
  string_of_list_ascii (rev right).

End strings.

(* ===================================================================== *)
(** * Package time *)
(* ===================================================================== *)

Module time.

(** A [time.Time]: an instant together with the offset of its location.
    It is kept as the civil date and clock time read in that location and
    the offset, in seconds east of UTC.  [time.Parse] builds it from checked
    fields, [Before] and [IsZero] compare the instants, [Format] and
    [ISOWeek] read the civil date. *)
Record Time := mkTime {
  year : Z; month : Z; day : Z;
  hour : Z; minute : Z; second : Z; nsec : Z;
  offset : Z
}.

(** [time.Time{}]: January 1, year 1, 00:00:00 UTC. *)
Definition zero : Time := mkTime 1 1 1 0 0 0 0 0.

(** [time.Date(y, m, d, 0, 0, 0, 0, time.UTC)]. *)
Definition Date (y m d : Z) : Time := mkTime y m d 0 0 0 0 0.

Definition isLeap (y : Z) : bool :=
  (y mod 4 =? 0) && (negb (y mod 100 =? 0) || (y mod 400 =? 0)).

(** [daysIn(m, year)]. *)
Definition daysIn (m y : Z) : Z :=
  if m =? 2 then (if isLeap y then 29 else 28)
  else if (m =? 4) || (m =? 6) || (m =? 9) || (m =? 11) then 30
  else 31.

(** Days from 1970-01-01 to the civil date in the proleptic Gregorian
    calendar. *)
Definition daysFromCivil (y m d : Z) : Z :=
  let y' := if m <=? 2 then y - 1 else y in
  let era := y' / 400 in
  let yoe := y' - era * 400 in
  let doy := (153 * (if 2 <? m then m - 3 else m + 9) + 2) / 5 + d - 1 in
  let doe := yoe * 365 + yoe / 4 - yoe / 100 + doy in
  era * 146097 + doe - 719468.

(** Seconds of the instant since 1970-01-01T00:00:00Z. *)
Definition unixSec (t : Time) : Z :=
  daysFromCivil (year t) (month t) (day t) * 86400
  + hour t * 3600 + minute t * 60 + second t - offset t.

(** [t.Before(u)]: the instant [t] is before the instant [u]. *)
Definition Before (t u : Time) : bool :=
  (unixSec t <? unixSec u) || ((unixSec t =? unixSec u) && (nsec t <? nsec u)).

(** [t.IsZero()]: the instant is January 1, year 1, 00:00:00 UTC. *)
Definition IsZero (t : Time) : bool :=
  (unixSec t =? unixSec zero) && (nsec t =? 0).

(** ** Format *)

Definition digits (n : Z) : string :=
  NilEmpty.string_of_uint (N.to_uint (Z.to_N n)).

Fixpoint zeros (n : nat) : string :=
  match n with O => "" | S n' => String "0" (zeros n') end.

(** [appendInt(b, x, width)]: the decimal digits of [x], padded with zeros
    on the left to [width] digits, after a minus sign when [x < 0]. *)
Definition appendInt (x : Z) (width : nat) : string :=
  let ds := digits (Z.abs x) in
  (if x <? 0 then "-" else "") +:+ zeros (width - String.length ds) +:+ ds.

(** [t.Format("2006-01-02")]. *)
Definition FormatDate (t : Time) : string :=
  appendInt (year t) 4 +:+ "-" +:+ appendInt (month t) 2 +:+ "-" +:+ appendInt (day t) 2.

(** ** Parse *)

(** The elements of the layouts of the source, as [nextStdChunk] cuts
    them: literal text and the reference-time fields
    [2006] (stdLongYear), [01] (stdZeroMonth), [02] (stdZeroDay),
    [15] (stdHour), [04] (stdZeroMinute), [05] (stdZeroSecond) and
    [Z07:00] (stdISO8601ColonTZ). *)
Inductive chunk :=
| lit (c : ascii)
| stdLongYear | stdZeroMonth | stdZeroDay
| stdHour | stdZeroMinute | stdZeroSecond
| stdISO8601ColonTZ.

Definition isDigit (c : ascii) : bool :=
  (48 <=? nat_of_ascii c)%nat && (nat_of_ascii c <=? 57)%nat.

Definition digitVal (c : ascii) : Z := Z.of_nat (nat_of_ascii c) - 48.

(** [getnum(s, fixed)]: a number of one or two digits, of exactly two when
    [fixed]; the rest of the text is returned with it. *)
Definition getnum (s : list ascii) (fixed : bool) : option (Z * list ascii) :=
  match s with
  | c0 :: rest =>
      if isDigit c0 then
        match rest with
        | c1 :: rest' =>
            if isDigit c1 then Some (digitVal c0 * 10 + digitVal c1, rest')
            else if fixed then None else Some (digitVal c0, rest)
        | [] => if fixed then None else Some (digitVal c0, rest)
        end
      else None
  | [] => None
  end.

(** The fields [Parse] collects; [mon] and [dy] start at -1 and [tz], the
    offset given by the text, is absent until a zone is read. *)
Record fields := mkFields {
  yr : Z; mon : Z; dy : Z; hr : Z; mi : Z; sc : Z; ns : Z; tz : option Z
}.

Definition fields0 : fields := mkFields 0 (-1) (-1) 0 0 0 0 None.

Fixpoint takeDigits (s : list ascii) : list ascii * list ascii :=
  match s with
  | c :: rest =>
      if isDigit c then let '(ds, r) := takeDigits rest in (c :: ds, r)
      else ([], s)
  | [] => ([], [])
  end.

Definition number (ds : list ascii) : Z :=
  fold_left (fun acc c => acc * 10 + digitVal c) ds 0.

(** A fractional second in the text where the layout has none, after the
    seconds field: a period or comma and digits, of which the first nine
    count ([parseNanoseconds]). *)
Definition fraction (s : list ascii) : Z * list ascii :=
  match s with
  | c :: rest =>
      if (Ascii.eqb c "." || Ascii.eqb c ",")
         && match rest with d :: _ => isDigit d | [] => false end
      then
        let '(ds, r) := takeDigits rest in
        let ds9 := take 9 ds in
        (number ds9 * 10 ^ (9 - Z.of_nat (length ds9)), r)
      else (0, s)
  | [] => (0, s)
  end.

(** One element of the layout read from the text: the updated fields and
    the remaining text, or nothing when the text does not fit. *)
Definition parseChunk (k : chunk) (f : fields) (s : list ascii)
  : option (fields * list ascii) :=
  match k with
  | lit c =>
      match s with
      | c' :: rest => if Ascii.eqb c c' then Some (f, rest) else None
      | [] => None
      end
  | stdLongYear =>
      match s with
      | c0 :: c1 :: c2 :: c3 :: rest =>
          if isDigit c0 && isDigit c1 && isDigit c2 && isDigit c3
          then Some (mkFields (number [c0; c1; c2; c3]) (mon f) (dy f)
                       (hr f) (mi f) (sc f) (ns f) (tz f), rest)
          else None
      | _ => None
      end
  | stdZeroMonth =>
      match getnum s true with
      | Some (m, rest) =>
          if (m <=? 0) || (12 <? m) then None
          else Some (mkFields (yr f) m (dy f) (hr f) (mi f) (sc f) (ns f) (tz f), rest)
      | None => None
      end
  | stdZeroDay =>
      match getnum s true with
      | Some (d, rest) =>
          Some (mkFields (yr f) (mon f) d (hr f) (mi f) (sc f) (ns f) (tz f), rest)
      | None => None
      end
  | stdHour =>
      match getnum s false with
      | Some (h, rest) =>
          if 24 <=? h then None
          else Some (mkFields (yr f) (mon f) (dy f) h (mi f) (sc f) (ns f) (tz f), rest)
      | None => None
      end
  | stdZeroMinute =>
      match getnum s true with
      | Some (m, rest) =>
          if 60 <=? m then None
          else Some (mkFields (yr f) (mon f) (dy f) (hr f) m (sc f) (ns f) (tz f), rest)
      | None => None
      end
  | stdZeroSecond =>
      match getnum s true with
      | Some (x, rest) =>
          if 60 <=? x then None
          else
            let '(n, rest') := fraction rest in
            Some (mkFields (yr f) (mon f) (dy f) (hr f) (mi f) x n (tz f), rest')
      | None => None
      end
  | stdISO8601ColonTZ =>
      match s with
      | "Z"%char :: rest =>
          Some (mkFields (yr f) (mon f) (dy f) (hr f) (mi f) (sc f) (ns f) (Some 0), rest)
      | sign :: h1 :: h2 :: colon :: m1 :: m2 :: rest =>
          if Ascii.eqb colon ":" then
            match getnum [h1; h2] true, getnum [m1; m2] true with
            | Some (h, _), Some (m, _) =>
                if (24 <? h) || (60 <? m) then None
                else
                  let off := (h * 60 + m) * 60 in
                  if Ascii.eqb sign "+" then
                    Some (mkFields (yr f) (mon f) (dy f) (hr f) (mi f) (sc f) (ns f)
                            (Some off), rest)
                  else if Ascii.eqb sign "-" then
                    Some (mkFields (yr f) (mon f) (dy f) (hr f) (mi f) (sc f) (ns f)
                            (Some (- off)), rest)
                  else None
            | _, _ => None
            end
          else None
      | _ => None
      end
  end.

Fixpoint parseChunks (layout : list chunk) (f : fields) (s : list ascii)
  : option fields :=
  match layout with
  | [] => match s with [] => Some f | _ :: _ => None end
  | k :: layout' =>
      match parseChunk k f s with
      | Some (f', s') => parseChunks layout' f' s'
      | None => None
      end
  end.

(** [time.Parse(layout, value)]: the time, or nothing where Go returns an
    error.  The whole text must be used; a month or a day that the layout
    does not have is 1, the day is checked against the month's length, and
    the location is UTC unless the text gave an offset. *)
Definition Parse (layout : list chunk) (value : string) : option Time :=
  match parseChunks layout fields0 (list_ascii_of_string value) with
  | Some f =>
      let m := if mon f <? 0 then 1 else mon f in
      let d := if dy f <? 0 then 1 else dy f in
      if (d <? 1) || (daysIn m (yr f) <? d) then None
      else Some (mkTime (yr f) m d (hr f) (mi f) (sc f) (ns f)
                   (match tz f with Some o => o | None => 0 end))
  | None => None
  end.

(** The layouts of the source. *)
Definition layout_2006_01_02 : list chunk :=
  [stdLongYear; lit "-"; stdZeroMonth; lit "-"; stdZeroDay].
Definition layout_02_01_2006_slash : list chunk :=
  [stdZeroDay; lit "/"; stdZeroMonth; lit "/"; stdLongYear].
Definition layout_01_02_2006_slash : list chunk :=
  [stdZeroMonth; lit "/"; stdZeroDay; lit "/"; stdLongYear].
Definition layout_2006_01_02_slash : list chunk :=
  [stdLongYear; lit "/"; stdZeroMonth; lit "/"; stdZeroDay].
Definition layout_2006_01_02_dot : list chunk :=
  [stdLongYear; lit "."; stdZeroMonth; lit "."; stdZeroDay].
(** [time.RFC3339 = "2006-01-02T15:04:05Z07:00"]. *)
Definition RFC3339 : list chunk :=
  [stdLongYear; lit "-"; stdZeroMonth; lit "-"; stdZeroDay; lit "T";
   stdHour; lit ":"; stdZeroMinute; lit ":"; stdZeroSecond; stdISO8601ColonTZ].
Definition layout_2006_01 : list chunk :=
  [stdLongYear; lit "-"; stdZeroMonth].

(** ** ISOWeek *)

(** [t.ISOWeek()]: the ISO 8601 year and week of the civil date: the week
    is the one of the Thursday of the date's Monday-to-Sunday week. *)
Definition ISOWeek (t : Time) : Z * Z :=
  let n := daysFromCivil (year t) (month t) (day t) in
  let wd := (n + 4) mod 7 in
  let d := if wd =? 0 then -3 else 4 - wd in
  let th := n + d in
  let y := if th <? daysFromCivil (year t) 1 1 then year t - 1
           else if daysFromCivil (year t + 1) 1 1 <=? th then year t + 1
           else year t in
  (y, (th - daysFromCivil y 1 1) / 7 + 1).

End time.

(* ===================================================================== *)
(** * Package sort *)
(* ===================================================================== *)

(** [sort.Slice] as package sort implements it since Go 1.19 (the
    repository asks for Go 1.20 or later): pattern-defeating quicksort,
    [pdqsort_func], over the operations [Less] and [Swap] of the slice.
    Indices are natural numbers; every index the algorithm uses is within
    the slice.  The theorems on the pipeline assume of the sort only the
    contract stated after this module; the algorithm itself is run on the
    thirteen records of [thirteenSales] only, a run of one partition and two
    insertion sorts that reaches neither [breakPatterns_func] nor
    [heapSort_func]. *)
Module sort.
Local Open Scope nat_scope.
Section WithLess.
Context {A : Type}.
Variable less : A -> A -> bool.

(** [data.Less(i, j)] and [data.Swap(i, j)] on the slice being sorted; the
    indices the algorithm passes are within the slice. *)
Definition Less (data : list A) (i j : nat) : bool :=
  match data !! i, data !! j with
  | Some x, Some y => less x y
  | _, _ => false
  end.

Definition Swap (data : list A) (i j : nat) : list A :=
  match data !! i, data !! j with
  | Some x, Some y => <[i := y]> (<[j := x]> data)
  | _, _ => data
  end.

(** [for j := i; j > a && data.Less(j, j-1); j-- { data.Swap(j, j-1) }] *)
Fixpoint insertLeft (data : list A) (a j : nat) : list A :=
  match j with
  | O => data
  | S j' =>
      if (a <? j) && Less data j j' then insertLeft (Swap data j j') a j' else data
  end.

(** [insertionSort_func(data, a, b)] *)
Definition insertionSort_func (data : list A) (a b : nat) : list A :=
  fold_left (fun data i => insertLeft data a i) (seq (a + 1) (b - (a + 1))) data.

(** [siftDown_func(data, lo, hi, first)]; [n] bounds the iterations, the
    root growing at each of them and staying below [hi]. *)
Fixpoint siftDown_loop (n : nat) (data : list A) (root hi first : nat) : list A :=
  match n with
  | O => data
  | S n' =>
      let child := 2 * root + 1 in
      if hi <=? child then data
      else
        let child :=
          if (child + 1 <? hi) && Less data (first + child) (first + child + 1)
          then child + 1 else child in
        if negb (Less data (first + root) (first + child)) then data
        else siftDown_loop n' (Swap data (first + root) (first + child)) child hi first
  end.

Definition siftDown_func (data : list A) (lo hi first : nat) : list A :=
  siftDown_loop hi data lo hi first.

(** [heapSort_func(data, a, b)] *)
Definition heapSort_func (data : list A) (a b : nat) : list A :=
  let first := a in
  let lo := 0 in
  let hi := b - a in
  let data :=
    fold_left (fun data i => siftDown_func data i hi first)
              (rev (seq 0 ((hi - 1) / 2 + 1))) data in
  fold_left (fun data i => siftDown_func (Swap data first (first + i)) lo i first)
            (rev (seq 0 hi)) data.

Inductive sortedHint := unknownHint | increasingHint | decreasingHint.

(** [order2_func], [median_func], [medianAdjacent_func]: the count of
    swaps is returned with the result. *)
Definition order2_func (data : list A) (a b swaps : nat) : nat * nat * nat :=
  if Less data b a then (b, a, S swaps) else (a, b, swaps).

Definition median_func (data : list A) (a b c swaps : nat) : nat * nat :=
  let '(a, b, swaps) := order2_func data a b swaps in
  let '(b, c, swaps) := order2_func data b c swaps in
  let '(a, b, swaps) := order2_func data a b swaps in
  (b, swaps).

Definition medianAdjacent_func (data : list A) (a swaps : nat) : nat * nat :=
  median_func data (a - 1) a (a + 1) swaps.

(** [choosePivot_func(data, a, b)] *)
Definition choosePivot_func (data : list A) (a b : nat) : nat * sortedHint :=
  let shortestNinther := 50 in
  let maxSwaps := 4 * 3 in
  let l := b - a in
  let swaps := 0 in
  let i := a + l / 4 * 1 in
  let j := a + l / 4 * 2 in
  let k := a + l / 4 * 3 in
  let '(j, swaps) :=
    if 8 <=? l then
      let '(i, j, k, swaps) :=
        if shortestNinther <=? l then
          let '(i, swaps) := medianAdjacent_func data i swaps in
          let '(j, swaps) := medianAdjacent_func data j swaps in
          let '(k, swaps) := medianAdjacent_func data k swaps in
          (i, j, k, swaps)
        else (i, j, k, swaps) in
      median_func data i j k swaps
    else (j, swaps) in
  if swaps =? 0 then (j, increasingHint)
  else if swaps =? maxSwaps then (j, decreasingHint)
  else (j, unknownHint).

(** [reverseRange_func(data, a, b)]: [n] bounds the iterations. *)
Fixpoint reverseRange_loop (n : nat) (data : list A) (i j : nat) : list A :=
  match n with
  | O => data
  | S n' => if i <? j then reverseRange_loop n' (Swap data i j) (i + 1) (j - 1) else data
  end.

Definition reverseRange_func (data : list A) (a b : nat) : list A :=
  reverseRange_loop (b - a) data a (b - 1).

(** [for i < b && !data.Less(i, i-1) { i++ }] *)
Fixpoint skipOrdered (n : nat) (data : list A) (i b : nat) : nat :=
  match n with
  | O => i
  | S n' =>
      if (i <? b) && negb (Less data i (i - 1)) then skipOrdered n' data (i + 1) b
      else i
  end.

(** [for j := i - 1; j >= 1; j-- { if !data.Less(j, j-1) { break }; data.Swap(j, j-1) }] *)
Fixpoint shiftLeft (data : list A) (j : nat) : list A :=
  match j with
  | O => data
  | S j' => if negb (Less data j j') then data else shiftLeft (Swap data j j') j'
  end.

(** [for j := i + 1; j < b; j++ { if !data.Less(j, j-1) { break }; data.Swap(j, j-1) }] *)
Fixpoint shiftRight (n : nat) (data : list A) (j b : nat) : list A :=
  match n with
  | O => data
  | S n' =>
      if j <? b then
        if negb (Less data j (j - 1)) then data
        else shiftRight n' (Swap data j (j - 1)) (j + 1) b
      else data
  end.

(** [partialInsertionSort_func(data, a, b)]: the slice and whether it is
    sorted at the end. *)
Fixpoint partialInsertionSort_loop (steps : nat) (data : list A) (a b i : nat)
  : list A * bool :=
  match steps with
  | O => (data, false)
  | S steps' =>
      let shortestShifting := 50 in
      let i := skipOrdered (b - i) data i b in
      if i =? b then (data, true)
      else if b - a <? shortestShifting then (data, false)
      else
        let data := Swap data i (i - 1) in
        let data := if 2 <=? i - a then shiftLeft data (i - 1) else data in
        let data := if 2 <=? b - i then shiftRight (b - i) data (i + 1) b else data in
        partialInsertionSort_loop steps' data a b i
  end.

Definition partialInsertionSort_func (data : list A) (a b : nat) : list A * bool :=
  let maxSteps := 5 in
  partialInsertionSort_loop maxSteps data a b (a + 1).

(** The scans of the partitions.  [n] is the number of elements from [i]
    to [j], which bounds the iterations of [for i <= j && ...]. *)
Fixpoint scanUp (cond : list A -> nat -> bool) (n : nat) (data : list A) (i : nat) : nat :=
  match n with
  | O => i
  | S n' => if cond data i then scanUp cond n' data (i + 1) else i
  end.

Fixpoint scanDown (cond : list A -> nat -> bool) (n : nat) (data : list A) (j : nat) : nat :=
  match n with
  | O => j
  | S n' => if cond data j then scanDown cond n' data (j - 1) else j
  end.

(** The loop of [partition_func] and of [partitionEqual_func] after the
    scans: [if i > j { break }; data.Swap(i, j); i++; j--]. *)
Fixpoint partition_loop (up down : list A -> nat -> bool) (n : nat)
    (data : list A) (i j : nat) : list A * nat * nat :=
  match n with
  | O => (data, i, j)
  | S n' =>
      let i := scanUp up (j + 1 - i) data i in
      let j := scanDown down (j + 1 - i) data j in
      if j <? i then (data, i, j)
      else partition_loop up down n' (Swap data i j) (i + 1) (j - 1)
  end.

(** [partition_func(data, a, b, pivot)] *)
Definition partition_func (data : list A) (a b pivot : nat) : list A * nat * bool :=
  let data := Swap data a pivot in
  let i := a + 1 in
  let j := b - 1 in
  let up := fun data i => Less data i a in
  let down := fun data j => negb (Less data j a) in
  let i := scanUp up (j + 1 - i) data i in
  let j := scanDown down (j + 1 - i) data j in
  if j <? i then (Swap data j a, j, true)
  else
    let data := Swap data i j in
    let '(data, i, j) := partition_loop up down (b - a) data (i + 1) (j - 1) in
    (Swap data j a, j, false).

(** [partitionEqual_func(data, a, b, pivot)] *)
Definition partitionEqual_func (data : list A) (a b pivot : nat) : list A * nat :=
  let data := Swap data a pivot in
  let i := a + 1 in
  let j := b - 1 in
  let up := fun data i => negb (Less data a i) in
  let down := fun data j => Less data a j in
  let '(data, i, j) := partition_loop up down (b - a) data i j in
  (data, i).

(** [bits.Len(uint(n))] *)
Definition bitsLen (n : nat) : nat :=
  match n with O => 0 | _ => S (Nat.log2 n) end.

(** [xorshift.Next]: [r ^= r << 13; r ^= r >> 7; r ^= r << 17] on 64 bits. *)
Definition xorshift_Next (r : Z) : Z :=
  let wrap x := Z.land x (2 ^ 64 - 1) in
  let r := Z.lxor r (wrap (Z.shiftl r 13)) in
  let r := Z.lxor r (Z.shiftr r 7) in
  Z.lxor r (wrap (Z.shiftl r 17)).

(** [breakPatterns_func(data, a, b)] *)
Definition breakPatterns_func (data : list A) (a b : nat) : list A :=
  let length := b - a in
  if 8 <=? length then
    let modulus := Z.shiftl 1 (Z.of_nat (bitsLen length)) in
    let idx := a + (length / 4) * 2 - 1 in
    fst (fold_left
           (fun '(data, random) i =>
              let random := xorshift_Next random in
              let other := Z.to_nat (Z.land random (modulus - 1)) in
              let other := if length <=? other then other - length else other in
              (Swap data (idx - 1 + i) (a + other), random))
           (seq 0 3) (data, Z.of_nat length))
  else data.

(** [pdqsort_func(data, a, b, limit)].  [n] bounds the iterations of the
    loop and the depth of the recursion: each shortens [data[a:b]].  The
    result is [None] if the bound is too small. *)
Fixpoint pdqsort_loop (n : nat) (data : list A) (a b limit : nat)
    (wasBalanced wasPartitioned : bool) : option (list A) :=
  match n with
  | O => None
  | S n' =>
      let maxInsertion := 12 in
      let length := b - a in
      if length <=? maxInsertion then Some (insertionSort_func data a b)
      else if limit =? 0 then Some (heapSort_func data a b)
      else
        let '(data, limit) :=
          if negb wasBalanced then (breakPatterns_func data a b, limit - 1)
          else (data, limit) in
        let '(pivot, hint) := choosePivot_func data a b in
        let '(data, pivot, hint) :=
          match hint with
          | decreasingHint =>
              (reverseRange_func data a b, (b - 1) - (pivot - a), increasingHint)
          | _ => (data, pivot, hint)
          end in
        let '(data, sorted) :=
          match hint with
          | increasingHint =>
              if wasBalanced && wasPartitioned then partialInsertionSort_func data a b
              else (data, false)
          | _ => (data, false)
          end in
        if sorted then Some data
        else if (0 <? a) && negb (Less data (a - 1) pivot) then
          let '(data, mid) := partitionEqual_func data a b pivot in
          pdqsort_loop n' data mid b limit wasBalanced wasPartitioned
        else
          let '(data, mid, alreadyPartitioned) := partition_func data a b pivot in
          let wasPartitioned := alreadyPartitioned in
          let leftLen := mid - a in
          let rightLen := b - mid in
          let balanceThreshold := length / 8 in
          if leftLen <? rightLen then
            let wasBalanced := balanceThreshold <=? leftLen in
            match pdqsort_loop n' data a mid limit true true with
            | Some data => pdqsort_loop n' data (mid + 1) b limit wasBalanced wasPartitioned
            | None => None
            end
          else
            let wasBalanced := balanceThreshold <=? rightLen in
            match pdqsort_loop n' data (mid + 1) b limit true true with
            | Some data => pdqsort_loop n' data a mid limit wasBalanced wasPartitioned
            | None => None
            end
  end.

(** [sort.Slice(x, less)] *)
Definition Slice (x : list A) : option (list A) :=
  let length := length x in
  let limit := bitsLen length in
  pdqsort_loop (S length) x 0 length limit true true.

End WithLess.
End sort.

(* ===================================================================== *)
(** * The contract of sort.Slice, and ranging over a map *)
(* ===================================================================== *)

(** [sort.Slice(x, less)] sorts the slice [x] in place: it only swaps
    elements, and leaves them ordered by [less] when [less] is a strict weak
    order ("Less must describe a transitive ordering").  Go documents that
    the sort "is not guaranteed to be stable: equal elements may be reversed
    from their original order".  The algorithm differs between versions of
    Go, so the pipeline takes the sort as an argument and the theorems
    assume of it only this contract, [sortSlice_contract]; [sort.Slice]
    above is one such sort. *)
Definition Sorter : Type := forall A : Type, (A -> A -> bool) -> list A -> list A.

Record StrictWeakOrder {A : Type} (less : A -> A -> bool) : Prop := {
  swo_irrefl : forall x, less x x = false;
  swo_trans : forall x y z, less x y = true -> less y z = true -> less x z = true;
  swo_negtrans : forall x y z, less x y = false -> less y z = false -> less x z = false
}.

(** No element is [less] than an element before it. *)
Definition SortedBy {A : Type} (less : A -> A -> bool) (l : list A) : Prop :=
  StronglySorted (fun x y => less y x = false) l.

Record sortSlice_contract (sortSlice : Sorter) : Prop := {
  sortSlice_perm : forall A (less : A -> A -> bool) (l : list A),
    Permutation (sortSlice A less l) l;
  sortSlice_sorted : forall A (less : A -> A -> bool) (l : list A),
    StrictWeakOrder less -> SortedBy less (sortSlice A less l)
}.

(** [for k, v := range m]: the entries of [m] in an order that Go leaves
    unspecified and varies from one loop to the next.  The order is an
    argument: a function from the map to the list of its entries, one for
    each loop that ranges over a map. *)
Definition RangeOrder : Type := forall V : Type, gmap string V -> list (string * V).

Definition range_contract (rng : RangeOrder) : Prop :=
  forall V (m : gmap string V), Permutation (rng V m) (map_to_list m).

(* ===================================================================== *)
(** * Data model *)
(* ===================================================================== *)

Record Sale (F : Type) := mkSale {
  Date : time.Time;
  Customer : string;
  Product : string;
  Amount : F;
  Status : string
}.
Arguments mkSale {F} _ _ _ _ _.
Arguments Date {F} _.
Arguments Customer {F} _.
Arguments Product {F} _.
Arguments Amount {F} _.
Arguments Status {F} _.

Record KVf (F : Type) := mkKVf { Key : string; KVf_Value : F }.
Arguments mkKVf {F} _ _.
Arguments Key {F} _.
Arguments KVf_Value {F} _.

Record KVt (F : Type) := mkKVt { Day : time.Time; Value : F }.
Arguments mkKVt {F} _ _.
Arguments Day {F} _.
Arguments Value {F} _.

Record Anomaly (F : Type) := mkAnomaly {
  Anomaly_Day : time.Time;
  Anomaly_Value : F;
  Z_ : F
}.
Arguments mkAnomaly {F} _ _ _.
Arguments Anomaly_Day {F} _.
Arguments Anomaly_Value {F} _.
Arguments Z_ {F} _.

(** The texts of [suggestions].  Each constructor is one format string of
    the source together with the values printed into it; how [fmt.Sprintf]
    prints a number is not part of the model. *)
Inductive Suggestion (F : Type) :=
| Dunning (overdueCount : nat) (overdueTotal : F)
    (* "Initiate dunning workflow: %d overdue/unpaid invoices totaling $%.2f." *)
| Bundles
    (* "Test bundles/tiers to increase Average Order Value (cross-sell top products)." *)
| Loyalty (topC : list (KVf F))
    (* "Send loyalty offers to top customers: %s." *)
| DoubleDown (topP : list (KVf F))
    (* "Double down on high-velocity products: %s." *)
| Dip (day : string) (z : F)
    (* "Investigate revenue dip on %s (z=%.2f). Check campaigns, outages, pricing." *)
| Spike (day : string) (z : F)
    (* "Spike on %s (z=%.2f). Attribute uplift and try to replicate." *)
| Steady.
    (* "Steady performance. Consider experimentation (price tests, reorder nudges) to uncover upside." *)
Arguments Dunning {F} _ _.
Arguments Bundles {F}.
Arguments Loyalty {F} _.
Arguments DoubleDown {F} _.
Arguments Dip {F} _ _.
Arguments Spike {F} _ _.
Arguments Steady {F}.

Record KPIs (F : Type) := mkKPIs {
  From : time.Time;
  To : time.Time;
  TotalRevenue : F;
  AvgOrderValue : F;
  Orders : nat;
  UniqueCustomers : nat;
  TopCustomers : list (KVf F);
  TopProducts : list (KVf F);
  DailyRevenue : list (KVt F);
  RetentionRate : F;
  ForecastNext7DaysTotal : F;
  Anomalies : list (Anomaly F);
  OverdueCount : nat;
  OverdueTotal : F;
  Suggestions : list (Suggestion F);
  ExecSummary : string
}.
Arguments mkKPIs {F} _ _ _ _ _ _ _ _ _ _ _ _ _ _ _ _.
Arguments From {F} _.
Arguments To {F} _.
Arguments TotalRevenue {F} _.
Arguments AvgOrderValue {F} _.
Arguments Orders {F} _.
Arguments UniqueCustomers {F} _.
Arguments TopCustomers {F} _.
Arguments TopProducts {F} _.
Arguments DailyRevenue {F} _.
Arguments RetentionRate {F} _.
Arguments ForecastNext7DaysTotal {F} _.
Arguments Anomalies {F} _.
Arguments OverdueCount {F} _.
Arguments OverdueTotal {F} _.
Arguments Suggestions {F} _.
Arguments ExecSummary {F} _.

(* ===================================================================== *)
(** * Analytics on the daily series *)
(* ===================================================================== *)

Section Series.
Context {F : Type} `{Float64 F}.
Local Open Scope f64_scope.

(** [float64(len(d))]. *)
Definition float64_len {A : Type} (d : list A) : F := f_of_Z (Z.of_nat (length d)).

(** [detectAnomalies]: the three loops of the source are folds over [d]
    with the accumulators [sum], [ss] and [out]. *)
Definition detectAnomalies (d : list (KVt F)) : list (Anomaly F) :=
  if (length d <? 7)%nat then []
  else
    let sum := fold_left (fun sum x => sum + Value x) d (f_of_Z 0) in
    let mean := sum / float64_len d in
    let ss :=
      fold_left (fun ss x => ss + (Value x - mean) * (Value x - mean)) d (f_of_Z 0) in
    let std := f_sqrt (ss / float64_len d) in
    if std =? f_of_Z 0 then []
    else
      fold_left
        (fun out x =>
           let z := (Value x - mean) / std in
           if f_of_Z 2 <=? f_abs z
           then out ++ [mkAnomaly (Day x) (Value x) z]
           else out)
        d [].

(** [forecast7]: the loop runs [i] from [len(d)-window] up to [len(d)-1]
    and adds [d[i].Value]; every such index is within the slice. *)
Definition forecast7 (d : list (KVt F)) : F :=
  if (length d =? 0)%nat then f_of_Z 0
  else
    let window := if (length d <? 7)%nat then length d else 7%nat in
    let sum :=
      fold_left
        (fun sum i => match d !! i with Some x => sum + Value x | None => sum end)
        (seq (length d - window) window) (f_of_Z 0) in
    let avg := sum / f_of_Z (Z.of_nat window) in
    avg * f_of_Z 7.

(** [suggestions]: the rules in the order of the source, each appending to
    [s]. *)
Definition suggestions (total aov : F) (overdueCount : nat) (overdueTotal : F)
    (topC topP : list (KVf F)) (anoms : list (Anomaly F)) : list (Suggestion F) :=
  let s := [] in
  let s := if (0 <? overdueCount)%nat
           then s ++ [Dunning overdueCount overdueTotal] else s in
  let s := if aov <? f_of_Z 50 then s ++ [Bundles] else s in
  let s := if (0 <? length topC)%nat then s ++ [Loyalty topC] else s in
  let s := if (0 <? length topP)%nat then s ++ [DoubleDown topP] else s in
  let s :=
    fold_left
      (fun s an =>
         if Z_ an <? f_of_Z (-2)
         then s ++ [Dip (time.FormatDate (Anomaly_Day an)) (Z_ an)]
         else if f_of_Z 2 <? Z_ an
         then s ++ [Spike (time.FormatDate (Anomaly_Day an)) (Z_ an)]
         else s)
      anoms s in
  let s := if (f_of_Z 0 <? total) && (f_of_Z 0 <? aov)
              && (overdueCount =? 0)%nat && (length anoms =? 0)%nat
           then s ++ [Steady] else s in
  s.

End Series.

(* ===================================================================== *)
(** * computeKPIs *)
(* ===================================================================== *)

Section Analytics.
Context {F : Type} `{Float64 F}.
Variable sortSlice : Sorter.
(** The orders of the four loops over a map: [dr] in [computeKPIs], the
    two calls of [topN], and [m] in [retentionRate]. *)
Variable rangeDaily rangeCustomers rangeProducts rangeRetention : RangeOrder.
Local Open Scope f64_scope.

(** [m[k] += v] on a [map[string]float64]: a missing key reads as 0. *)
Definition mapAdd (m : gmap string F) (k : string) (v : F) : gmap string F :=
  <[k := default (f_of_Z 0) (m !! k) + v]> m.

(** The overdue/unpaid heuristic of the loop. *)
Definition isOverdue (s : Sale F) : bool :=
  strings.Contains (Status s) "overdue"
  || strings.Contains (Status s) "unpaid"
  || strings.Contains (Status s) "due".

(** The variables the main loop of [computeKPIs] updates. *)
Record Acc := mkAcc {
  total : F;
  orders : nat;
  byCustomer : gmap string F;
  byProduct : gmap string F;
  customers : gmap string bool;
  dr : gmap string F;
  overdueCount : nat;
  overdueTotal : F
}.

Definition acc0 : Acc := mkAcc (f_of_Z 0) 0 ∅ ∅ ∅ ∅ 0 (f_of_Z 0).

(** One iteration of [for _, s := range sales]. *)
Definition step (a : Acc) (s : Sale F) : Acc :=
  let over := isOverdue s in
  mkAcc (total a + Amount s)
        (S (orders a))
        (mapAdd (byCustomer a) (Customer s) (Amount s))
        (mapAdd (byProduct a) (Product s) (Amount s))
        (<[Customer s := true]> (customers a))
        (mapAdd (dr a) (time.FormatDate (Date s)) (Amount s))
        (if over then S (overdueCount a) else overdueCount a)
        (if over then overdueTotal a + Amount s else overdueTotal a).

(** [sort.Slice(sales, func(i,j) { return sales[i].Date.Before(sales[j].Date) })]. *)
Definition sortByDate (sales : list (Sale F)) : list (Sale F) :=
  sortSlice _ (fun a b => time.Before (Date a) (Date b)) sales.

(** The map [dr] turned into the slice [daily] and sorted by day.  A key
    that does not parse back yields the zero time, as the source drops the
    error of [time.Parse]. *)
Definition dailySeries (dr : gmap string F) : list (KVt F) :=
  let daily :=
    fold_left
      (fun daily '(k, v) =>
         daily ++ [mkKVt (default time.zero (time.Parse time.layout_2006_01_02 k)) v])
      (rangeDaily _ dr) [] in
  sortSlice _ (fun a b => time.Before (Day a) (Day b)) daily.

(** [topN(m, n)]. *)
Definition topN (rng : RangeOrder) (m : gmap string F) (n : nat) : list (KVf F) :=
  let arr := fold_left (fun arr '(k, v) => arr ++ [mkKVf k v]) (rng _ m) [] in
  let arr := sortSlice _ (fun a b => KVf_Value b <? KVf_Value a) arr in
  if (n <? length arr)%nat then take n arr else arr.

(** [retentionRate(sales)]: the share of customers seen in two or more
    ISO weeks. *)
Definition retentionRate (sales : list (Sale F)) : F :=
  let m : gmap string (gmap (Z * Z) bool) :=
    fold_left
      (fun m s =>
         let w := time.ISOWeek (Date s) in
         let m := match m !! Customer s with
                  | Some _ => m
                  | None => <[Customer s := ∅]> m
                  end in
         <[Customer s := <[w := true]> (default ∅ (m !! Customer s))]> m)
      sales ∅ in
  let retained :=
    fold_left
      (fun retained '(_, set) => if (2 <=? size set)%nat then S retained else retained)
      (rangeRetention _ m) 0%nat in
  if (size m =? 0)%nat then f_of_Z 0
  else f_of_Z (Z.of_nat retained) / f_of_Z (Z.of_nat (size m)).

(** [KPIs{}]. *)
Definition KPIs_zero : KPIs F :=
  mkKPIs time.zero time.zero (f_of_Z 0) (f_of_Z 0) 0 0 [] [] [] (f_of_Z 0) (f_of_Z 0)
         [] 0 (f_of_Z 0) [] "".

(** [computeKPIs].  [sort.Slice] sorts [sales] in place, so [sales] below
    is the sorted slice, of the length of the argument; [sales[0]] and
    [sales[len(sales)-1]] are within it. *)
Definition computeKPIs (sales : list (Sale F)) : KPIs F :=
  if (length sales =? 0)%nat then KPIs_zero
  else
    let sales := sortByDate sales in
    let from := from_option Date time.zero (sales !! 0%nat) in
    let to := from_option Date time.zero (sales !! (length sales - 1)%nat) in
    let a := fold_left step sales acc0 in
    let daily := dailySeries (dr a) in
    let topCust := topN rangeCustomers (byCustomer a) 5 in
    let topProd := topN rangeProducts (byProduct a) 5 in
    let avgOrder :=
      if (0 <? orders a)%nat then total a / f_of_Z (Z.of_nat (orders a))
      else f_of_Z 0 in
    let retention := retentionRate sales in
    let anoms := detectAnomalies daily in
    let forecast := forecast7 daily in
    let sug := suggestions (total a) avgOrder (overdueCount a) (overdueTotal a)
                 topCust topProd anoms in
    mkKPIs from to (total a) avgOrder (orders a) (size (customers a))
           topCust topProd daily retention forecast anoms
           (overdueCount a) (overdueTotal a) sug "".

End Analytics.

(* ===================================================================== *)
(** * CSV ingest *)
(* ===================================================================== *)

(** [parseDateFlexible]: the layouts of [candidates] in their order, the
    first that parses returns; then the partial layout; then [time.Time{}]. *)
Definition candidates : list (list time.chunk) :=
  [time.layout_2006_01_02; time.layout_02_01_2006_slash;
   time.layout_01_02_2006_slash; time.layout_2006_01_02_slash;
   time.layout_2006_01_02_dot; time.RFC3339].

Fixpoint firstParse (layouts : list (list time.chunk)) (s : string)
  : option time.Time :=
  match layouts with
  | [] => None
  | f :: layouts' =>
      match time.Parse f s with
      | Some t => Some t
      | None => firstParse layouts' s
      end
  end.

Definition parseDateFlexible (s : string) : time.Time :=
  let s := strings.TrimSpace s in
  match firstParse candidates s with
  | Some t => t
  | None =>
      match time.Parse time.layout_2006_01 s with
      | Some t => t
      | None => time.zero
      end
  end.

Definition nz (a b : string) : string :=
  if String.eqb (strings.TrimSpace a) "" then b else a.

(** The errors of [parseCSV]: the wrapped error of the CSV reader
    ("csv read: %w") and "csv has no data rows". *)
Inductive error :=
| csv_read (err : string)
| csv_has_no_data_rows.

Section Ingest.
Context {F : Type} `{Float64 F}.
(** [csv.NewReader(r)] with [TrimLeadingSpace] set, then [ReadAll]: the
    records and the error, which is absent when the input is well-formed
    CSV.  The reader belongs to the Go library. *)
Variable ReadAll : string -> list (list string) * option string.
(** [strings.ToLower], with Unicode's case mapping. *)
Variable ToLower : string -> string.
(** [strconv.ParseFloat(s, 64)], the value it returns (the source drops
    the error). *)
Variable ParseFloat : string -> F.
(** The order in which [get] ranges over the header map [h], for the call
    with a given [key] on the data row of a given number. *)
Variable rangeHeader : nat -> string -> RangeOrder.

(** The header map: [h[strings.ToLower(strings.TrimSpace(col))] = i]. *)
Definition headerMap (header : list string) : gmap string nat :=
  fold_left (fun h '(i, col) => <[ToLower (strings.TrimSpace col) := i]> h)
            (imap pair header) ∅.

(** The loop of [get] over the entries of [h] in the order it meets them:
    the first column whose name contains [key] and whose index is within
    the row returns. *)
Fixpoint getLoop (entries : list (string * nat)) (row : list string) (key : string)
  : string :=
  match entries with
  | [] => ""
  | (k, idx) :: entries' =>
      if strings.Contains k key then
        match row !! idx with
        | Some cell => strings.TrimSpace cell
        | None => getLoop entries' row key
        end
      else getLoop entries' row key
  end.

Definition get (h : gmap string nat) (i : nat) (row : list string) (key : string)
  : string :=
  getLoop (rangeHeader i key _ h) row key.

(** The body of the loop over the data rows: the sale of row number [i],
    or nothing where the source says [continue]. *)
Definition parseRow (h : gmap string nat) (i : nat) (row : list string)
  : option (Sale F) :=
  let ds := get h i row "date" in
  if String.eqb ds "" then None
  else
    let dt := parseDateFlexible ds in
    if time.IsZero dt then None
    else
      let amtStr := get h i row "amount" in
      let amt := ParseFloat (strings.RemoveAll (strings.TrimSpace amtStr) ",") in
      Some (mkSale dt
                   (nz (get h i row "customer") "Unknown")
                   (nz (get h i row "product") "Unknown")
                   amt
                   (ToLower (get h i row "status"))).

(** [parseCSV]: the slice and the error it returns. *)
Definition parseCSV (r : string) : list (Sale F) * option error :=
  let '(records, err) := ReadAll r in
  match err with
  | Some e => ([], Some (csv_read e))
  | None =>
      if (length records <? 2)%nat then ([], Some csv_has_no_data_rows)
      else
        let h := headerMap (default [] (records !! 0%nat)) in
        let out :=
          fold_left
            (fun out '(i, row) =>
               match parseRow h i row with
               | Some s => out ++ [s]
               | None => out
               end)
            (imap pair (drop 1 records)) [] in
        (out, None)
  end.

End Ingest.

(* ===================================================================== *)
(** * Alerts *)
(* ===================================================================== *)

(** The condition on which [runCLI] and [handleUpload] post an alert:
    [len(k.Anomalies) > 0 || k.OverdueCount > 0]. *)
Definition alertNeeded {F : Type} (k : KPIs F) : bool :=
  (0 <? length (Anomalies k))%nat || (0 <? OverdueCount k)%nat.


(* ===================================================================== *)
(** * Sorts and map orders to run the pipeline with *)
(* ===================================================================== *)

(** Insertion sort as [insertionSort_func] of package sort runs it, which
    is how [sort.Slice] sorts a slice of at most 12 elements: each element
    in turn moves left while [pass] lets it go before its left neighbour.
    The sorted prefix is kept in reverse, its last element first. *)
Fixpoint insertBack {A : Type} (pass : A -> A -> bool) (x : A) (racc : list A)
  : list A :=
  match racc with
  | [] => [x]
  | y :: racc' => if pass x y then y :: insertBack pass x racc' else x :: racc
  end.

Definition insertionSortBy {A : Type} (pass : A -> A -> bool) (l : list A) : list A :=
  rev (fold_left (fun racc x => insertBack pass x racc) l []).

(** An element moves before its neighbour when it is [less]: equal elements
    keep their order. *)
Definition insertionSort : Sorter :=
  fun A less => insertionSortBy (fun x y => less x y).

(** An element moves before its neighbour unless the neighbour is [less]:
    equal elements end in reverse order. *)
Definition reversingSort : Sorter :=
  fun A less => insertionSortBy (fun x y => negb (less y x)).

(** [sort.Slice] of Go 1.19 and later as a [Sorter]; the bound of
    [sort.Slice] is never reached, and the slice is left as it is if it
    were. *)
Definition goSortSlice : Sorter :=
  fun A less x => default x (sort.Slice less x).

(** The order of [map_to_list], an order in which [range] may visit a map. *)
Definition rangeCanonical : RangeOrder := fun V m => map_to_list m.

(** The reverse of [rangeCanonical], another order in which [range] may
    visit a map. *)
Definition rangeReversed : RangeOrder := fun V m => rev (map_to_list m).

(* ===================================================================== *)
(** * The notions of the specification *)
(* ===================================================================== *)

Section SpecificationNotions.
Context {F : Type} `{Float64 F}.
Local Open Scope f64_scope.

(** The population statistics of the specification: mean and standard
    deviation over all daily totals, dividing by N, and the z-score of a
    day. *)
Definition mean (d : list (KVt F)) : F :=
  fsum (List.map Value d) / float64_len d.

Definition stddev (d : list (KVt F)) : F :=
  f_sqrt (fsum (List.map (fun x => (Value x - mean d) * (Value x - mean d)) d)
          / float64_len d).

Definition zscore (d : list (KVt F)) (x : KVt F) : F :=
  (Value x - mean d) / stddev d.

(** [|z| >= 2.0]. *)
Definition flagged (d : list (KVt F)) (x : KVt F) : bool :=
  f_of_Z 2 <=? f_abs (zscore d x).

Definition anomalyOf (d : list (KVt F)) (x : KVt F) : Anomaly F :=
  mkAnomaly (Day x) (Value x) (zscore d x).

(** The messages of one anomaly: a dip when [z < -2], a spike when
    [z > 2], none otherwise. *)
Definition anomalyMessages (an : Anomaly F) : list (Suggestion F) :=
  if Z_ an <? f_of_Z (-2) then [Dip (time.FormatDate (Anomaly_Day an)) (Z_ an)]
  else if f_of_Z 2 <? Z_ an then [Spike (time.FormatDate (Anomaly_Day an)) (Z_ an)]
  else [].

(** The sum of the values of a map. *)
Definition mapSum (m : gmap string F) : F := fsum (List.map snd (map_to_list m)).

End SpecificationNotions.

(** The layouts [parseDateFlexible] tries, in the order it tries them:
    the six of [candidates] and the partial layout. *)
Definition dateLayouts : list (list time.chunk) :=
  [ time.layout_2006_01_02;          (* 2006-01-02, ISO date *)
    time.layout_02_01_2006_slash;    (* 02/01/2006, day/month/year *)
    time.layout_01_02_2006_slash;    (* 01/02/2006, month/day/year *)
    time.layout_2006_01_02_slash;    (* 2006/01/02, year/month/day *)
    time.layout_2006_01_02_dot;      (* 2006.01.02, dot-separated *)
    time.RFC3339;                    (* 2006-01-02T15:04:05Z07:00 *)
    time.layout_2006_01 ].           (* 2006-01, year and month *)

(** The date a text reads as, in the words of the specification: the
    layouts of [dateLayouts] are tried in order on the trimmed text and the
    first that parses gives the date; the text is unparsable when none
    does. *)
Definition readDate (s : string) : option time.Time :=
  head (omap (fun f => time.Parse f (strings.TrimSpace s)) dateLayouts).

Section RecordOfRow.
Context {F : Type} `{Float64 F}.
Variable ToLower : string -> string.
Variable ParseFloat : string -> F.
Variable rangeHeader : nat -> string -> RangeOrder.
Variable h : gmap string nat.
Variable i : nat.
Variable row : list string.

(** The cell of the row in the column of a logical field. *)
Local Abbreviation cell := (get rangeHeader h i row).

(** The date of a row that is kept: the date cell is present and reads as
    a time other than the zero time. *)
Definition rowDate : option time.Time :=
  if decide (cell "date" = "") then None
  else match readDate (cell "date") with
       | Some t => if time.IsZero t then None else Some t
       | None => None
       end.

(** The record of a row dated [t], in the words of the specification:
    a missing customer or product is "Unknown", the amount is parsed from
    the cell without its commas, the status is lower-cased. *)
Definition recordOfRow (t : time.Time) : Sale F :=
  mkSale t
    (if decide (strings.TrimSpace (cell "customer") = "") then "Unknown"
     else cell "customer")
    (if decide (strings.TrimSpace (cell "product") = "") then "Unknown"
     else cell "product")
    (ParseFloat (strings.RemoveAll (strings.TrimSpace (cell "amount")) ","))
    (ToLower (cell "status")).

End RecordOfRow.

(** The list of formats as the claim words it: ISO date, day/month slash,
    month/day slash, dot-separated, full timestamp, year-month only. *)
Definition claimedLayouts : list (list time.chunk) :=
  [ time.layout_2006_01_02; time.layout_02_01_2006_slash;
    time.layout_01_02_2006_slash; time.layout_2006_01_02_dot;
    time.RFC3339; time.layout_2006_01 ].

(** The text [c1 c2 / c3 c4 / c5 c6 c7 c8]. *)
Definition slashDate (c1 c2 c3 c4 c5 c6 c7 c8 : ascii) : string :=
  string_of_list_ascii [c1; c2; "/"%char; c3; c4; "/"%char; c5; c6; c7; c8].

(** At most one column name of the header map contains [key]. *)
Definition uniqueColumn (h : gmap string nat) (key : string) : Prop :=
  forall k1 k2, is_Some (h !! k1) -> is_Some (h !! k2) ->
    strings.Contains k1 key = true -> strings.Contains k2 key = true -> k1 = k2.

(** The logical fields [parseCSV] looks up. *)
Definition fieldTokens : list string :=
  ["date"; "customer"; "product"; "amount"; "status"].

(** At most one entry of the header map, listed in [l], has a name that
    contains [key]. *)
Definition atMostOneMatch (key : string) (l : list (string * nat)) : Prop :=
  forall e1 e2, In e1 l -> In e2 l ->
    strings.Contains e1.1 key = true -> strings.Contains e2.1 key = true -> e1 = e2.

(* ===================================================================== *)
(** * Notions for the properties of the report *)
(* ===================================================================== *)

Section PerKey.
Context {A : Type}.
Variable key : A -> string.

(** The elements of [l] filed under the key [k], in their order. *)
Definition filedUnder (k : string) (l : list A) : list A :=
  List.filter (fun s => String.eqb (key s) k) l.

(** The keys of the elements of [l], each once. *)
Definition keysOf (l : list A) : list string := remove_dups (List.map key l).

End PerKey.

Section PerKeyTotals.
Context {F : Type} `{Float64 F}.

(** The key of a record in the map [dr] of [computeKPIs]:
    [s.Date.Format("2006-01-02")]. *)
Definition dateKey (s : Sale F) : string := time.FormatDate (Date s).

(** The amounts of the records filed under [k], added up in their order
    from 0. *)
Definition keyTotal (key : Sale F -> string) (k : string) (l : list (Sale F)) : F :=
  fsum (List.map Amount (filedUnder key k l)).

(** The point of the daily series for the key [k]: the key parsed back,
    the zero time if it does not parse, and the total of the key. *)
Definition dayPoint (l : list (Sale F)) (k : string) : KVt F :=
  mkKVt (default time.zero (time.Parse time.layout_2006_01_02 k))
        (keyTotal dateKey k l).

End PerKeyTotals.

Section RetentionNotions.
Context {F : Type}.

(** The ISO year and week of a record. *)
Definition weekOf (s : Sale F) : Z * Z := time.ISOWeek (Date s).

(** The distinct ISO weeks in which the customer [c] has a record. *)
Definition weeksOf (c : string) (l : list (Sale F)) : list (Z * Z) :=
  remove_dups (List.map weekOf (filedUnder Customer c l)).

(** The customers with records in two or more distinct ISO weeks. *)
Definition retainedCustomers (l : list (Sale F)) : list string :=
  List.filter (fun c => (2 <=? length (weeksOf c l))%nat) (keysOf Customer l).

End RetentionNotions.

(** [sort.Slice(x, less)] calls [less] on indices of [x] only: what it does
    depends on the comparison of the elements of the slice and on nothing
    else. *)
Definition sortSlice_local (sortSlice : Sorter) : Prop :=
  forall A (less less' : A -> A -> bool) (l : list A),
    (forall x y, In x l -> In y l -> less x y = less' x y) ->
    sortSlice A less l = sortSlice A less' l.

(** The place of a [float64] in the order of the values: NaN first, then
    minus infinity, the negative numbers, the zeros, the positive numbers
    and plus infinity; among the numbers of a sign, by exponent and then by
    mantissa. *)
Definition floatRank (x : float) : Z * Z * Z :=
  match Prim2SF x with
  | S754_nan => (-3, 0, 0)
  | S754_infinity true => (-2, 0, 0)
  | S754_finite true m e => (-1, - e, - Z.pos m)
  | S754_zero _ => (0, 0, 0)
  | S754_finite false m e => (1, e, Z.pos m)
  | S754_infinity false => (2, 0, 0)
  end.

Definition rankLt (p q : Z * Z * Z) : bool :=
  let '(a, b, c) := p in
  let '(a', b', c') := q in
  (a <? a') || ((a =? a') && ((b <? b') || ((b =? b') && (c <? c')))).

(** [x] goes before [y] in descending order, NaN last: an order of all of
    [float64] that is [x > y] on the values other than NaN. *)
Definition descending (x y : float) : bool := rankLt (floatRank y) (floatRank x).

(** A calendar date that [Format] writes as [YYYY-MM-DD]: a year of four
    digits, a month, and a day of that month. *)
Definition validDate (t : time.Time) : bool :=
  (0 <=? time.year t) && (time.year t <=? 9999)
  && (1 <=? time.month t) && (time.month t <=? 12)
  && (1 <=? time.day t) && (time.day t <=? time.daysIn (time.month t) (time.year t)).

(** Midnight UTC of the civil date of [t]. *)
Definition civilDate (t : time.Time) : time.Time :=
  time.Date (time.year t) (time.month t) (time.day t).

(** [appendInt(b, x, 4)] is four digits that read [x]. *)
Definition fourDigits (x : Z) : bool :=
  match list_ascii_of_string (time.appendInt x 4) with
  | [c0; c1; c2; c3] =>
      forallb time.isDigit [c0; c1; c2; c3] && (time.number [c0; c1; c2; c3] =? x)
  | _ => false
  end.

(** [appendInt(b, x, 2)] is two digits that read [x]. *)
Definition twoDigits (x : Z) : bool :=
  match list_ascii_of_string (time.appendInt x 2) with
  | [c0; c1] =>
      forallb time.isDigit [c0; c1] && (time.digitVal c0 * 10 + time.digitVal c1 =? x)
  | _ => false
  end.

(** The text [y0 y1 y2 y3 - m0 m1]. *)
Definition yearMonth (y0 y1 y2 y3 m0 m1 : ascii) : string :=
  string_of_list_ascii [y0; y1; y2; y3; "-"%char; m0; m1].

(** The fields [time.Parse] has collected can still become a valid date:
    the year has four digits, the month is absent or a month, the day is
    absent or not negative. *)
Definition fieldsInRange (f : time.fields) : Prop :=
  0 <= time.yr f <= 9999
  /\ (time.mon f = -1 \/ 1 <= time.mon f <= 12)
  /\ (time.dy f = -1 \/ 0 <= time.dy f).

(* ===================================================================== *)
(** * Example inputs *)
(* ===================================================================== *)

Section ExampleInputs.
Local Open Scope float_scope.

(** The six records of the end-to-end example. *)
Definition exampleSales : list (Sale float) :=
  [ mkSale (time.Date 2025 7 1) "Acme" "WidgetA" 199 "paid";
    mkSale (time.Date 2025 7 1) "Acme" "WidgetB" 89 "paid";
    mkSale (time.Date 2025 7 2) "Zen" "WidgetA" 199 "unpaid";
    mkSale (time.Date 2025 7 3) "Atlas" "WidgetC" 349 "paid";
    mkSale (time.Date 2025 7 4) "Zen" "WidgetA" 199 "overdue";
    mkSale (time.Date 2025 7 5) "Acme" "WidgetA" 199 "paid" ].

(** The aggregates of the example, tested on one processing order. *)
Definition exampleAggregates (l : list (Sale float)) : bool :=
  let a := fold_left step l acc0 in
  Leibniz.eqb (total a) 1234
  && (orders a =? 6)%nat
  && (size (customers a) =? 3)%nat
  && (overdueCount a =? 2)%nat
  && Leibniz.eqb (overdueTotal a) 398.

(** Three records whose amounts add up differently by day and in a row. *)
Definition roundingSales : list (Sale float) :=
  [ mkSale (time.Date 2025 7 1) "Acme" "WidgetA" 0.1 "paid";
    mkSale (time.Date 2025 7 2) "Zen" "WidgetA" 0.2 "paid";
    mkSale (time.Date 2025 7 2) "Atlas" "WidgetB" 0.3 "paid" ].

(** Thirteen records, one more than [sort.Slice] sorts by insertion: seven
    of July 1 (a to f first, g last), one of July 2 and five of July 3. *)
Definition thirteenSales : list (Sale float) :=
  [ mkSale (time.Date 2025 7 1) "a" "WidgetA" 1 "paid";
    mkSale (time.Date 2025 7 1) "b" "WidgetA" 1 "paid";
    mkSale (time.Date 2025 7 1) "c" "WidgetA" 1 "paid";
    mkSale (time.Date 2025 7 1) "d" "WidgetA" 1 "paid";
    mkSale (time.Date 2025 7 1) "e" "WidgetA" 1 "paid";
    mkSale (time.Date 2025 7 1) "f" "WidgetA" 1 "paid";
    mkSale (time.Date 2025 7 2) "p" "WidgetA" 1 "paid";
    mkSale (time.Date 2025 7 3) "r7" "WidgetA" 1 "paid";
    mkSale (time.Date 2025 7 3) "r8" "WidgetA" 1 "paid";
    mkSale (time.Date 2025 7 3) "r9" "WidgetA" 1 "paid";
    mkSale (time.Date 2025 7 3) "r10" "WidgetA" 1 "paid";
    mkSale (time.Date 2025 7 3) "r11" "WidgetA" 1 "paid";
    mkSale (time.Date 2025 7 1) "g" "WidgetA" 1 "paid" ].

(** The amounts of three records of the example in whole units, for the
    exact arithmetic [exactZ]. *)
Definition exactSales : list (Sale Z) :=
  [ mkSale (time.Date 2025 7 1) "Acme" "WidgetA" 199%Z "paid";
    mkSale (time.Date 2025 7 1) "Acme" "WidgetB" 89%Z "paid";
    mkSale (time.Date 2025 7 2) "Zen" "WidgetA" 199%Z "unpaid" ].

(** Days 1, 2, ... of July 2025 with the given totals. *)
Definition julySeries (totals : list float) : list (KVt float) :=
  imap (fun i v => mkKVt (time.Date 2025 7 (Z.of_nat (S i))) v) totals.

(** A series of 5 days whose last day has z-score exactly 2. *)
Definition shortSeries : list (KVt float) := julySeries [0; 0; 0; 0; 5].

(** A series of 10 days whose last two days have z-score exactly 2, and
    its mirror image, whose last two days have z-score exactly -2. *)
Definition spikeSeries : list (KVt float) := julySeries [0; 0; 0; 0; 0; 0; 0; 0; 5; 5].
Definition dipSeries : list (KVt float) := julySeries [5; 5; 5; 5; 5; 5; 5; 5; 0; 0].

(** [strconv.ParseFloat] on the amounts of the examples, which are decimal
    integers: the nearest binary64 value.  Any other text is outside the
    examples and is given 0. *)
Definition ParseFloatInteger (s : string) : float :=
  let ds := list_ascii_of_string s in
  if forallb time.isDigit ds && negb (String.eqb s "")
  then float64_of_Z (time.number ds) else 0.

(** The example of the specification as CSV records. *)
Definition exampleTable : list (list string) :=
  [ ["date"; "customer"; "product"; "amount"; "status"];
    ["2025-07-01"; "Acme"; "WidgetA"; "199"; "paid"];
    ["2025-07-01"; "Acme"; "WidgetB"; "89"; "paid"];
    ["2025-07-02"; "Zen"; "WidgetA"; "199"; "unpaid"];
    ["2025-07-03"; "Atlas"; "WidgetC"; "349"; "paid"];
    ["2025-07-04"; "Zen"; "WidgetA"; "199"; "overdue"];
    ["2025-07-05"; "Acme"; "WidgetA"; "199"; "paid"] ].

(** A CSV reader that has read the given records. *)
Definition tableReader (records : list (list string))
  : string -> list (list string) * option string :=
  fun _ => (records, None).

(** A table whose header cells need trimming and lower-casing, with a row
    whose date does not parse and a row without a customer. *)
Definition plainTable : list (list string) :=
  [ [" Date"; "Customer "; "Product"; "Amount"; "Status"];
    ["2025-07-01"; "Acme"; "WidgetA"; "199"; "Paid"];
    ["not a date"; "Zen"; "WidgetA"; "199"; "Unpaid"];
    ["02/07/2025"; ""; "WidgetB"; "89"; "OVERDUE"] ].

(** A table with two columns whose names contain "date". *)
Definition twoDatesTable : list (list string) :=
  [ ["order date"; "ship date"; "customer"; "product"; "amount"; "status"];
    ["2025-07-01"; "2025-07-09"; "Acme"; "WidgetA"; "199"; "paid"] ].

End ExampleInputs.

Section MoreExampleInputs.
Local Open Scope float_scope.

(** The revenue of the customers of the example. *)
Definition exampleByCustomer : gmap string float :=
  <["Acme" := 487]> (<["Zen" := 398]> (<["Atlas" := 349]> ∅)).

(** A table whose only data row is dated January 1 of year 1. *)
Definition yearOneTable : list (list string) :=
  [ ["date"; "customer"; "product"; "amount"; "status"];
    ["0001-01-01"; "Acme"; "WidgetA"; "199"; "paid"] ].

(** A table without a date column. *)
Definition noDateTable : list (list string) :=
  [ ["Day"; "Customer"; "Amount"];
    ["2025-07-01"; "Acme"; "199"];
    ["2025-07-02"; "Zen"; "89"] ].

End MoreExampleInputs.

(* ********************************************************************* *)
(** * Properties *)
(* ********************************************************************* *)

(* ===================================================================== *)
(** * The library models on examples *)
(* ===================================================================== *)

Lemma HasPrefix_spec (s prefix : string) :
  strings.HasPrefix s prefix = true <-> exists post, s = prefix +:+ post.
Proof.
  revert s. induction prefix as [|c prefix IH]; intros s; simpl.
  - split; [intros _; now exists s|intros _; destruct s; reflexivity].
  - destruct s as [|d s]; simpl.
    + split; [discriminate|intros [post Hp]; discriminate Hp].
    + rewrite andb_true_iff, IH. split.
      * intros [Hc [post ->]]. apply Ascii.eqb_eq in Hc as ->. now exists post.
      * intros [post Hp]. injection Hp as -> ->.
        split; [apply Ascii.eqb_refl|now exists post].
Qed.

(** [strings.Contains]: the substring occurs between some prefix and some
    suffix. *)
Lemma Contains_spec (s substr : string) :
  strings.Contains s substr = true <-> exists pre post, s = pre +:+ substr +:+ post.
Proof.
  induction s as [|c s IH]; cbn [strings.Contains].
  - rewrite orb_false_r, HasPrefix_spec. split.
    + intros [post Hp]. now exists "", post.
    + intros (pre & post & Hp). destruct pre; [now exists post|discriminate Hp].
  - rewrite orb_true_iff, HasPrefix_spec, IH. split.
    + intros [[post Hp]|(pre & post & ->)].
      * now exists "", post.
      * now exists (String c pre), post.
    + intros (pre & post & Hp). destruct pre as [|c' pre]; simpl in Hp.
      * left. now exists post.
      * right. injection Hp as -> ->. now exists pre, post.
Qed.

Example TrimSpace_examples :
  strings.TrimSpace "  2025-07-01 " = "2025-07-01"
  /\ strings.TrimSpace "" = ""
  /\ strings.TrimSpace "a b" = "a b".
Proof. repeat split. Qed.

Example float64_of_Z_examples :
  float64_of_Z 0 = 0%float /\ float64_of_Z 2 = 2%float
  /\ float64_of_Z (-2) = (-2)%float /\ float64_of_Z 50 = 50%float
  /\ float64_of_Z (2 ^ 53 + 1) = 9007199254740992%float.
Proof. repeat split; vm_compute; reflexivity. Qed.

Example Parse_examples :
  time.Parse time.layout_2006_01_02 "2025-07-01" = Some (time.Date 2025 7 1)
  /\ time.Parse time.layout_2006_01_02 "2025-02-29" = None
  /\ time.Parse time.layout_2006_01_02 "2024-02-29" = Some (time.Date 2024 2 29)
  /\ time.Parse time.layout_2006_01_02 "2025-7-1" = None
  /\ time.Parse time.RFC3339 "2025-07-01T23:30:00-02:00"
     = Some (time.mkTime 2025 7 1 23 30 0 0 (-7200))
  /\ time.Parse time.layout_2006_01 "2025-07" = Some (time.Date 2025 7 1).
Proof. repeat split. Qed.

Example FormatDate_examples :
  time.FormatDate (time.Date 2025 7 1) = "2025-07-01"
  /\ time.FormatDate (time.mkTime 2025 7 1 23 30 0 0 (-7200)) = "2025-07-01"
  /\ time.ISOWeek (time.Date 2025 7 1) = (2025, 27)
  /\ time.ISOWeek (time.Date 2024 12 30) = (2025, 1)
  /\ time.IsZero time.zero = true
  /\ time.IsZero (time.Date 2025 7 1) = false.
Proof. repeat split. Qed.

(* ===================================================================== *)
(** * Two sorts that meet the contract of sort.Slice *)
(* ===================================================================== *)

Section InsertionSort.
Context {A : Type} (less pass : A -> A -> bool).
Hypothesis less_swo : StrictWeakOrder less.
Hypothesis pass_true : forall x y, pass x y = true -> less y x = false.
Hypothesis pass_false : forall x y, pass x y = false -> less x y = false.

Lemma insertBack_perm x racc : Permutation (insertBack pass x racc) (x :: racc).
Proof.
  induction racc as [|y racc IH]; simpl; [reflexivity|].
  destruct (pass x y); [|reflexivity].
  rewrite IH. apply perm_swap.
Qed.

Lemma insertBack_sorted x racc :
  StronglySorted (fun u v => less u v = false) racc ->
  StronglySorted (fun u v => less u v = false) (insertBack pass x racc).
Proof.
  induction racc as [|y racc IH]; intros Hs; simpl.
  - repeat constructor.
  - inversion Hs as [|? ? Hs' Hy]; subst.
    destruct (pass x y) eqn:Hp.
    + constructor; [auto|].
      eapply Permutation_Forall; [symmetry; apply insertBack_perm|].
      constructor; [eauto|assumption].
    + constructor; [assumption|].
      constructor; [eauto|].
      eapply Forall_impl; [exact Hy|].
      intros v Hv. simpl in Hv. eapply swo_negtrans; eauto.
Qed.

Lemma fold_insertBack_perm l racc :
  Permutation (fold_left (fun racc x => insertBack pass x racc) l racc) (rev l ++ racc).
Proof.
  revert racc. induction l as [|x l IH]; intros racc; simpl; [reflexivity|].
  rewrite IH, insertBack_perm, <- app_assoc. simpl.
  apply Permutation_app_head. reflexivity.
Qed.

Lemma fold_insertBack_sorted l racc :
  StronglySorted (fun u v => less u v = false) racc ->
  StronglySorted (fun u v => less u v = false)
    (fold_left (fun racc x => insertBack pass x racc) l racc).
Proof.
  revert racc. induction l as [|x l IH]; intros racc Hs; simpl; [assumption|].
  apply IH, insertBack_sorted, Hs.
Qed.

End InsertionSort.

Lemma StronglySorted_snoc {A : Type} (R : A -> A -> Prop) (l : list A) (x : A) :
  StronglySorted R l -> Forall (fun y => R y x) l -> StronglySorted R (l ++ [x]).
Proof.
  induction 1 as [|y l Hs IH Hy]; intros Hx; simpl.
  - repeat constructor.
  - inversion Hx; subst. constructor; [auto|].
    apply Forall_app; split; [assumption|]. repeat constructor. assumption.
Qed.

Lemma StronglySorted_rev {A : Type} (R : A -> A -> Prop) (l : list A) :
  StronglySorted R l -> StronglySorted (fun x y => R y x) (rev l).
Proof.
  induction 1 as [|x l Hs IH Hx]; simpl; [constructor|].
  apply StronglySorted_snoc; [assumption|].
  apply Forall_rev. assumption.
Qed.

Lemma swo_asym {A : Type} (less : A -> A -> bool) :
  StrictWeakOrder less -> forall x y, less x y = true -> less y x = false.
Proof.
  intros Hswo x y Hxy. destruct (less y x) eqn:Hyx; [|reflexivity].
  rewrite <- (swo_irrefl less Hswo x). symmetry.
  eapply swo_trans; eauto.
Qed.

Lemma insertionSortBy_perm {A : Type} (pass : A -> A -> bool) (l : list A) :
  Permutation (insertionSortBy pass l) l.
Proof.
  unfold insertionSortBy.
  rewrite <- Permutation_rev, fold_insertBack_perm, app_nil_r.
  symmetry. apply Permutation_rev.
Qed.

Lemma insertionSortBy_sorted {A : Type} (less pass : A -> A -> bool) (l : list A) :
  StrictWeakOrder less ->
  (forall x y, pass x y = true -> less y x = false) ->
  (forall x y, pass x y = false -> less x y = false) ->
  SortedBy less (insertionSortBy pass l).
Proof.
  intros Hswo Ht Hf. unfold SortedBy, insertionSortBy.
  apply (StronglySorted_rev (fun u v => less u v = false)).
  eapply fold_insertBack_sorted; eauto. constructor.
Qed.

Lemma insertionSort_contract : sortSlice_contract insertionSort.
Proof.
  split; intros A less l; [apply insertionSortBy_perm|].
  intros Hswo. apply insertionSortBy_sorted; [assumption| |].
  - apply swo_asym, Hswo.
  - auto.
Qed.

Lemma reversingSort_contract : sortSlice_contract reversingSort.
Proof.
  split; intros A less l; [apply insertionSortBy_perm|].
  intros Hswo. apply insertionSortBy_sorted; [assumption| |].
  - intros x y Hp. apply negb_true_iff in Hp. exact Hp.
  - intros x y Hp. apply negb_false_iff in Hp. eapply swo_asym; eauto.
Qed.

Lemma rangeCanonical_contract : range_contract rangeCanonical.
Proof. intros V m. reflexivity. Qed.

(* ===================================================================== *)
(** * Loops as list operations *)
(* ===================================================================== *)

Lemma fold_left_snoc_filter {A B : Type} (p : A -> bool) (f : A -> B)
    (l : list A) (out : list B) :
  fold_left (fun out x => if p x then out ++ [f x] else out) l out
  = out ++ List.map f (List.filter p l).
Proof.
  revert out. induction l as [|x l IH]; intros out; simpl.
  - now rewrite app_nil_r.
  - rewrite IH. destruct (p x); simpl; [now rewrite <- app_assoc|reflexivity].
Qed.

Lemma fold_left_snoc_map {A B : Type} (f : A -> B) (l : list A) (out : list B) :
  fold_left (fun out x => out ++ [f x]) l out = out ++ List.map f l.
Proof.
  revert out. induction l as [|x l IH]; intros out; simpl.
  - now rewrite app_nil_r.
  - rewrite IH. now rewrite <- app_assoc.
Qed.

Lemma in_if_singleton {A : Type} (c : bool) (a m : A) :
  In m (if c then [a] else []) -> c = true /\ m = a.
Proof. destruct c; simpl; intros Hm; [destruct Hm as [<-|[]]; auto|destruct Hm]. Qed.

Lemma fold_left_map_acc {A B C : Type} (op : C -> B -> C) (g : A -> B)
    (l : list A) (c : C) :
  fold_left (fun c x => op c (g x)) l c = fold_left op (List.map g l) c.
Proof. revert c. induction l as [|x l IH]; intros c; simpl; auto. Qed.

(* ===================================================================== *)
(** * The anomaly detector and the forecast *)
(* ===================================================================== *)

Section SeriesSpec.
Context {F : Type} `{Float64 F}.
Local Open Scope f64_scope.

(** The first two loops of [detectAnomalies] compute the mean and the
    standard deviation; the third tests each day's z-score. *)
Lemma detectAnomalies_statistics (d : list (KVt F)) :
  detectAnomalies d =
    if (length d <? 7)%nat then []
    else if stddev d =? f_of_Z 0 then []
    else fold_left
           (fun out x => if flagged d x then out ++ [anomalyOf d x] else out) d [].
Proof.
  unfold detectAnomalies.
  destruct (length d <? 7)%nat; [reflexivity|].
  cbv zeta.
  rewrite (fold_left_map_acc f_add Value).
  change (fold_left f_add (List.map Value d) (f_of_Z 0) / float64_len d) with (mean d).
  rewrite (fold_left_map_acc f_add (fun x => (Value x - mean d) * (Value x - mean d))).
  change (f_sqrt (fold_left f_add
            (List.map (fun x => (Value x - mean d) * (Value x - mean d)) d) (f_of_Z 0)
          / float64_len d)) with (stddev d).
  reflexivity.
Qed.

(** C1.  The anomaly detector returns no anomaly for a series of fewer
    than 7 points, none for a series of 7 or more points whose population
    standard deviation is zero, and otherwise the days whose z-score
    [z = (value - mean) / stddev] has [|z| >= 2.0], each with its value and
    z-score, in the day order of the series: the result is the series
    filtered by [flagged]. *)
Theorem detectAnomalies_spec (d : list (KVt F)) :
  detectAnomalies d =
    if (length d <? 7)%nat then []
    else if stddev d =? f_of_Z 0 then []
    else List.map (anomalyOf d) (List.filter (flagged d) d).
Proof.
  rewrite detectAnomalies_statistics.
  destruct (length d <? 7)%nat; [reflexivity|].
  destruct (stddev d =? f_of_Z 0); [reflexivity|].
  exact (fold_left_snoc_filter (flagged d) (anomalyOf d) d []).
Qed.

Lemma fold_left_window (d : list (KVt F)) (n a : nat) (acc : F) :
  (a + n <= length d)%nat ->
  fold_left (fun sum i => match d !! i with Some x => sum + Value x | None => sum end)
            (seq a n) acc
  = fold_left f_add (List.map Value (take n (drop a d))) acc.
Proof.
  revert a acc. induction n as [|n IH]; intros a acc Hle; simpl; [reflexivity|].
  destruct (d !! a) as [x|] eqn:Hx.
  - rewrite (drop_S d x a Hx). simpl.
    rewrite IH by lia. reflexivity.
  - apply lookup_ge_None in Hx. lia.
Qed.

(** C5.  For a series of N > 0 points the forecast is the sum of the last
    min(7, N) daily totals, divided by min(7, N), times 7; for the empty
    series it is 0. *)
Theorem forecast7_spec (d : list (KVt F)) :
  forecast7 d =
    match d with
    | [] => f_of_Z 0
    | _ :: _ =>
        let w := Nat.min 7 (length d) in
        fsum (List.map Value (drop (length d - w) d)) / f_of_Z (Z.of_nat w) * f_of_Z 7
    end.
Proof.
  destruct d as [|x0 d0]; [reflexivity|].
  set (d := x0 :: d0). unfold forecast7.
  replace (length d =? 0)%nat with false by reflexivity.
  cbv zeta.
  assert (Hw : (if (length d <? 7)%nat then length d else 7%nat) = Nat.min 7 (length d)).
  { destruct (Nat.ltb_spec (length d) 7); lia. }
  rewrite Hw. set (w := Nat.min 7 (length d)).
  rewrite fold_left_window by lia.
  rewrite take_ge by (rewrite length_drop; lia).
  reflexivity.
Qed.

End SeriesSpec.

Section SeriesExamples.
Local Open Scope float_scope.

(** The detector on the ten days of [spikeSeries], whose mean is 1 and
    whose standard deviation is 2, and the forecast of the five daily totals
    of the example. *)
Example detectAnomalies_examples :
  mean spikeSeries = 1 /\ stddev spikeSeries = 2
  /\ detectAnomalies spikeSeries
     = [ mkAnomaly (time.Date 2025 7 9) 5 2; mkAnomaly (time.Date 2025 7 10) 5 2 ]
  /\ detectAnomalies (julySeries [3; 3; 3; 3; 3; 3; 3; 3]) = []
  /\ detectAnomalies (julySeries [0; 0; 0; 0; 0; 100]) = [].
Proof. repeat split; vm_compute; reflexivity. Qed.

Example forecast7_examples :
  forecast7 (julySeries [288; 199; 349; 199; 199]) = 1234 / 5 * 7
  /\ forecast7 (julySeries [1; 10; 10; 10; 10; 10; 10; 10]) = 70
  /\ forecast7 (julySeries []) = 0.
Proof. repeat split; vm_compute; reflexivity. Qed.

End SeriesExamples.

(* ===================================================================== *)
(** * The recommendation engine *)
(* ===================================================================== *)

Section SuggestionsSpec.
Context {F : Type} `{Float64 F}.
Local Open Scope f64_scope.

Lemma fold_left_snoc_concat {A B : Type} (g : A -> list B) (l : list A) (s : list B) :
  fold_left (fun s x => s ++ g x) l s = s ++ concat (List.map g l).
Proof.
  revert s. induction l as [|x l IH]; intros s; simpl.
  - now rewrite app_nil_r.
  - rewrite IH. now rewrite <- app_assoc.
Qed.

Lemma fold_left_ext_fun {A B : Type} (f g : B -> A -> B) (l : list A) (b : B) :
  (forall b x, f b x = g b x) -> fold_left f l b = fold_left g l b.
Proof.
  intros E. revert b. induction l as [|x l IH]; intros b; simpl; [reflexivity|].
  rewrite E. apply IH.
Qed.

(** The rules of [suggestions] fire in their fixed order, each adding its
    message after those of the rules before it. *)
Lemma suggestions_spec (total aov : F) (overdueCount : nat) (overdueTotal : F)
    (topC topP : list (KVf F)) (anoms : list (Anomaly F)) :
  suggestions total aov overdueCount overdueTotal topC topP anoms =
    (if (0 <? overdueCount)%nat then [Dunning overdueCount overdueTotal] else [])
    ++ (if aov <? f_of_Z 50 then [Bundles] else [])
    ++ (if (0 <? length topC)%nat then [Loyalty topC] else [])
    ++ (if (0 <? length topP)%nat then [DoubleDown topP] else [])
    ++ concat (List.map anomalyMessages anoms)
    ++ (if (f_of_Z 0 <? total) && (f_of_Z 0 <? aov)
           && (overdueCount =? 0)%nat && (length anoms =? 0)%nat
        then [Steady] else []).
Proof.
  unfold suggestions. cbv zeta.
  rewrite (fold_left_ext_fun _ (fun s an => s ++ anomalyMessages an)).
  2:{ intros s an. unfold anomalyMessages.
      destruct (Z_ an <? f_of_Z (-2)); [reflexivity|].
      destruct (f_of_Z 2 <? Z_ an); [reflexivity|]. now rewrite app_nil_r. }
  rewrite fold_left_snoc_concat.
  destruct (0 <? overdueCount)%nat, (aov <? f_of_Z 50), (0 <? length topC)%nat,
    (0 <? length topP)%nat,
    ((f_of_Z 0 <? total) && (f_of_Z 0 <? aov)
       && (overdueCount =? 0)%nat && (length anoms =? 0)%nat);
    simpl; rewrite ?app_nil_r; reflexivity.
Qed.

Lemma anomalyMessages_inv (an : Anomaly F) (m : Suggestion F) :
  In m (anomalyMessages an) ->
  (exists day, m = Dip day (Z_ an) /\ (Z_ an <? f_of_Z (-2)) = true) \/
  (exists day, m = Spike day (Z_ an) /\ (f_of_Z 2 <? Z_ an) = true).
Proof.
  unfold anomalyMessages.
  destruct (Z_ an <? f_of_Z (-2)) eqn:E1; [|destruct (f_of_Z 2 <? Z_ an) eqn:E2];
    simpl; intros Hm; [destruct Hm as [<-|[]]; eauto ..|destruct Hm].
Qed.

End SuggestionsSpec.

(** ** The threshold, on binary64 *)

Section Threshold.
Local Open Scope float_scope.

Lemma eqb_zero_is_zero (x : float) :
  (x =? 0) = true -> exists s, Prim2SF x = S754_zero s.
Proof.
  rewrite FloatAxioms.eqb_spec.
  destruct (Prim2SF x) as [s|s| |s m e]; cbv; intros Hc.
  - exists s. reflexivity.
  - destruct s; discriminate.
  - discriminate.
  - destruct s; discriminate.
Qed.

Lemma div_by_zero_not_two (a std : float) :
  (std =? 0) = true -> a / std <> 2 /\ a / std <> -2.
Proof.
  intros Hz. destruct (eqb_zero_is_zero std Hz) as [s Hs].
  assert (Hd : forall s' m e, Prim2SF (a / std) <> S754_finite s' m e).
  { intros s' m e. rewrite div_spec, Hs.
    destruct (Prim2SF a); cbv; discriminate. }
  split; intros E; rewrite E in Hd; vm_compute in Hd; eapply Hd; reflexivity.
Qed.

End Threshold.

Section ThresholdClaim.
Local Open Scope float_scope.

Lemma threshold_in_anomalies (d : list (KVt float)) (x : KVt float) :
  (7 <= length d)%nat -> In x d -> zscore d x = 2 \/ zscore d x = -2 ->
  In (anomalyOf d x) (detectAnomalies d).
Proof.
  intros Hlen Hx Hz. rewrite detectAnomalies_statistics.
  destruct (Nat.ltb_spec (length d) 7) as [|_]; [lia|].
  destruct (f_eqb (stddev d) (f_of_Z 0)) eqn:Hstd.
  - exfalso. destruct (div_by_zero_not_two (Value x - mean d) (stddev d) Hstd).
    unfold zscore in Hz. simpl in Hz. tauto.
  - rewrite (fold_left_snoc_filter (flagged d) (anomalyOf d) d []).
    apply in_map, filter_In. split; [assumption|].
    unfold flagged. destruct Hz as [-> | ->]; reflexivity.
Qed.

(** C10, as amended.  For every daily series of at least 7 points with a
    day whose z-score is exactly 2.0 or exactly -2.0, that day is among the
    anomalies, the recommendations hold no dip and no spike message with
    that z-score, and they do not hold the "steady performance" message,
    whatever the other signals are. *)
Theorem threshold_day_flagged_without_message
    (d : list (KVt float)) (x : KVt float)
    (total aov : float) (overdueCount : nat) (overdueTotal : float)
    (topC topP : list (KVf float)) :
  (7 <= length d)%nat -> In x d -> zscore d x = 2 \/ zscore d x = -2 ->
  let anoms := detectAnomalies d in
  let out := suggestions total aov overdueCount overdueTotal topC topP anoms in
  In (anomalyOf d x) anoms
  /\ (forall day, ~ In (Dip day (zscore d x)) out /\ ~ In (Spike day (zscore d x)) out)
  /\ ~ In Steady out.
Proof.
  intros Hlen Hx Hz anoms out.
  assert (Han : In (anomalyOf d x) anoms) by (apply threshold_in_anomalies; assumption).
  assert (Hout : forall m, In m out ->
            (forall day z, m <> Dip day z) /\ (forall day z, m <> Spike day z)
              /\ (m = Steady -> anoms = [])
            \/ exists an, In m (anomalyMessages an)).
  { intros m. unfold out. rewrite suggestions_spec.
    rewrite !in_app_iff, in_concat.
    intros [Hm|[Hm|[Hm|[Hm|[Hm|Hm]]]]];
      try (apply in_if_singleton in Hm; destruct Hm as [Hc ->]).
    1-4: left; repeat split; discriminate.
    - right. destruct Hm as (ms & Hms & Hm). apply in_map_iff in Hms.
      destruct Hms as (an & <- & _). eauto.
    - left. repeat split; try discriminate. intros _.
      apply andb_true_iff in Hc as [_ Hc].
      apply Nat.eqb_eq, length_zero_iff_nil in Hc. exact Hc. }
  split; [assumption|]. split.
  - intros day; split; intros Hin; destruct (Hout _ Hin) as [(Hd & Hs & _)|[an Hm]];
      try (now eapply Hd); try (now eapply Hs);
      apply anomalyMessages_inv in Hm;
      destruct Hm as [(day' & E & Hc)|(day' & E & Hc)]; try discriminate E;
      assert (E' : zscore d x = Z_ an) by (injection E; auto);
      rewrite <- E' in Hc;
      destruct Hz as [Hz|Hz]; rewrite Hz in Hc; vm_compute in Hc; discriminate Hc.
  - intros Hin. destruct (Hout _ Hin) as [(_ & _ & He)|[an Hm]].
    + rewrite (He eq_refl) in Han. destruct Han.
    + apply anomalyMessages_inv in Hm.
      destruct Hm as [(day' & E & _)|(day' & E & _)]; discriminate E.
Qed.

(** The last day of [spikeSeries] has z-score 2 and the last day of
    [dipSeries] z-score -2: both are anomalies without a message, and the
    report of either series, with revenue and no overdue record, has no
    "steady performance" message. *)
Lemma threshold_day_flagged_without_message_witness :
  let x := mkKVt (time.Date 2025 7 10) 5 in
  let y := mkKVt (time.Date 2025 7 10) 0 in
  let out := suggestions 10 5 0 0 [] [] (detectAnomalies spikeSeries) in
  let out' := suggestions 40 5 0 0 [] [] (detectAnomalies dipSeries) in
  ((7 <= length spikeSeries)%nat /\ In x spikeSeries /\ zscore spikeSeries x = 2
   /\ In (anomalyOf spikeSeries x) (detectAnomalies spikeSeries)
   /\ (forall day, ~ In (Dip day (zscore spikeSeries x)) out
                   /\ ~ In (Spike day (zscore spikeSeries x)) out)
   /\ ~ In Steady out)
  /\ ((7 <= length dipSeries)%nat /\ In y dipSeries /\ zscore dipSeries y = -2
      /\ In (anomalyOf dipSeries y) (detectAnomalies dipSeries)
      /\ (forall day, ~ In (Dip day (zscore dipSeries y)) out'
                      /\ ~ In (Spike day (zscore dipSeries y)) out')
      /\ ~ In Steady out').
Proof.
  intros x y out out'.
  assert (Hlen : (7 <= length spikeSeries)%nat) by (vm_compute; lia).
  assert (Hx : In x spikeSeries) by (vm_compute; tauto).
  assert (Hz : zscore spikeSeries x = 2) by (vm_compute; reflexivity).
  assert (Hlen' : (7 <= length dipSeries)%nat) by (vm_compute; lia).
  assert (Hy : In y dipSeries) by (vm_compute; tauto).
  assert (Hz' : zscore dipSeries y = -2) by (vm_compute; reflexivity).
  split.
  - split; [exact Hlen|]. split; [exact Hx|]. split; [exact Hz|].
    exact (threshold_day_flagged_without_message spikeSeries x 10 5 0 0 [] []
             Hlen Hx (or_introl Hz)).
  - split; [exact Hlen'|]. split; [exact Hy|]. split; [exact Hz'|].
    exact (threshold_day_flagged_without_message dipSeries y 40 5 0 0 [] []
             Hlen' Hy (or_intror Hz')).
Defined.

(** C10, as stated, fails on a short series: the last day of [shortSeries]
    has z-score exactly 2.0, and the detector, which needs 7 points, returns
    no anomaly. *)
Lemma threshold_day_of_short_series_not_flagged :
  let x := mkKVt (time.Date 2025 7 5) 5 in
  In x shortSeries /\ zscore shortSeries x = 2
  /\ ~ In (anomalyOf shortSeries x) (detectAnomalies shortSeries).
Proof.
  intros x. split; [vm_compute; tauto|]. split; [vm_compute; reflexivity|].
  vm_compute. tauto.
Qed.

End ThresholdClaim.

(* ===================================================================== *)
(** * The sort by date *)
(* ===================================================================== *)

Lemma Before_iff (t u : time.Time) :
  time.Before t u = true <->
  time.unixSec t < time.unixSec u
  \/ (time.unixSec t = time.unixSec u /\ time.nsec t < time.nsec u).
Proof.
  unfold time.Before.
  rewrite orb_true_iff, andb_true_iff, !Z.ltb_lt, Z.eqb_eq. reflexivity.
Qed.

Lemma Before_false_iff (t u : time.Time) :
  time.Before t u = false <->
  time.unixSec u < time.unixSec t
  \/ (time.unixSec t = time.unixSec u /\ time.nsec u <= time.nsec t).
Proof.
  rewrite <- not_true_iff_false, Before_iff. lia.
Qed.

Lemma Before_on_swo {A : Type} (date : A -> time.Time) :
  StrictWeakOrder (fun a b => time.Before (date a) (date b)).
Proof.
  split.
  - intros x. apply Before_false_iff. lia.
  - intros x y z. rewrite !Before_iff. lia.
  - intros x y z. rewrite !Before_false_iff. lia.
Qed.

Lemma StronglySorted_lookup {A : Type} (R : A -> A -> Prop) (l : list A)
    (i j : nat) (a b : A) :
  StronglySorted R l -> (i < j)%nat -> l !! i = Some a -> l !! j = Some b -> R a b.
Proof.
  intros Hs. revert i j. induction Hs as [|x l Hs IH Hx]; intros i j Hij Ha Hb.
  - rewrite lookup_nil in Ha. discriminate.
  - destruct j as [|j]; [lia|]. simpl in Hb. destruct i as [|i].
    + simpl in Ha. injection Ha as <-.
      rewrite Forall_forall in Hx. apply Hx. eapply list_elem_of_lookup_2, Hb.
    + simpl in Ha. apply (IH i j); [lia|assumption..].
Qed.

Section SortByDate.
Context {F : Type} `{Float64 F}.
Variable sortSlice : Sorter.
Hypothesis sortSlice_ok : sortSlice_contract sortSlice.

Lemma sortByDate_perm (sales : list (Sale F)) :
  Permutation (sortByDate sortSlice sales) sales.
Proof. apply sortSlice_perm, sortSlice_ok. Qed.

Lemma sortByDate_sorted (sales : list (Sale F)) :
  SortedBy (fun a b => time.Before (Date a) (Date b)) (sortByDate sortSlice sales).
Proof. apply sortSlice_sorted; [exact sortSlice_ok|apply Before_on_swo]. Qed.

Lemma sortByDate_length (sales : list (Sale F)) :
  length (sortByDate sortSlice sales) = length sales.
Proof. apply Permutation_length, sortByDate_perm. Qed.

Lemma sortByDate_nil : sortByDate sortSlice (@nil (Sale F)) = [].
Proof. apply Permutation_nil. symmetry. apply sortByDate_perm. Qed.

End SortByDate.

(* ===================================================================== *)
(** * The aggregates of computeKPIs *)
(* ===================================================================== *)

Section FoldStep.
Context {F : Type} `{Float64 F}.

Lemma fold_step_total (l : list (Sale F)) (a : Acc) :
  total (fold_left step l a) = fold_left f_add (List.map Amount l) (total a).
Proof. revert a. induction l as [|s l IH]; intros a; simpl; [reflexivity|apply IH]. Qed.

Lemma fold_step_orders (l : list (Sale F)) (a : Acc) :
  orders (fold_left step l a) = (orders a + length l)%nat.
Proof.
  revert a. induction l as [|s l IH]; intros a; simpl; [lia|].
  rewrite IH. simpl. lia.
Qed.

Lemma fold_step_overdueCount (l : list (Sale F)) (a : Acc) :
  overdueCount (fold_left step l a)
  = (overdueCount a + length (List.filter isOverdue l))%nat.
Proof.
  revert a. induction l as [|s l IH]; intros a; simpl; [lia|].
  rewrite IH. simpl. destruct (isOverdue s); simpl; lia.
Qed.

Lemma fold_step_overdueTotal (l : list (Sale F)) (a : Acc) :
  overdueTotal (fold_left step l a)
  = fold_left f_add (List.map Amount (List.filter isOverdue l)) (overdueTotal a).
Proof.
  revert a. induction l as [|s l IH]; intros a; simpl; [reflexivity|].
  rewrite IH. simpl. destruct (isOverdue s); reflexivity.
Qed.

Lemma fold_step_dr (l : list (Sale F)) (a : Acc) :
  dr (fold_left step l a)
  = fold_left (fun m s => mapAdd m (time.FormatDate (Date s)) (Amount s)) l (dr a).
Proof. revert a. induction l as [|s l IH]; intros a; simpl; [reflexivity|apply IH]. Qed.

Lemma Permutation_filter_length {A : Type} (p : A -> bool) (l l' : list A) :
  Permutation l l' -> length (List.filter p l) = length (List.filter p l').
Proof.
  induction 1 as [|x l l' _ IH|x y l|l l' l'' _ IH1 _ IH2]; simpl.
  - reflexivity.
  - destruct (p x); simpl; congruence.
  - destruct (p x), (p y); reflexivity.
  - congruence.
Qed.

End FoldStep.

(** [isOverdue] is the substring test of the specification. *)
Lemma isOverdue_iff {F : Type} (s : Sale F) :
  isOverdue s = true <->
  exists sub, In sub ["overdue"; "unpaid"; "due"]
              /\ strings.Contains (Status s) sub = true.
Proof.
  unfold isOverdue. rewrite !orb_true_iff. split.
  - intros [[Hc|Hc]|Hc]; eexists; (split; [|exact Hc]); simpl; auto.
  - intros (sub & [<-|[<-|[<-|[]]]] & Hc); auto.
Qed.

Section KPIsSpec.
Context {F : Type} `{Float64 F}.
Variable sortSlice : Sorter.
Variable rangeDaily rangeCustomers rangeProducts rangeRetention : RangeOrder.
Hypothesis sortSlice_ok : sortSlice_contract sortSlice.

Local Abbreviation kpis :=
  (computeKPIs sortSlice rangeDaily rangeCustomers rangeProducts rangeRetention).

Lemma computeKPIs_nil : kpis [] = KPIs_zero.
Proof. reflexivity. Qed.

Lemma computeKPIs_fold (sales : list (Sale F)) :
  sales <> [] ->
  let sorted := sortByDate sortSlice sales in
  let a := fold_left step sorted acc0 in
  From (kpis sales) = from_option Date time.zero (sorted !! 0%nat)
  /\ To (kpis sales) = from_option Date time.zero (sorted !! (length sorted - 1)%nat)
  /\ TotalRevenue (kpis sales) = total a
  /\ Orders (kpis sales) = orders a
  /\ UniqueCustomers (kpis sales) = size (customers a)
  /\ OverdueCount (kpis sales) = overdueCount a
  /\ OverdueTotal (kpis sales) = overdueTotal a
  /\ DailyRevenue (kpis sales) = dailySeries sortSlice rangeDaily (dr a)
  /\ AvgOrderValue (kpis sales)
     = if (0 <? orders a)%nat then f_div (total a) (f_of_Z (Z.of_nat (orders a)))
       else f_of_Z 0.
Proof.
  intros Hne. destruct sales as [|s sales]; [congruence|].
  repeat split; reflexivity.
Qed.

(** C7, as amended.  The first step of the aggregator sorts the records by
    date ascending: the sorted sequence is a rearrangement of the input in
    which no record is dated before a record that precedes it, and the
    report's period runs from a date that no record precedes to a date that
    no record follows.  Nothing is promised about the relative order of
    records of the same date. *)
Theorem sortByDate_ascending (sales : list (Sale F)) :
  let sorted := sortByDate sortSlice sales in
  Permutation sorted sales
  /\ SortedBy (fun a b => time.Before (Date a) (Date b)) sorted
  /\ forall s, In s sales ->
       time.Before (Date s) (From (kpis sales)) = false
       /\ time.Before (To (kpis sales)) (Date s) = false.
Proof.
  intros sorted.
  assert (Hperm : Permutation sorted sales) by (apply sortByDate_perm, sortSlice_ok).
  assert (Hsort : SortedBy (fun a b => time.Before (Date a) (Date b)) sorted)
    by (apply sortByDate_sorted, sortSlice_ok).
  split; [exact Hperm|]. split; [exact Hsort|].
  intros s Hs.
  assert (Hne : sales <> []) by (intros ->; destruct Hs).
  destruct (computeKPIs_fold sales Hne) as (-> & -> & _).
  fold sorted.
  assert (Hs' : s ∈ sorted).
  { apply list_elem_of_In. eapply Permutation_in; [symmetry; exact Hperm|exact Hs]. }
  apply list_elem_of_lookup in Hs' as [i Hi].
  assert (Hlen : (i < length sorted)%nat) by (eapply lookup_lt_Some; eauto).
  destruct (lookup_lt_is_Some_2 sorted 0) as [first Hfirst]; [lia|].
  destruct (lookup_lt_is_Some_2 sorted (length sorted - 1)%nat) as [lst Hlst]; [lia|].
  rewrite Hfirst, Hlst. simpl. split.
  - destruct i as [|i].
    + rewrite Hi in Hfirst. injection Hfirst as <-.
      apply (swo_irrefl _ (Before_on_swo (fun t => t))).
    + apply (StronglySorted_lookup _ sorted 0 (S i) first s Hsort); [lia|assumption..].
  - destruct (Nat.eq_dec i (length sorted - 1)%nat) as [->|Hi'].
    + rewrite Hi in Hlst. injection Hlst as <-.
      apply (swo_irrefl _ (Before_on_swo (fun t => t))).
    + apply (StronglySorted_lookup _ sorted i (length sorted - 1)%nat s lst Hsort);
        [lia|assumption..].
Qed.

(** C4.  A record is counted as overdue exactly when its status, which
    [parseCSV] stores in lower case, contains "overdue", "unpaid" or "due"
    ([isOverdue]): the overdue count is the number of such records, the
    overdue total is the sum of their amounts, added in the order the sorted
    records are processed, and total revenue is the sum of the amounts of all
    records, overdue ones included. *)
Theorem overdue_counted_separately (sales : list (Sale F)) :
  let processed := sortByDate sortSlice sales in
  (forall s : Sale F,
     isOverdue s = true <->
     exists sub, In sub ["overdue"; "unpaid"; "due"]
                 /\ strings.Contains (Status s) sub = true)
  /\ OverdueCount (kpis sales) = length (List.filter isOverdue sales)
  /\ OverdueTotal (kpis sales) = fsum (List.map Amount (List.filter isOverdue processed))
  /\ TotalRevenue (kpis sales) = fsum (List.map Amount processed).
Proof.
  intros processed. split; [exact isOverdue_iff|].
  destruct (decide (sales = [])) as [->|Hne].
  - unfold processed. rewrite (sortByDate_nil sortSlice sortSlice_ok).
    repeat split; reflexivity.
  - destruct (computeKPIs_fold sales Hne) as (_ & _ & -> & _ & _ & -> & -> & _).
    rewrite fold_step_overdueCount, fold_step_overdueTotal, fold_step_total.
    split; [|split; reflexivity]. simpl.
    apply Permutation_filter_length, sortByDate_perm, sortSlice_ok.
Qed.

End KPIsSpec.

(* ===================================================================== *)
(** * Daily totals and total revenue *)
(* ===================================================================== *)

Section ExactArithmetic.
Context {F : Type} `{Float64 F}.
Hypothesis add_comm : forall x y : F, f_add x y = f_add y x.
Hypothesis add_assoc : forall x y z : F, f_add (f_add x y) z = f_add x (f_add y z).
Hypothesis add_0_l : forall x : F, f_add (f_of_Z 0) x = x.

Lemma fold_left_add_acc (l : list F) (a b : F) :
  fold_left f_add l (f_add a b) = f_add a (fold_left f_add l b).
Proof.
  revert b. induction l as [|x l IH]; intros b; simpl; [reflexivity|].
  rewrite add_assoc. apply IH.
Qed.

Lemma fsum_cons (x : F) (l : list F) : fsum (x :: l) = f_add x (fsum l).
Proof.
  unfold fsum. simpl. rewrite (add_comm (f_of_Z 0) x). apply fold_left_add_acc.
Qed.

Lemma fsum_acc (l : list F) (a : F) : fold_left f_add l a = f_add a (fsum l).
Proof.
  unfold fsum. rewrite <- fold_left_add_acc, (add_comm a), add_0_l. reflexivity.
Qed.

Lemma fsum_perm (l l' : list F) : Permutation l l' -> fsum l = fsum l'.
Proof.
  induction 1 as [|x l l' _ IH|x y l|l l' l'' _ IH1 _ IH2].
  - reflexivity.
  - rewrite !fsum_cons, IH. reflexivity.
  - rewrite !fsum_cons, <- !add_assoc, (add_comm y x). reflexivity.
  - congruence.
Qed.

Lemma mapSum_mapAdd (m : gmap string F) (k : string) (v : F) :
  mapSum (mapAdd m k v) = f_add (mapSum m) v.
Proof.
  unfold mapSum, mapAdd. destruct (m !! k) as [w|] eqn:Hk; simpl.
  - rewrite <- insert_delete_eq.
    rewrite (fsum_perm _ _ (Permutation_map snd
               (map_to_list_insert (delete k m) k (f_add w v) (lookup_delete_eq m k)))).
    rewrite <- (fsum_perm _ _ (Permutation_map snd (map_to_list_delete m k w Hk))).
    simpl. rewrite !fsum_cons, add_assoc, (add_comm v), <- add_assoc. reflexivity.
  - rewrite (fsum_perm _ _ (Permutation_map snd (map_to_list_insert m k _ Hk))).
    simpl. rewrite fsum_cons, add_0_l. apply add_comm.
Qed.

Lemma mapSum_fold (l : list (Sale F)) (m : gmap string F) :
  mapSum (fold_left (fun m s => mapAdd m (time.FormatDate (Date s)) (Amount s)) l m)
  = f_add (mapSum m) (fsum (List.map Amount l)).
Proof.
  revert m. induction l as [|s l IH]; intros m; simpl.
  - rewrite add_comm. symmetry. exact (add_0_l _).
  - rewrite IH, mapSum_mapAdd, fsum_cons, add_assoc. reflexivity.
Qed.

Variable sortSlice : Sorter.
Variable rangeDaily rangeCustomers rangeProducts rangeRetention : RangeOrder.
Hypothesis sortSlice_ok : sortSlice_contract sortSlice.
Hypothesis rangeDaily_ok : range_contract rangeDaily.

Lemma dailySeries_sum (m : gmap string F) :
  fsum (List.map Value (dailySeries sortSlice rangeDaily m)) = mapSum m.
Proof.
  unfold dailySeries, mapSum.
  rewrite (fsum_perm _ _ (Permutation_map Value (sortSlice_perm _ sortSlice_ok _ _ _))).
  rewrite (fold_left_ext_fun _
             (fun daily kv => daily ++
                [mkKVt (default time.zero (time.Parse time.layout_2006_01_02 kv.1)) kv.2]))
    by (intros b [k v]; reflexivity).
  rewrite fold_left_snoc_map. simpl. rewrite List.map_map. simpl.
  apply fsum_perm, Permutation_map, rangeDaily_ok.
Qed.

(** C8, as amended.  In exact arithmetic, where the addition of amounts is
    associative and commutative and 0 is neutral, the totals of the points
    of the daily revenue series sum to the report's total revenue, for every
    record list.  On binary64 the two sums are the same additions grouped
    differently and agree up to rounding only. *)
Theorem daily_totals_sum_to_total_revenue (sales : list (Sale F)) :
  let k := computeKPIs sortSlice rangeDaily rangeCustomers rangeProducts
             rangeRetention sales in
  fsum (List.map Value (DailyRevenue k)) = TotalRevenue k.
Proof.
  intros k. unfold k. destruct (decide (sales = [])) as [->|Hne]; [reflexivity|].
  destruct (computeKPIs_fold sortSlice rangeDaily rangeCustomers rangeProducts
              rangeRetention sales Hne) as (_ & _ & -> & _ & _ & _ & _ & -> & _).
  rewrite dailySeries_sum, fold_step_dr, fold_step_total, mapSum_fold.
  change (dr acc0) with (∅ : gmap string F).
  change (total acc0) with (f_of_Z 0).
  unfold mapSum. rewrite map_to_list_empty. simpl.
  change (fsum []) with (f_of_Z 0). rewrite fsum_acc. reflexivity.
Qed.

End ExactArithmetic.

(* ===================================================================== *)
(** * The example of the specification *)
(* ===================================================================== *)

Section Example.
Local Open Scope float_scope.

Lemma exampleAggregates_any_order :
  forallb exampleAggregates (permutations exampleSales) = true.
Proof. vm_compute. reflexivity. Qed.

(** C2.  On the six-record example the pipeline reports total revenue
    1234.0, 6 orders, 3 unique customers, 2 overdue records with overdue
    total 398.0, and an average order value of 1234/6, which is 205.67 to
    two decimals. *)
Theorem example_report (sortSlice : Sorter)
    (rangeDaily rangeCustomers rangeProducts rangeRetention : RangeOrder) :
  sortSlice_contract sortSlice ->
  let k := computeKPIs sortSlice rangeDaily rangeCustomers rangeProducts
             rangeRetention exampleSales in
  TotalRevenue k = 1234
  /\ Orders k = 6%nat
  /\ UniqueCustomers k = 3%nat
  /\ OverdueCount k = 2%nat
  /\ OverdueTotal k = 398
  /\ AvgOrderValue k = 1234 / 6
  /\ (abs (AvgOrderValue k - 205.67) <? 0.005) = true.
Proof.
  intros Hsort k.
  assert (Hne : exampleSales <> []) by discriminate.
  destruct (computeKPIs_fold sortSlice rangeDaily rangeCustomers rangeProducts
              rangeRetention exampleSales Hne)
    as (_ & _ & Ht & Ho & Hu & Hoc & Hot & _ & Ha).
  fold k in Ht, Ho, Hu, Hoc, Hot, Ha.
  set (sorted := sortByDate sortSlice exampleSales) in *.
  assert (Hin : In sorted (permutations exampleSales)).
  { apply list_elem_of_In, permutations_Permutation. symmetry.
    apply sortByDate_perm, Hsort. }
  pose proof (proj1 (forallb_forall _ _) exampleAggregates_any_order _ Hin) as Hc.
  unfold exampleAggregates in Hc. cbv zeta in Hc.
  rewrite !andb_true_iff, !Nat.eqb_eq, !FloatAxioms.Leibniz.eqb_spec in Hc.
  destruct Hc as ((((Ht' & Ho') & Hu') & Hoc') & Hot').
  rewrite Ht' in *. rewrite Ho' in *. rewrite Hu' in *.
  rewrite Hoc' in *. rewrite Hot' in *.
  assert (Ha' : AvgOrderValue k = 1234 / 6) by (rewrite Ha; reflexivity).
  repeat split; try assumption.
  rewrite Ha'. reflexivity.
Qed.

(** The report of the example when the sort is the insertion sort that
    [sort.Slice] runs on a slice of six elements. *)
Lemma example_report_witness :
  sortSlice_contract insertionSort
  /\ let k := computeKPIs insertionSort rangeCanonical rangeCanonical rangeCanonical
                rangeCanonical exampleSales in
     TotalRevenue k = 1234
     /\ Orders k = 6%nat
     /\ UniqueCustomers k = 3%nat
     /\ OverdueCount k = 2%nat
     /\ OverdueTotal k = 398
     /\ AvgOrderValue k = 1234 / 6
     /\ (abs (AvgOrderValue k - 205.67) <? 0.005) = true.
Proof.
  split; [exact insertionSort_contract|].
  exact (example_report insertionSort rangeCanonical rangeCanonical rangeCanonical rangeCanonical
           insertionSort_contract).
Defined.

(** C7 on the example: the sorted records and the period. *)
Lemma sortByDate_ascending_witness :
  sortSlice_contract insertionSort
  /\ let kpis := computeKPIs insertionSort rangeCanonical rangeCanonical rangeCanonical
                   rangeCanonical in
     let sorted := sortByDate insertionSort exampleSales in
     Permutation sorted exampleSales
     /\ SortedBy (fun a b => time.Before (Date a) (Date b)) sorted
     /\ forall s, In s exampleSales ->
          time.Before (Date s) (From (kpis exampleSales)) = false
          /\ time.Before (To (kpis exampleSales)) (Date s) = false.
Proof.
  split; [exact insertionSort_contract|].
  exact (sortByDate_ascending insertionSort rangeCanonical rangeCanonical rangeCanonical
           rangeCanonical insertionSort_contract exampleSales).
Defined.

(** C7, as stated, fails.  [sort.Slice] of Go 1.19 and later sorts the
    thirteen records of [thirteenSales] by one partition around the record
    of July 2 and two insertion sorts: record g, the last of the seven
    records of July 1 in the input, comes out first, record a, the first in
    the input, comes out last of the seven, and r7 comes out after r8 to
    r11.  Nor does the contract of [sort.Slice] keep the order:
    [reversingSort] meets it and exchanges two records of the same date. *)
Lemma same_date_records_may_be_reordered :
  List.map Customer thirteenSales
  = ["a"; "b"; "c"; "d"; "e"; "f"; "p"; "r7"; "r8"; "r9"; "r10"; "r11"; "g"]
  /\ List.map (fun s => time.day (Date s)) thirteenSales
     = [1; 1; 1; 1; 1; 1; 2; 3; 3; 3; 3; 3; 1]%Z
  /\ option_map (List.map Customer)
       (sort.Slice (fun a b => time.Before (Date a) (Date b)) thirteenSales)
     = Some ["g"; "b"; "c"; "d"; "e"; "f"; "a"; "p"; "r8"; "r9"; "r10"; "r11"; "r7"]
  /\ List.map Customer (sortByDate goSortSlice thirteenSales)
     = ["g"; "b"; "c"; "d"; "e"; "f"; "a"; "p"; "r8"; "r9"; "r10"; "r11"; "r7"]
  /\ (let a := mkSale (time.Date 2025 7 1) "Acme" "WidgetA" 199 "paid" in
      let b := mkSale (time.Date 2025 7 1) "Acme" "WidgetB" 89 "paid" in
      sortSlice_contract reversingSort
      /\ Date a = Date b
      /\ sortByDate reversingSort [a; b] = [b; a]).
Proof.
  split; [reflexivity|]. split; [reflexivity|].
  split; [vm_compute; reflexivity|]. split; [vm_compute; reflexivity|].
  split; [exact reversingSort_contract|]. split; reflexivity.
Qed.

(** On the six records of the example [sort.Slice] is an insertion sort and
    leaves them in their order. *)
Example goSortSlice_example :
  sortByDate goSortSlice exampleSales = exampleSales
  /\ sortByDate insertionSort exampleSales = exampleSales.
Proof. split; vm_compute; reflexivity. Qed.

(** C4 on the example. *)
Lemma overdue_counted_separately_witness :
  sortSlice_contract insertionSort
  /\ let kpis := computeKPIs insertionSort rangeCanonical rangeCanonical rangeCanonical
                   rangeCanonical in
     let processed := sortByDate insertionSort exampleSales in
     (forall s : Sale float,
        isOverdue s = true <->
        exists sub, In sub ["overdue"; "unpaid"; "due"]
                    /\ strings.Contains (Status s) sub = true)
     /\ OverdueCount (kpis exampleSales) = length (List.filter isOverdue exampleSales)
     /\ OverdueTotal (kpis exampleSales)
        = fsum (List.map Amount (List.filter isOverdue processed))
     /\ TotalRevenue (kpis exampleSales) = fsum (List.map Amount processed).
Proof.
  split; [exact insertionSort_contract|].
  exact (overdue_counted_separately insertionSort rangeCanonical rangeCanonical
           rangeCanonical rangeCanonical insertionSort_contract exampleSales).
Defined.

(** C8, as stated, fails on binary64: for [roundingSales] total revenue is
    (0.1 + 0.2) + 0.3 = 0.6000000000000001, and the daily totals 0.1 and
    0.2 + 0.3 = 0.5 sum to 0.6. *)
Lemma daily_totals_differ_from_total_revenue :
  let k := computeKPIs insertionSort rangeCanonical rangeCanonical rangeCanonical rangeCanonical
             roundingSales in
  List.map Value (DailyRevenue k) = [0.1; 0.5]
  /\ fsum (List.map Value (DailyRevenue k)) = 0.6
  /\ TotalRevenue k = 0.6000000000000001
  /\ fsum (List.map Value (DailyRevenue k)) <> TotalRevenue k.
Proof.
  intros k. repeat split; try (vm_compute; reflexivity).
  vm_compute. intros E. discriminate E.
Qed.

End Example.

(** C8 in exact arithmetic, on the amounts of the example in whole
    units. *)
Lemma daily_totals_sum_to_total_revenue_witness :
  let k := computeKPIs (H := exactZ) insertionSort rangeCanonical rangeCanonical
             rangeCanonical rangeCanonical exactSales in
  (forall x y : Z, x + y = y + x)
  /\ (forall x y z : Z, x + y + z = x + (y + z))
  /\ (forall x : Z, 0 + x = x)
  /\ sortSlice_contract insertionSort
  /\ range_contract rangeCanonical
  /\ fsum (H := exactZ) (List.map Value (DailyRevenue k)) = TotalRevenue k.
Proof.
  intros k.
  split; [exact Z.add_comm|]. split; [intros; lia|]. split; [exact Z.add_0_l|].
  split; [exact insertionSort_contract|]. split; [exact rangeCanonical_contract|].
  exact (daily_totals_sum_to_total_revenue (H := exactZ)
           Z.add_comm (fun x y z => eq_sym (Z.add_assoc x y z)) Z.add_0_l
           insertionSort rangeCanonical rangeCanonical rangeCanonical rangeCanonical
           insertionSort_contract rangeCanonical_contract exactSales).
Defined.

(* ===================================================================== *)
(** * Ingestion *)
(* ===================================================================== *)

Lemma fold_left_snoc_omap {A B : Type} (f : A -> option B) (l : list A) (out : list B) :
  fold_left (fun out x => match f x with Some y => out ++ [y] | None => out end) l out
  = out ++ omap f l.
Proof.
  revert out. induction l as [|x l IH]; intros out; simpl.
  - now rewrite app_nil_r.
  - rewrite IH. destruct (f x); simpl; [now rewrite <- app_assoc|reflexivity].
Qed.

Lemma parseDateFlexible_layouts (s : string) :
  parseDateFlexible s
  = default time.zero (firstParse dateLayouts (strings.TrimSpace s)).
Proof.
  unfold parseDateFlexible, dateLayouts, candidates. simpl.
  repeat match goal with
         | |- context [time.Parse ?l ?v] => destruct (time.Parse l v); [reflexivity|]
         end.
  reflexivity.
Qed.

(** The first layout that parses wins. *)
Lemma firstParse_first (layouts : list (list time.chunk)) (s : string)
    (i : nat) (f : list time.chunk) (t : time.Time) :
  layouts !! i = Some f ->
  time.Parse f s = Some t ->
  (forall j g, (j < i)%nat -> layouts !! j = Some g -> time.Parse g s = None) ->
  firstParse layouts s = Some t.
Proof.
  revert i. induction layouts as [|g layouts IH]; intros i Hi Hp Hbefore.
  - rewrite lookup_nil in Hi. discriminate.
  - destruct i as [|i]; simpl in *.
    + injection Hi as E. subst g. rewrite Hp. reflexivity.
    + rewrite (Hbefore 0%nat g) by (lia || reflexivity).
      apply (IH i); [assumption..|].
      intros j g' Hj Hg'. apply (Hbefore (S j) g'); [lia|exact Hg'].
Qed.

Lemma firstParse_none (layouts : list (list time.chunk)) (s : string) :
  (forall f, In f layouts -> time.Parse f s = None) -> firstParse layouts s = None.
Proof.
  induction layouts as [|g layouts IH]; intros Hall; simpl; [reflexivity|].
  rewrite (Hall g) by (left; reflexivity). apply IH. intros f Hf. apply Hall. now right.
Qed.

Lemma firstParse_head (layouts : list (list time.chunk)) (s : string) :
  firstParse layouts s = head (omap (fun f => time.Parse f s) layouts).
Proof.
  induction layouts as [|f layouts IH]; [reflexivity|]. csimpl.
  destruct (time.Parse f s); [reflexivity|exact IH].
Qed.

Lemma parseDateFlexible_readDate (s : string) :
  parseDateFlexible s = default time.zero (readDate s).
Proof. rewrite parseDateFlexible_layouts, firstParse_head. reflexivity. Qed.

Lemma readDate_None (s : string) :
  readDate s = None
  <-> forall f, In f dateLayouts -> time.Parse f (strings.TrimSpace s) = None.
Proof.
  unfold readDate. generalize dateLayouts. intros layouts.
  induction layouts as [|g layouts IH]; csimpl.
  - split; [intros _ f []|reflexivity].
  - destruct (time.Parse g (strings.TrimSpace s)) eqn:Hg; csimpl.
    + split; [discriminate|]. intros Hall.
      rewrite (Hall g) in Hg by (now left). discriminate.
    + rewrite IH. split.
      * intros Hall f [<-|Hf]; [exact Hg|now apply Hall].
      * intros Hall f Hf. apply Hall. now right.
Qed.

Lemma nz_decide (a : string) :
  nz a "Unknown" = if decide (strings.TrimSpace a = "") then "Unknown" else a.
Proof.
  unfold nz. destruct (String.eqb_spec (strings.TrimSpace a) "");
    destruct (decide (strings.TrimSpace a = "")); congruence.
Qed.

Section IngestSpec.
Context {F : Type} `{Float64 F}.
Variable ReadAll : string -> list (list string) * option string.
Variable ToLower : string -> string.
Variable ParseFloat : string -> F.

(** The body of the loop over the data rows keeps the rows that have a
    date and builds their records. *)
Lemma parseRow_recordOfRow (rangeHeader : nat -> string -> RangeOrder)
    (h : gmap string nat) (i : nat) (row : list string) :
  parseRow ToLower ParseFloat rangeHeader h i row
  = option_map (recordOfRow ToLower ParseFloat rangeHeader h i row)
               (rowDate rangeHeader h i row).
Proof.
  unfold parseRow, rowDate, recordOfRow.
  destruct (String.eqb_spec (get rangeHeader h i row "date") "") as [E|E];
    destruct (decide (get rangeHeader h i row "date" = "")); try congruence;
    [reflexivity|].
  rewrite parseDateFlexible_readDate.
  destruct (readDate (get rangeHeader h i row "date")) as [t|]; simpl.
  - destruct (time.IsZero t); [reflexivity|]. simpl. rewrite !nz_decide. reflexivity.
  - reflexivity.
Qed.

Lemma rowDate_Some (rangeHeader : nat -> string -> RangeOrder)
    (h : gmap string nat) (i : nat) (row : list string) (t : time.Time) :
  rowDate rangeHeader h i row = Some t
  <-> get rangeHeader h i row "date" <> ""
      /\ readDate (get rangeHeader h i row "date") = Some t
      /\ time.IsZero t = false.
Proof.
  unfold rowDate.
  destruct (decide (get rangeHeader h i row "date" = "")) as [E|E].
  - split; [discriminate|tauto].
  - destruct (readDate (get rangeHeader h i row "date")) as [t'|].
    + destruct (time.IsZero t') eqn:Hz.
      * split; [discriminate|]. intros (_ & Ht & Hz'). congruence.
      * split; [intros Ht; injection Ht as <-; auto|].
        intros (_ & Ht & _). exact Ht.
    + split; [discriminate|]. intros (_ & Ht & _). discriminate.
Qed.

Lemma rowDate_None (rangeHeader : nat -> string -> RangeOrder)
    (h : gmap string nat) (i : nat) (row : list string) :
  rowDate rangeHeader h i row = None
  <-> get rangeHeader h i row "date" = ""
      \/ readDate (get rangeHeader h i row "date") = None
      \/ exists t, readDate (get rangeHeader h i row "date") = Some t
                   /\ time.IsZero t = true.
Proof.
  unfold rowDate.
  destruct (decide (get rangeHeader h i row "date" = "")) as [E|E]; [tauto|].
  destruct (readDate (get rangeHeader h i row "date")) as [t'|].
  - destruct (time.IsZero t') eqn:Hz.
    + split; [eauto|reflexivity].
    + split; [discriminate|].
      intros [Hc|[Hc|(t & Ht & Hz')]]; [contradiction|discriminate|].
      injection Ht as <-. congruence.
  - split; [auto|reflexivity].
Qed.

(** C3, as amended.  [parseCSV] returns an error exactly when the CSV
    reader fails on the input or the input has fewer than two rows; with an
    error it returns no records; without one it returns the complete
    sequence of records: in row order, one record ([recordOfRow]) for each
    data row whose date cell is present and reads, by the first layout that
    parses it, as a time other than the zero time.  A row is dropped exactly
    when its date cell is empty, no layout parses it, or it reads as the
    zero time, January 1 of year 1, 00:00:00 UTC. *)
Theorem parseCSV_all_or_error (rangeHeader : nat -> string -> RangeOrder) (r : string) :
  let result := parseCSV ReadAll ToLower ParseFloat rangeHeader r in
  let records := (ReadAll r).1 in
  let h := headerMap ToLower (default [] (records !! 0%nat)) in
  (result.2 <> None <-> (ReadAll r).2 <> None \/ (length records < 2)%nat)
  /\ (result.2 <> None -> result.1 = [])
  /\ (result.2 = None ->
      result.1
      = omap (fun '(i, row) =>
                option_map (recordOfRow ToLower ParseFloat rangeHeader h i row)
                           (rowDate rangeHeader h i row))
             (imap pair (drop 1 records)))
  /\ (forall i row t,
        rowDate rangeHeader h i row = Some t
        <-> get rangeHeader h i row "date" <> ""
            /\ readDate (get rangeHeader h i row "date") = Some t
            /\ time.IsZero t = false)
  /\ (forall i row,
        rowDate rangeHeader h i row = None
        <-> get rangeHeader h i row "date" = ""
            \/ readDate (get rangeHeader h i row "date") = None
            \/ exists t, readDate (get rangeHeader h i row "date") = Some t
                         /\ time.IsZero t = true)
  /\ (forall s,
        readDate s = None
        <-> forall f, In f dateLayouts -> time.Parse f (strings.TrimSpace s) = None).
Proof.
  intros result records h.
  assert (Htail :
    (forall i row t,
        rowDate rangeHeader h i row = Some t
        <-> get rangeHeader h i row "date" <> ""
            /\ readDate (get rangeHeader h i row "date") = Some t
            /\ time.IsZero t = false)
    /\ (forall i row,
        rowDate rangeHeader h i row = None
        <-> get rangeHeader h i row "date" = ""
            \/ readDate (get rangeHeader h i row "date") = None
            \/ exists t, readDate (get rangeHeader h i row "date") = Some t
                         /\ time.IsZero t = true)
    /\ (forall s,
        readDate s = None
        <-> forall f, In f dateLayouts -> time.Parse f (strings.TrimSpace s) = None)).
  { split; [intros; apply rowDate_Some|].
    split; [intros; apply rowDate_None|exact readDate_None]. }
  revert Htail. unfold result, records, h, parseCSV.
  destruct (ReadAll r) as [recs [e|]]; simpl; intros Htail.
  - split; [split; [intros _; left; discriminate|discriminate]|].
    split; [reflexivity|]. split; [discriminate|exact Htail].
  - destruct (Nat.ltb_spec (length recs) 2) as [Hlt|Hge]; simpl.
    + split; [split; [intros _; right; exact Hlt|discriminate]|].
      split; [reflexivity|]. split; [discriminate|exact Htail].
    + split; [split; [congruence|intros [Hc|Hc]; [congruence|lia]]|].
      split; [congruence|]. split; [|exact Htail].
      intros _.
      rewrite (fold_left_ext_fun _
        (fun out x => match (fun '(i, row) =>
                         option_map
                           (recordOfRow ToLower ParseFloat rangeHeader
                              (headerMap ToLower (default [] (recs !! 0%nat))) i row)
                           (rowDate rangeHeader
                              (headerMap ToLower (default [] (recs !! 0%nat))) i row)) x
                      with Some y => out ++ [y] | None => out end))
        by (intros b [i row]; rewrite parseRow_recordOfRow; reflexivity).
      exact (fold_left_snoc_omap
               (fun '(i, row) =>
                  option_map
                    (recordOfRow ToLower ParseFloat rangeHeader
                       (headerMap ToLower (default [] (recs !! 0%nat))) i row)
                    (rowDate rangeHeader
                       (headerMap ToLower (default [] (recs !! 0%nat))) i row))
               (imap pair (drop 1 recs)) []).
Qed.

(** The records of [parseCSV] carry the status in lower case. *)
Lemma parseRow_status (rangeHeader : nat -> string -> RangeOrder)
    (h : gmap string nat) (i : nat) (row : list string) (s : Sale F) :
  parseRow ToLower ParseFloat rangeHeader h i row = Some s ->
  Status s = ToLower (get rangeHeader h i row "status").
Proof.
  unfold parseRow. destruct (String.eqb _ ""); [discriminate|].
  destruct (time.IsZero _); [discriminate|].
  intros E. injection E as <-. reflexivity.
Qed.

End IngestSpec.

Section IngestExamples.
Local Open Scope float_scope.

(** Ingestion of the example of the specification, and of the table
    [plainTable], whose second data row has no date that parses. *)
Example parseCSV_examples :
  parseCSV (tableReader exampleTable) strings.ToLowerASCII ParseFloatInteger
    (fun _ _ => rangeCanonical) "" = (exampleSales, None)
  /\ parseCSV (tableReader plainTable) strings.ToLowerASCII ParseFloatInteger
       (fun _ _ => rangeCanonical) ""
     = ([ mkSale (time.Date 2025 7 1) "Acme" "WidgetA" 199 "paid";
          mkSale (time.Date 2025 7 2) "Unknown" "WidgetB" 89 "overdue" ], None)
  /\ parseCSV (F := float) (tableReader [["date"; "amount"]]) strings.ToLowerASCII
       ParseFloatInteger (fun _ _ => rangeCanonical) ""
     = ([], Some csv_has_no_data_rows)
  /\ parseCSV (F := float) (fun _ => ([], Some "record on line 2: wrong number of fields"))
       strings.ToLowerASCII ParseFloatInteger (fun _ _ => rangeCanonical) ""
     = ([], Some (csv_read "record on line 2: wrong number of fields")).
Proof. repeat split; vm_compute; reflexivity. Qed.

End IngestExamples.

Section ZeroDate.
Local Open Scope float_scope.

(** C3, as stated, fails: a row whose date is present and parses is dropped
    all the same when the date is the zero time.  The only data row of
    [yearOneTable] is dated "0001-01-01", which the ISO layout parses as
    January 1 of year 1, 00:00:00 UTC; that is the value [IsZero] tests for,
    and [parseCSV] returns no record and no error. *)
Lemma zero_date_row_is_dropped :
  let h := headerMap strings.ToLowerASCII
             (default [] ((tableReader yearOneTable "").1 !! 0%nat)) in
  let row := ["0001-01-01"; "Acme"; "WidgetA"; "199"; "paid"] in
  (tableReader yearOneTable "").1 !! 1%nat = Some row
  /\ get (fun _ _ => rangeCanonical) h 0 row "date" = "0001-01-01"
  /\ time.Parse time.layout_2006_01_02 (strings.TrimSpace "0001-01-01")
     = Some (time.Date 1 1 1)
  /\ readDate "0001-01-01" = Some (time.Date 1 1 1)
  /\ time.IsZero (time.Date 1 1 1) = true
  /\ parseCSV (tableReader yearOneTable) strings.ToLowerASCII ParseFloatInteger
       (fun _ _ => rangeCanonical) "" = ([], None).
Proof. repeat split; vm_compute; reflexivity. Qed.

End ZeroDate.

(* ===================================================================== *)
(** * The order of the header map *)
(* ===================================================================== *)

Section GetLoop.
Variable row : list string.
Variable key : string.

Lemma atMostOneMatch_tail e l : atMostOneMatch key (e :: l) -> atMostOneMatch key l.
Proof. intros Hu e1 e2 H1 H2. apply Hu; now right. Qed.

Lemma atMostOneMatch_perm l l' :
  Permutation l l' -> atMostOneMatch key l -> atMostOneMatch key l'.
Proof.
  intros Hp Hu e1 e2 H1 H2.
  apply Hu; eapply Permutation_in; try (symmetry; exact Hp); assumption.
Qed.

Lemma getLoop_perm (l l' : list (string * nat)) :
  Permutation l l' -> atMostOneMatch key l -> getLoop l row key = getLoop l' row key.
Proof.
  induction 1 as [|[k idx] l l' Hp IH|[k1 i1] [k2 i2] l|l l' l'' Hp1 IH1 Hp2 IH2];
    intros Hu.
  - reflexivity.
  - simpl. rewrite (IH (atMostOneMatch_tail _ _ Hu)). reflexivity.
  - simpl. destruct (strings.Contains k1 key) eqn:E1;
      destruct (strings.Contains k2 key) eqn:E2; try reflexivity.
    assert (E : (k1, i1) = (k2, i2)).
    { apply Hu; simpl; auto. }
    injection E as -> ->. reflexivity.
  - rewrite (IH1 Hu). apply IH2. eapply atMostOneMatch_perm; eauto.
Qed.

End GetLoop.

Lemma uniqueColumn_entries (h : gmap string nat) (key : string) :
  uniqueColumn h key -> atMostOneMatch key (map_to_list h).
Proof.
  intros Hu [k1 i1] [k2 i2] H1 H2 Hc1 Hc2. simpl in *.
  apply list_elem_of_In, elem_of_map_to_list in H1.
  apply list_elem_of_In, elem_of_map_to_list in H2.
  assert (k1 = k2) by (apply Hu; eauto). subst k2.
  congruence.
Qed.

Section Deterministic.
Context {F : Type} `{Float64 F}.
Variable ReadAll : string -> list (list string) * option string.
Variable ToLower : string -> string.
Variable ParseFloat : string -> F.
Variable range1 range2 : nat -> string -> RangeOrder.
Hypothesis range1_ok : forall i key, range_contract (range1 i key).
Hypothesis range2_ok : forall i key, range_contract (range2 i key).

Lemma get_deterministic (h : gmap string nat) (i : nat) (row : list string)
    (key : string) :
  uniqueColumn h key -> get range1 h i row key = get range2 h i row key.
Proof.
  intros Hu. unfold get. apply getLoop_perm.
  - rewrite (range1_ok i key), (range2_ok i key). reflexivity.
  - eapply atMostOneMatch_perm; [symmetry; apply range1_ok|].
    apply uniqueColumn_entries, Hu.
Qed.

(** C9.  When, for each of the fields date, customer, product, amount and
    status, at most one column name of the header map (the trimmed,
    lower-cased header cells) contains the field's token, [parseCSV] returns
    the same result whatever the orders in which the lookups range over the
    header map. *)
Theorem parseCSV_deterministic (r : string) :
  let h := headerMap ToLower (default [] ((ReadAll r).1 !! 0%nat)) in
  (forall key, In key fieldTokens -> uniqueColumn h key) ->
  parseCSV ReadAll ToLower ParseFloat range1 r
  = parseCSV ReadAll ToLower ParseFloat range2 r.
Proof.
  intros h Hu. unfold parseCSV. subst h.
  destruct (ReadAll r) as [recs [e|]]; simpl in *; [reflexivity|].
  destruct (length recs <? 2)%nat; [reflexivity|].
  f_equal. apply fold_left_ext_fun. intros out [i row].
  assert (Hg : forall key, In key fieldTokens ->
            get range1 (headerMap ToLower (default [] (recs !! 0%nat))) i row key
            = get range2 (headerMap ToLower (default [] (recs !! 0%nat))) i row key).
  { intros key Hk. apply get_deterministic, Hu, Hk. }
  unfold parseRow.
  rewrite !(Hg "date"), !(Hg "amount"), !(Hg "customer"), !(Hg "product"),
    !(Hg "status") by (simpl; tauto).
  reflexivity.
Qed.

End Deterministic.

(** A header whose five columns each match one field, read in two
    different orders. *)
Section DeterministicExample.
Local Open Scope float_scope.

Lemma rangeReversed_contract : range_contract rangeReversed.
Proof. intros V m. unfold rangeReversed. symmetry. apply Permutation_rev. Qed.

Lemma plainTable_header :
  map_to_list (headerMap strings.ToLowerASCII
                 (default [] ((tableReader plainTable "").1 !! 0%nat)))
  = [("status", 4); ("customer", 1); ("amount", 3); ("date", 0); ("product", 2)]%nat.
Proof. vm_compute. reflexivity. Qed.

Lemma plainTable_unique (key : string) :
  In key fieldTokens ->
  uniqueColumn
    (headerMap strings.ToLowerASCII
       (default [] ((tableReader plainTable "").1 !! 0%nat))) key.
Proof.
  intros Hk k1 k2 [i1 H1] [i2 H2] Hc1 Hc2.
  apply elem_of_map_to_list, list_elem_of_In in H1.
  apply elem_of_map_to_list, list_elem_of_In in H2.
  rewrite plainTable_header in H1, H2. simpl in H1, H2, Hk.
  repeat match goal with
         | Hd : _ \/ _ |- _ => destruct Hd as [Hd|Hd]
         | Hd : False |- _ => destruct Hd
         | Hd : (_, _) = (_, _) |- _ => injection Hd as <- <-
         | Hd : _ = key |- _ => subst key
         end;
    first [reflexivity | discriminate Hc1 | discriminate Hc2].
Qed.

Lemma parseCSV_deterministic_witness :
  let h := headerMap strings.ToLowerASCII
             (default [] ((tableReader plainTable "").1 !! 0%nat)) in
  (forall (i : nat) (key : string), range_contract rangeCanonical)
  /\ (forall (i : nat) (key : string), range_contract rangeReversed)
  /\ (forall key, In key fieldTokens -> uniqueColumn h key)
  /\ parseCSV (tableReader plainTable) strings.ToLowerASCII ParseFloatInteger
       (fun _ _ => rangeCanonical) ""
     = parseCSV (tableReader plainTable) strings.ToLowerASCII ParseFloatInteger
         (fun _ _ => rangeReversed) "".
Proof.
  intros h.
  split; [intros _ _; exact rangeCanonical_contract|].
  split; [intros _ _; exact rangeReversed_contract|].
  split; [exact plainTable_unique|].
  exact (parseCSV_deterministic (tableReader plainTable) strings.ToLowerASCII
           ParseFloatInteger (fun _ _ => rangeCanonical) (fun _ _ => rangeReversed)
           (fun _ _ => rangeCanonical_contract) (fun _ _ => rangeReversed_contract)
           "" plainTable_unique).
Defined.

(** With two columns whose names contain "date" the order matters: the two
    orders read the date from different columns. *)
Example parseCSV_two_date_columns :
  List.map Date
    (parseCSV (tableReader twoDatesTable) strings.ToLowerASCII ParseFloatInteger
       (fun _ _ => rangeCanonical) "").1 = [time.Date 2025 7 1]
  /\ List.map Date
       (parseCSV (tableReader twoDatesTable) strings.ToLowerASCII ParseFloatInteger
          (fun _ _ => rangeReversed) "").1 = [time.Date 2025 7 9].
Proof. split; vm_compute; reflexivity. Qed.

End DeterministicExample.

(* ===================================================================== *)
(** * The order of the date layouts *)
(* ===================================================================== *)

Lemma isDigit_range (c : ascii) :
  time.isDigit c = true -> (48 <= nat_of_ascii c <= 57)%nat.
Proof.
  unfold time.isDigit. rewrite andb_true_iff, !Nat.leb_le. tauto.
Qed.

Lemma digitVal_range (c : ascii) : time.isDigit c = true -> 0 <= time.digitVal c <= 9.
Proof. intros Hc. apply isDigit_range in Hc. unfold time.digitVal. lia. Qed.

(** The comparisons of a digit's code with the codes of white space. *)
Ltac digit_code n :=
  repeat match goal with
         | |- context [(n =? ?b)%nat] => rewrite (proj2 (Nat.eqb_neq n b)) by lia
         | |- context [(?a <=? n)%nat] => rewrite (proj2 (Nat.leb_gt a n)) by lia
         | |- context [(n <=? ?b)%nat] => rewrite (proj2 (Nat.leb_gt n b)) by lia
         end;
  rewrite ?andb_false_r, ?orb_false_r; simpl; rewrite ?andb_false_r; reflexivity.

Lemma digit_not_space1 (n : nat) : (48 <= n <= 57)%nat -> strings.isSpace1 n = false.
Proof. intros Hn. unfold strings.isSpace1. digit_code n. Qed.

Lemma digit_not_space2_l (n m : nat) : (48 <= n <= 57)%nat -> strings.isSpace2 n m = false.
Proof. intros Hn. unfold strings.isSpace2. digit_code n. Qed.

Lemma digit_not_space2_r (n m : nat) : (48 <= m <= 57)%nat -> strings.isSpace2 n m = false.
Proof. intros Hn. unfold strings.isSpace2. digit_code m. Qed.

Lemma digit_not_space3_l (n m k : nat) :
  (48 <= n <= 57)%nat -> strings.isSpace3 n m k = false.
Proof. intros Hn. unfold strings.isSpace3. digit_code n. Qed.

Lemma digit_not_space3_r (n m k : nat) :
  (48 <= k <= 57)%nat -> strings.isSpace3 n m k = false.
Proof. intros Hn. unfold strings.isSpace3. digit_code k. Qed.

Lemma leadingSpace_digit (c : ascii) (rest : list ascii) :
  time.isDigit c = true -> strings.leadingSpace (c :: rest) = 0%nat.
Proof.
  intros Hc. apply isDigit_range in Hc. unfold strings.leadingSpace.
  destruct rest as [|c2 [|c3 rest]]; simpl;
    rewrite ?(digit_not_space1 _ Hc), ?(digit_not_space2_l _ _ Hc),
      ?(digit_not_space3_l _ _ _ Hc); reflexivity.
Qed.

Lemma trailingSpace_digit (c : ascii) (rest : list ascii) :
  time.isDigit c = true -> strings.trailingSpace (c :: rest) = 0%nat.
Proof.
  intros Hc. apply isDigit_range in Hc. unfold strings.trailingSpace.
  destruct rest as [|c2 [|c3 rest]]; simpl;
    rewrite ?(digit_not_space1 _ Hc), ?(digit_not_space2_r _ _ Hc),
      ?(digit_not_space3_r _ _ _ Hc); reflexivity.
Qed.

Lemma trimWith_none (width : list ascii -> nat) (fuel : nat) (bs : list ascii) :
  width bs = 0%nat -> strings.trimWith width fuel bs = bs.
Proof. intros Hw. destruct fuel; simpl; [reflexivity|]. now rewrite Hw. Qed.

(** A text that begins and ends with a digit has no white space to trim. *)
Lemma TrimSpace_digits (c c' : ascii) (rest rest' : list ascii) :
  time.isDigit c = true -> time.isDigit c' = true ->
  rev (c :: rest) = c' :: rest' ->
  strings.TrimSpace (string_of_list_ascii (c :: rest)) = string_of_list_ascii (c :: rest).
Proof.
  intros Hc Hc' Hrev. unfold strings.TrimSpace.
  rewrite list_ascii_of_string_of_list_ascii.
  rewrite (trimWith_none _ _ _ (leadingSpace_digit c rest Hc)).
  rewrite Hrev, (trimWith_none _ _ _ (trailingSpace_digit c' rest' Hc')).
  rewrite <- Hrev, rev_involutive. reflexivity.
Qed.

Section SlashDate.
(** The text [c1 c2 / c3 c4 / c5 c6 c7 c8], all eight digits. *)
Variables c1 c2 c3 c4 c5 c6 c7 c8 : ascii.
Hypothesis digits :
  forallb time.isDigit [c1; c2; c3; c4; c5; c6; c7; c8] = true.

Local Abbreviation slashDate := (slashDate c1 c2 c3 c4 c5 c6 c7 c8).
Local Abbreviation first := (time.digitVal c1 * 10 + time.digitVal c2).
Local Abbreviation second := (time.digitVal c3 * 10 + time.digitVal c4).
Local Abbreviation yyyy := (time.number [c5; c6; c7; c8]).

Lemma slashDate_digits :
  time.isDigit c1 = true /\ time.isDigit c2 = true /\ time.isDigit c3 = true
  /\ time.isDigit c4 = true /\ time.isDigit c5 = true /\ time.isDigit c6 = true
  /\ time.isDigit c7 = true /\ time.isDigit c8 = true.
Proof.
  pose proof digits as Hd. simpl in Hd. rewrite !andb_true_iff in Hd. tauto.
Qed.

Lemma slashDate_trimmed : strings.TrimSpace slashDate = slashDate.
Proof.
  destruct slashDate_digits as (H1 & _ & _ & _ & _ & _ & _ & H8).
  unfold slashDate. eapply TrimSpace_digits; [exact H1|exact H8|reflexivity].
Qed.

Lemma slashDate_not_iso : time.Parse time.layout_2006_01_02 slashDate = None.
Proof.
  destruct slashDate_digits as (H1 & H2 & _).
  unfold time.Parse, slashDate. rewrite list_ascii_of_string_of_list_ascii.
  cbn [time.layout_2006_01_02 time.parseChunks time.parseChunk].
  rewrite H1, H2. reflexivity.
Qed.

Lemma slashDate_day_month :
  1 <= second <= 12 -> 1 <= first <= time.daysIn second yyyy ->
  time.Parse time.layout_02_01_2006_slash slashDate
  = Some (time.Date yyyy second first).
Proof.
  intros Hm Hday.
  destruct slashDate_digits as (H1 & H2 & H3 & H4 & H5 & H6 & H7 & H8).
  unfold time.Parse, slashDate. rewrite list_ascii_of_string_of_list_ascii.
  cbn [time.layout_02_01_2006_slash time.parseChunks time.parseChunk time.getnum].
  rewrite H1, H2. cbn [Ascii.eqb Bool.eqb time.parseChunks time.parseChunk time.getnum].
  rewrite H3, H4.
  destruct (Z.leb_spec second 0) as [|_]; [lia|].
  destruct (Z.ltb_spec 12 second) as [|_]; [lia|].
  cbn [orb Ascii.eqb Bool.eqb time.parseChunks time.parseChunk].
  rewrite H5, H6, H7, H8.
  cbn [andb time.parseChunks time.mon time.dy time.yr time.hr time.mi time.sc
       time.ns time.tz time.fields0].
  destruct (Z.ltb_spec second 0) as [|_]; [lia|].
  destruct (Z.ltb_spec first 0) as [|_]; [lia|].
  destruct (Z.ltb_spec first 1) as [|_]; [lia|].
  destruct (Z.ltb_spec (time.daysIn second yyyy) first) as [|_]; [lia|].
  reflexivity.
Qed.

Lemma slashDate_day_month_wins :
  1 <= second <= 12 -> 1 <= first <= time.daysIn second yyyy ->
  parseDateFlexible slashDate = time.Date yyyy second first.
Proof.
  intros Hm Hday. rewrite parseDateFlexible_layouts, slashDate_trimmed.
  rewrite (firstParse_first dateLayouts slashDate 1 time.layout_02_01_2006_slash
             (time.Date yyyy second first)); [reflexivity|reflexivity| |].
  - apply slashDate_day_month; assumption.
  - intros j g Hj Hg. destruct j as [|j]; [|lia].
    injection Hg as <-. apply slashDate_not_iso.
Qed.

End SlashDate.

(** C6, as amended.  Date parsing trims the text and tries, in order, the
    seven layouts of [dateLayouts]: ISO date, day/month/year with slashes,
    month/day/year with slashes, year/month/day with slashes, year.month.day
    with dots, the RFC 3339 timestamp, and year-month; the first layout that
    parses gives the date, and the zero time results when none parses.  In
    particular a text DD/MM/YYYY of digits in which MM is a month and DD a
    day of that month is read day first. *)
Theorem parseDateFlexible_order :
  (forall s,
     parseDateFlexible s
     = default time.zero (firstParse dateLayouts (strings.TrimSpace s)))
  /\ (forall s i f t,
        dateLayouts !! i = Some f ->
        time.Parse f (strings.TrimSpace s) = Some t ->
        (forall j g, (j < i)%nat -> dateLayouts !! j = Some g ->
                     time.Parse g (strings.TrimSpace s) = None) ->
        parseDateFlexible s = t)
  /\ (forall c1 c2 c3 c4 c5 c6 c7 c8,
        forallb time.isDigit [c1; c2; c3; c4; c5; c6; c7; c8] = true ->
        let dd := time.digitVal c1 * 10 + time.digitVal c2 in
        let mm := time.digitVal c3 * 10 + time.digitVal c4 in
        let yyyy := time.number [c5; c6; c7; c8] in
        1 <= mm <= 12 -> 1 <= dd <= time.daysIn mm yyyy ->
        parseDateFlexible (slashDate c1 c2 c3 c4 c5 c6 c7 c8) = time.Date yyyy mm dd).
Proof.
  split; [exact parseDateFlexible_layouts|]. split.
  - intros s i f t Hi Hp Hbefore.
    rewrite parseDateFlexible_layouts, (firstParse_first _ _ i f t Hi Hp Hbefore).
    reflexivity.
  - intros c1 c2 c3 c4 c5 c6 c7 c8 Hd dd mm yyyy Hm Hday.
    apply slashDate_day_month_wins; assumption.
Qed.

(** The text "01/02/2006" is read as February 1, 2006, although the
    month/day layout parses it as well, as January 2. *)
Lemma parseDateFlexible_order_witness :
  forallb time.isDigit ["0"; "1"; "0"; "2"; "2"; "0"; "0"; "6"]%char = true
  /\ parseDateFlexible "01/02/2006" = time.Date 2006 2 1
  /\ time.Parse time.layout_01_02_2006_slash "01/02/2006" = Some (time.Date 2006 1 2).
Proof.
  split; [reflexivity|]. split; [|reflexivity].
  exact (proj2 (proj2 parseDateFlexible_order) "0" "1" "0" "2" "2" "0" "0" "6"
           eq_refl ltac:(vm_compute; split; discriminate)
           ltac:(vm_compute; split; discriminate))%char.
Defined.

(** C6, as stated, leaves out a layout of the source: "2025/07/01" parses,
    by the year/month/day layout with slashes, and no layout of the claimed
    list parses it. *)
Lemma year_first_slash_date_parses :
  parseDateFlexible "2025/07/01" = time.Date 2025 7 1
  /\ time.IsZero (parseDateFlexible "2025/07/01") = false
  /\ firstParse claimedLayouts (strings.TrimSpace "2025/07/01") = None.
Proof. repeat split; vm_compute; reflexivity. Qed.

(* ===================================================================== *)
(** * Maps filled by a loop over the records *)
(* ===================================================================== *)

Section KeyedFold.
Context {A V : Type}.
Variable key : A -> string.
Variable upd : option V -> A -> V.

Lemma fold_keyed_lookup (l : list A) (m : gmap string V) (k : string) :
  fold_left (fun m s => <[key s := upd (m !! key s) s]> m) l m !! k
  = fold_left (fun o s => Some (upd o s)) (filedUnder key k l) (m !! k).
Proof.
  revert m. induction l as [|s l IH]; intros m; simpl; [reflexivity|].
  rewrite IH. unfold filedUnder. simpl.
  destruct (String.eqb_spec (key s) k) as [->|Hne]; simpl.
  - rewrite lookup_insert_eq. reflexivity.
  - rewrite lookup_insert_ne by exact Hne. reflexivity.
Qed.

Lemma filedUnder_nil_iff (k : string) (l : list A) :
  filedUnder key k l = [] <-> k ∉ List.map key l.
Proof.
  unfold filedUnder. induction l as [|s l IH]; simpl.
  - split; [intros _; apply not_elem_of_nil|reflexivity].
  - rewrite not_elem_of_cons.
    destruct (String.eqb_spec (key s) k) as [->|Hne].
    + split; [discriminate|intros [Hc _]; congruence].
    + rewrite IH. split; [intros Hk; split; [congruence|exact Hk]|tauto].
Qed.

Lemma fold_Some_is_Some (xs : list A) (o : option V) :
  xs <> [] -> is_Some (fold_left (fun o s => Some (upd o s)) xs o).
Proof.
  destruct xs as [|x xs]; [congruence|]. intros _.
  induction xs as [|y xs IH] using rev_ind; simpl; [eauto|].
  rewrite fold_left_app. simpl. eauto.
Qed.

(** The entries of a map built by a keyed loop from the empty map: one for
    each key that occurs, with the value the loop computes from the elements
    filed under the key. *)
Lemma fold_keyed_entries (l : list A) :
  let m : gmap string V :=
    fold_left (fun m s => <[key s := upd (m !! key s) s]> m) l ∅ in
  forall k v,
    m !! k = Some v <->
    k ∈ keysOf key l
    /\ fold_left (fun o s => Some (upd o s)) (filedUnder key k l) None = Some v.
Proof.
  intros m k v. unfold m. rewrite fold_keyed_lookup, lookup_empty.
  unfold keysOf. rewrite elem_of_remove_dups. split.
  - intros Hv. split; [|exact Hv].
    destruct (decide (k ∈ List.map key l)) as [Hin|Hnin]; [exact Hin|].
    apply filedUnder_nil_iff in Hnin. rewrite Hnin in Hv. discriminate.
  - tauto.
Qed.

Lemma fold_keyed_size (l : list A) :
  size (fold_left (fun m s => <[key s := upd (m !! key s) s]> m) l (∅ : gmap string V))
  = length (keysOf key l).
Proof.
  set (m := fold_left _ l ∅).
  rewrite <- length_map_to_list.
  rewrite <- (length_fmap fst).
  apply Permutation_length, NoDup_Permutation.
  - apply NoDup_fst_map_to_list.
  - apply NoDup_remove_dups.
  - intros k. rewrite list_elem_of_fmap. split.
    + intros ([k' v] & -> & Hkv). apply elem_of_map_to_list in Hkv.
      apply (fold_keyed_entries l) in Hkv. tauto.
    + intros Hk.
      assert (Hne : filedUnder key k l <> []).
      { rewrite filedUnder_nil_iff. unfold keysOf in Hk.
        rewrite elem_of_remove_dups in Hk. tauto. }
      destruct (fold_Some_is_Some (filedUnder key k l) None Hne) as [v Hv].
      exists (k, v). split; [reflexivity|].
      apply elem_of_map_to_list, (fold_keyed_entries l). tauto.
Qed.

End KeyedFold.

Lemma keysOf_perm_length {A : Type} (key : A -> string) (l l' : list A) :
  Permutation l l' -> length (keysOf key l) = length (keysOf key l').
Proof.
  intros Hp. apply Permutation_length, NoDup_Permutation;
    [apply NoDup_remove_dups..|].
  intros k. unfold keysOf. rewrite !elem_of_remove_dups.
  rewrite (Permutation_map key Hp). reflexivity.
Qed.

Lemma keysOf_length_le {A : Type} (key : A -> string) (l : list A) :
  (length (keysOf key l) <= length l)%nat.
Proof.
  unfold keysOf. rewrite <- (length_map key l).
  generalize (List.map key l). intros ks.
  induction ks as [|k ks IH]; simpl; [lia|].
  destruct (decide_rel elem_of k ks); simpl; lia.
Qed.

Lemma StronglySorted_app_inv {A : Type} (R : A -> A -> Prop) (l1 l2 : list A) :
  StronglySorted R (l1 ++ l2) -> forall x y, In x l1 -> In y l2 -> R x y.
Proof.
  induction l1 as [|a l1 IH]; simpl; intros Hs x y Hx Hy; [destruct Hx|].
  apply StronglySorted_inv in Hs as [Hs Ha].
  destruct Hx as [<-|Hx].
  - rewrite List.Forall_forall in Ha. apply Ha, in_or_app. now right.
  - now apply IH.
Qed.


Section FoldStepMaps.
Context {F : Type} `{Float64 F}.

Lemma fold_step_byCustomer (l : list (Sale F)) (a : Acc) :
  byCustomer (fold_left step l a)
  = fold_left (fun m s => mapAdd m (Customer s) (Amount s)) l (byCustomer a).
Proof. revert a. induction l as [|s l IH]; intros a; simpl; [reflexivity|apply IH]. Qed.

Lemma fold_step_byProduct (l : list (Sale F)) (a : Acc) :
  byProduct (fold_left step l a)
  = fold_left (fun m s => mapAdd m (Product s) (Amount s)) l (byProduct a).
Proof. revert a. induction l as [|s l IH]; intros a; simpl; [reflexivity|apply IH]. Qed.

Lemma fold_step_customers (l : list (Sale F)) (a : Acc) :
  customers (fold_left step l a)
  = fold_left (fun m s => <[Customer s := true]> m) l (customers a).
Proof. revert a. induction l as [|s l IH]; intros a; simpl; [reflexivity|apply IH]. Qed.

(** [m[k] += v] over the records filed under a key adds their amounts up
    from 0, the value a missing key reads as. *)
Lemma fold_add_Some (xs : list (Sale F)) (o : option F) :
  xs <> [] ->
  fold_left (fun o s => Some (f_add (default (f_of_Z 0) o) (Amount s))) xs o
  = Some (fold_left f_add (List.map Amount xs) (default (f_of_Z 0) o)).
Proof.
  destruct xs as [|x xs]; [congruence|]. intros _. simpl.
  generalize (f_add (default (f_of_Z 0) o) (Amount x)). clear x o.
  induction xs as [|y xs IH]; intros v; simpl; [reflexivity|apply IH].
Qed.

(** The entries of a map of totals, [byCustomer], [byProduct] or [dr]: one
    for each key that occurs, with the total of the key. *)
Lemma totals_entries (key : Sale F -> string) (l : list (Sale F)) :
  Permutation
    (map_to_list (fold_left (fun m s => mapAdd m (key s) (Amount s)) l ∅))
    (List.map (fun k => (k, keyTotal key k l)) (keysOf key l)).
Proof.
  apply NoDup_Permutation.
  - apply NoDup_map_to_list.
  - apply (NoDup_fmap_2_strong (fun k => (k, keyTotal key k l))).
    + intros x y _ _ E. now injection E.
    + apply NoDup_remove_dups.
  - intros [k v]. rewrite elem_of_map_to_list.
    unfold mapAdd.
    rewrite (fold_keyed_entries key
               (fun o s => f_add (default (f_of_Z 0) o) (Amount s)) l k v).
    change (List.map ?f ?l) with (f <$> l). rewrite list_elem_of_fmap. split.
    + intros [Hk Hv]. exists k. split; [|exact Hk].
      rewrite fold_add_Some in Hv.
      * injection Hv as <-. reflexivity.
      * rewrite filedUnder_nil_iff. unfold keysOf in Hk.
        rewrite elem_of_remove_dups in Hk. tauto.
    + intros (k' & E & Hk). injection E as -> ->. split; [exact Hk|].
      rewrite fold_add_Some; [reflexivity|].
      rewrite filedUnder_nil_iff. unfold keysOf in Hk.
      rewrite elem_of_remove_dups in Hk. tauto.
Qed.

End FoldStepMaps.

(* ===================================================================== *)
(** * The counts, the period and the daily series of the report *)
(* ===================================================================== *)

Section Counts.
Context {F : Type} `{Float64 F}.
Variable sortSlice : Sorter.
Variable rangeDaily rangeCustomers rangeProducts rangeRetention : RangeOrder.
Hypothesis sortSlice_ok : sortSlice_contract sortSlice.

Local Abbreviation kpis :=
  (computeKPIs sortSlice rangeDaily rangeCustomers rangeProducts rangeRetention).

(** X1.  The report counts every input record as an order, whatever its
    fields; the number of unique customers is the number of distinct
    customer names, compared byte by byte; neither it nor the overdue count
    exceeds the number of orders; and for a non-empty input the average
    order value is total revenue divided by the number of records: the
    guard [orders > 0] of the source never fails. *)
Theorem computeKPIs_counts (sales : list (Sale F)) :
  let k := kpis sales in
  Orders k = length sales
  /\ UniqueCustomers k = length (keysOf Customer sales)
  /\ (UniqueCustomers k <= Orders k)%nat
  /\ (OverdueCount k <= Orders k)%nat
  /\ AvgOrderValue k
     = match sales with
       | [] => f_of_Z 0
       | _ :: _ => f_div (TotalRevenue k) (f_of_Z (Z.of_nat (length sales)))
       end.
Proof.
  intros k. unfold k. destruct (decide (sales = [])) as [->|Hne].
  - repeat split; simpl; lia.
  - destruct (computeKPIs_fold sortSlice rangeDaily rangeCustomers rangeProducts
                rangeRetention sales Hne)
      as (_ & _ & -> & -> & -> & -> & _ & _ & ->).
    rewrite fold_step_orders, fold_step_customers, fold_step_overdueCount.
    simpl. rewrite (sortByDate_length sortSlice sortSlice_ok).
    assert (Hu : size (fold_left (fun m s => <[Customer s := true]> m)
                         (sortByDate sortSlice sales) (∅ : gmap string bool))
                 = length (keysOf Customer sales)).
    { rewrite (fold_keyed_size Customer (fun _ _ => true)).
      apply keysOf_perm_length, sortByDate_perm, sortSlice_ok. }
    change (customers acc0) with (∅ : gmap string bool). rewrite Hu.
    split; [reflexivity|]. split; [reflexivity|].
    split; [apply keysOf_length_le|].
    split.
    { rewrite <- (sortByDate_length sortSlice sortSlice_ok sales).
      apply filter_length_le. }
    destruct sales as [|s sales']; [congruence|].
    destruct (Nat.ltb_spec 0 (length (s :: sales'))) as [_|Hc]; [reflexivity|].
    simpl in Hc. lia.
Qed.

(** X2.  For a non-empty input the period of the report starts and ends at
    dates of input records, and does not end before it starts. *)
Theorem period_endpoints (sales : list (Sale F)) :
  sales <> [] ->
  let k := kpis sales in
  (exists s, In s sales /\ From k = Date s)
  /\ (exists s, In s sales /\ To k = Date s)
  /\ time.Before (To k) (From k) = false.
Proof.
  intros Hne k. unfold k.
  destruct (computeKPIs_fold sortSlice rangeDaily rangeCustomers rangeProducts
              rangeRetention sales Hne) as (-> & -> & _).
  set (sorted := sortByDate sortSlice sales).
  assert (Hperm : Permutation sorted sales) by (apply sortByDate_perm, sortSlice_ok).
  assert (Hsort : SortedBy (fun a b => time.Before (Date a) (Date b)) sorted)
    by (apply sortByDate_sorted, sortSlice_ok).
  assert (Hlen : (0 < length sorted)%nat).
  { rewrite (Permutation_length Hperm). destruct sales; [congruence|simpl; lia]. }
  destruct (lookup_lt_is_Some_2 sorted 0) as [first Hfirst]; [lia|].
  destruct (lookup_lt_is_Some_2 sorted (length sorted - 1)%nat) as [lst Hlst]; [lia|].
  rewrite Hfirst, Hlst. simpl.
  split; [|split].
  - exists first. split; [|reflexivity].
    eapply Permutation_in; [exact Hperm|].
    apply list_elem_of_In. eapply list_elem_of_lookup_2, Hfirst.
  - exists lst. split; [|reflexivity].
    eapply Permutation_in; [exact Hperm|].
    apply list_elem_of_In. eapply list_elem_of_lookup_2, Hlst.
  - destruct (Nat.eq_dec (length sorted - 1)%nat 0%nat) as [E|E].
    + rewrite E in Hlst. rewrite Hfirst in Hlst. injection Hlst as <-.
      apply (swo_irrefl _ (Before_on_swo (fun t => t))).
    + apply (StronglySorted_lookup _ sorted 0 (length sorted - 1)%nat first lst Hsort);
        [lia|assumption..].
Qed.

Hypothesis rangeDaily_ok : range_contract rangeDaily.

Lemma dailySeries_perm (l : list (Sale F)) :
  Permutation
    (dailySeries sortSlice rangeDaily
       (fold_left (fun m s => mapAdd m (dateKey s) (Amount s)) l ∅))
    (List.map (dayPoint l) (keysOf dateKey l)).
Proof.
  unfold dailySeries.
  rewrite (sortSlice_perm _ sortSlice_ok).
  rewrite (fold_left_ext_fun _
             (fun daily kv => daily ++
                [mkKVt (default time.zero (time.Parse time.layout_2006_01_02 kv.1)) kv.2]))
    by (intros b [k v]; reflexivity).
  rewrite fold_left_snoc_map. simpl.
  rewrite (Permutation_map _ (rangeDaily_ok _ _)).
  rewrite (Permutation_map _ (totals_entries dateKey l)).
  rewrite List.map_map. reflexivity.
Qed.

Lemma DailyRevenue_perm (sales : list (Sale F)) :
  let processed := sortByDate sortSlice sales in
  Permutation (DailyRevenue (kpis sales))
    (List.map (dayPoint processed) (keysOf dateKey processed)).
Proof.
  intros processed. unfold processed.
  destruct (decide (sales = [])) as [->|Hne].
  - rewrite (sortByDate_nil sortSlice sortSlice_ok). simpl. constructor.
  - destruct (computeKPIs_fold sortSlice rangeDaily rangeCustomers rangeProducts
                rangeRetention sales Hne) as (_ & _ & _ & _ & _ & _ & _ & -> & _).
    rewrite fold_step_dr. change (dr acc0) with (∅ : gmap string F).
    apply dailySeries_perm.
Qed.

Lemma DailyRevenue_length (sales : list (Sale F)) :
  length (DailyRevenue (kpis sales)) = length (keysOf dateKey sales).
Proof.
  rewrite (Permutation_length (DailyRevenue_perm sales)), length_map.
  apply keysOf_perm_length, sortByDate_perm, sortSlice_ok.
Qed.

Lemma DailyRevenue_sorted (sales : list (Sale F)) :
  SortedBy (fun a b => time.Before (Day a) (Day b)) (DailyRevenue (kpis sales)).
Proof.
  destruct (decide (sales = [])) as [->|Hne]; [constructor|].
  destruct (computeKPIs_fold sortSlice rangeDaily rangeCustomers rangeProducts
              rangeRetention sales Hne) as (_ & _ & _ & _ & _ & _ & _ & -> & _).
  apply sortSlice_sorted; [exact sortSlice_ok|apply Before_on_swo].
Qed.

(** X3.  The daily revenue series has one point for each distinct date key
    [YYYY-MM-DD] of the records; the value of a point is the sum of the
    amounts of the records of that key, added from 0 in the order the sorted
    records are processed, and its day is the key parsed back; the points
    are in ascending order of day. *)
Theorem daily_revenue_per_day (sales : list (Sale F)) :
  let k := kpis sales in
  let processed := sortByDate sortSlice sales in
  Permutation (DailyRevenue k) (List.map (dayPoint processed) (keysOf dateKey processed))
  /\ SortedBy (fun a b => time.Before (Day a) (Day b)) (DailyRevenue k)
  /\ length (DailyRevenue k) = length (keysOf dateKey sales).
Proof.
  intros k processed.
  split; [apply DailyRevenue_perm|].
  split; [apply DailyRevenue_sorted|apply DailyRevenue_length].
Qed.

End Counts.

(* ===================================================================== *)
(** * The top customers and products *)
(* ===================================================================== *)

Section TopN.
Context {F : Type} `{Float64 F}.
Variable sortSlice : Sorter.
Variable rng : RangeOrder.
Hypothesis sortSlice_ok : sortSlice_contract sortSlice.
Hypothesis rng_ok : range_contract rng.

(** The slice [arr] of [topN] after the sort. *)
Lemma topN_take (m : gmap string F) (n : nat) :
  exists arr,
    topN sortSlice rng m n = take n arr
    /\ Permutation arr (List.map (fun kv => mkKVf kv.1 kv.2) (map_to_list m))
    /\ (StrictWeakOrder (fun x y : F => f_ltb y x) ->
        SortedBy (fun a b : KVf F => f_ltb (KVf_Value b) (KVf_Value a)) arr).
Proof.
  unfold topN.
  set (arr0 := fold_left _ (rng F m) []).
  set (arr := sortSlice _ _ arr0).
  exists arr. split; [|split].
  - destruct (Nat.ltb_spec n (length arr)) as [_|Hge]; [reflexivity|].
    now rewrite take_ge.
  - unfold arr. rewrite (sortSlice_perm _ sortSlice_ok). unfold arr0.
    rewrite (fold_left_ext_fun _ (fun arr kv => arr ++ [mkKVf kv.1 kv.2]))
      by (intros b [k v]; reflexivity).
    rewrite fold_left_snoc_map. simpl. apply Permutation_map, rng_ok.
  - intros Hswo. apply sortSlice_sorted; [exact sortSlice_ok|].
    split.
    + intros x. apply (swo_irrefl _ Hswo).
    + intros x y z. apply (swo_trans _ Hswo).
    + intros x y z. apply (swo_negtrans _ Hswo).
Qed.

Lemma topN_length (m : gmap string F) (n : nat) :
  length (topN sortSlice rng m n) = Nat.min n (size m).
Proof.
  destruct (topN_take m n) as (arr & -> & Hp & _).
  rewrite length_take, (Permutation_length Hp), length_map, length_map_to_list.
  reflexivity.
Qed.

Lemma topN_lookup (m : gmap string F) (n : nat) (e : KVf F) :
  In e (topN sortSlice rng m n) -> m !! Key e = Some (KVf_Value e).
Proof.
  destruct (topN_take m n) as (arr & -> & Hp & _). intros He.
  assert (He' : In e arr).
  { rewrite <- (take_drop n arr). apply in_or_app. now left. }
  apply (Permutation_in _ Hp), in_map_iff in He' as ([k v] & <- & Hkv).
  simpl. apply elem_of_map_to_list, list_elem_of_In, Hkv.
Qed.

Lemma topN_NoDup (m : gmap string F) (n : nat) :
  NoDup (List.map Key (topN sortSlice rng m n)).
Proof.
  destruct (topN_take m n) as (arr & -> & Hp & _).
  change (List.map Key (take n arr)) with (Key <$> take n arr).
  rewrite fmap_take. eapply sublist_NoDup; [|apply sublist_take].
  change (Key <$> arr) with (List.map Key arr).
  rewrite (Permutation_map Key Hp), List.map_map. simpl.
  apply NoDup_fst_map_to_list.
Qed.

(** X4.  [topN(m, n)] returns [min(n, len(m))] entries, each an entry of
    the map with its value, no key twice. *)
Theorem topN_entries (m : gmap string F) (n : nat) :
  let top := topN sortSlice rng m n in
  length top = Nat.min n (size m)
  /\ NoDup (List.map Key top)
  /\ forall e, In e top -> m !! Key e = Some (KVf_Value e).
Proof.
  intros top. split; [apply topN_length|]. split; [apply topN_NoDup|].
  intros e. apply topN_lookup.
Qed.

End TopN.

(* ===================================================================== *)
(** * The ranking of topN on float64 *)
(* ===================================================================== *)

Lemma rankLt_iff (a b c a' b' c' : Z) :
  rankLt (a, b, c) (a', b', c') = true
  <-> a < a' \/ (a = a' /\ (b < b' \/ (b = b' /\ c < c'))).
Proof.
  unfold rankLt.
  rewrite !orb_true_iff, !andb_true_iff, !orb_true_iff, !andb_true_iff,
    !Z.ltb_lt, !Z.eqb_eq.
  reflexivity.
Qed.

Lemma rankLt_false_iff (a b c a' b' c' : Z) :
  rankLt (a, b, c) (a', b', c') = false
  <-> ~ (a < a' \/ (a = a' /\ (b < b' \/ (b = b' /\ c < c')))).
Proof. rewrite <- not_true_iff_false, rankLt_iff. reflexivity. Qed.

Lemma descending_swo : StrictWeakOrder descending.
Proof.
  unfold descending. split.
  - intros x. destruct (floatRank x) as [[a b] c].
    apply rankLt_false_iff. lia.
  - intros x y z.
    destruct (floatRank x) as [[a b] c], (floatRank y) as [[a' b'] c'],
      (floatRank z) as [[a'' b''] c''].
    rewrite !rankLt_iff. lia.
  - intros x y z.
    destruct (floatRank x) as [[a b] c], (floatRank y) as [[a' b'] c'],
      (floatRank z) as [[a'' b''] c''].
    rewrite !rankLt_false_iff. lia.
Qed.

Lemma is_nan_false (x : float) :
  PrimFloat.is_nan x = false -> Prim2SF x <> S754_nan.
Proof.
  unfold PrimFloat.is_nan. rewrite FloatAxioms.eqb_spec. intros Hx E.
  rewrite E in Hx. discriminate Hx.
Qed.

(** On the values other than NaN, [x < y] is the order of the ranks. *)
Lemma ltb_rank (x y : float) :
  PrimFloat.is_nan x = false -> PrimFloat.is_nan y = false ->
  PrimFloat.ltb x y = rankLt (floatRank x) (floatRank y).
Proof.
  intros Hx Hy. apply is_nan_false in Hx, Hy.
  rewrite FloatAxioms.ltb_spec. unfold floatRank, SFltb, SFcompare.
  destruct (Prim2SF x) as [sx|sx| |sx mx ex], (Prim2SF y) as [sy|sy| |sy my ey];
    try congruence;
    repeat match goal with s : bool |- _ => destruct s end;
    try reflexivity.
  - (* both negative *)
    change (PosDef.Pos.compare_cont Eq mx my) with (Pos.compare mx my).
    symmetry.
    destruct (Z.compare_spec ex ey) as [E|E|E];
      [destruct (Pos.compare_spec mx my) as [E'|E'|E']|..];
      cbv beta iota delta [CompOpp];
      first [apply rankLt_iff; lia | apply rankLt_false_iff; lia].
  - (* both positive *)
    change (PosDef.Pos.compare_cont Eq mx my) with (Pos.compare mx my).
    symmetry.
    destruct (Z.compare_spec ex ey) as [E|E|E];
      [destruct (Pos.compare_spec mx my) as [E'|E'|E']|..];
      cbv beta iota delta [CompOpp];
      first [apply rankLt_iff; lia | apply rankLt_false_iff; lia].
Qed.

Lemma descending_gt (x y : float) :
  PrimFloat.is_nan x = false -> PrimFloat.is_nan y = false ->
  descending x y = PrimFloat.ltb y x.
Proof. intros Hx Hy. unfold descending. symmetry. now apply ltb_rank. Qed.

(** Insertion sort compares elements of the slice only. *)
Lemma insertBack_local {A : Type} (pass pass' : A -> A -> bool) (x : A) (racc : list A) :
  (forall y, In y racc -> pass x y = pass' x y) ->
  insertBack pass x racc = insertBack pass' x racc.
Proof.
  induction racc as [|y racc IH]; intros Heq; simpl; [reflexivity|].
  rewrite <- (Heq y) by (now left).
  destruct (pass x y); [|reflexivity].
  f_equal. apply IH. intros z Hz. apply Heq. now right.
Qed.

Lemma fold_insertBack_local {A : Type} (pass pass' : A -> A -> bool)
    (l racc : list A) :
  (forall x y, In x (l ++ racc) -> In y (l ++ racc) -> pass x y = pass' x y) ->
  fold_left (fun racc x => insertBack pass x racc) l racc
  = fold_left (fun racc x => insertBack pass' x racc) l racc.
Proof.
  revert racc. induction l as [|x l IH]; intros racc Heq; simpl; [reflexivity|].
  rewrite <- (insertBack_local pass pass' x racc).
  - apply IH. intros u v Hu Hv.
    assert (Hin : forall w, In w (l ++ insertBack pass x racc) ->
              In w ((x :: l) ++ racc)).
    { intros w Hw. apply in_app_or in Hw as [Hw|Hw].
      - simpl. right. apply in_or_app. now left.
      - apply (Permutation_in _ (insertBack_perm pass x racc)) in Hw.
        destruct Hw as [<-|Hw]; [now left|].
        simpl. right. apply in_or_app. now right. }
    apply Heq; apply Hin; assumption.
  - intros y Hy. apply Heq; [now left|]. simpl. right. apply in_or_app. now right.
Qed.

Lemma insertionSort_local : sortSlice_local insertionSort.
Proof.
  intros A less less' l Heq. unfold insertionSort, insertionSortBy. f_equal.
  apply fold_insertBack_local. rewrite app_nil_r. exact Heq.
Qed.

Section TopNFloat.
Variable sortSlice : Sorter.
Variable rng : RangeOrder.
Hypothesis sortSlice_ok : sortSlice_contract sortSlice.
Hypothesis sortSlice_elements : sortSlice_local sortSlice.
Hypothesis rng_ok : range_contract rng.

Lemma SortedBy_on {A : Type} (less less' : A -> A -> bool) (l : list A) :
  (forall x y, In x l -> In y l -> less x y = less' x y) ->
  SortedBy less l -> SortedBy less' l.
Proof.
  unfold SortedBy. intros Heq Hs.
  induction Hs as [|x l Hs IH Hx]; [constructor|].
  constructor.
  - apply IH. intros u v Hu Hv. apply Heq; now right.
  - rewrite List.Forall_forall in *. intros y Hy.
    rewrite <- (Heq y x) by (simpl; auto). now apply Hx.
Qed.

(** The slice [arr] of [topN] after the sort, for a map of [float64]
    without NaN: it is in descending order. *)
Lemma topN_sorted_float (m : gmap string float) (n : nat) :
  (forall k v, m !! k = Some v -> PrimFloat.is_nan v = false) ->
  exists arr : list (KVf float),
    topN sortSlice rng m n = take n arr
    /\ Permutation arr (List.map (fun kv => mkKVf kv.1 kv.2) (map_to_list m))
    /\ SortedBy (fun a b : KVf float => f_ltb (KVf_Value b) (KVf_Value a)) arr.
Proof.
  intros Hnan. unfold topN.
  set (arr0 := fold_left _ (rng float m) []).
  set (arr := sortSlice _ _ arr0).
  assert (Hp0 : Permutation arr0 (List.map (fun kv => mkKVf kv.1 kv.2) (map_to_list m))).
  { unfold arr0.
    rewrite (fold_left_ext_fun _ (fun arr kv => arr ++ [mkKVf kv.1 kv.2]))
      by (intros b [k v]; reflexivity).
    rewrite fold_left_snoc_map. simpl. apply Permutation_map, rng_ok. }
  assert (Hp : Permutation arr arr0) by apply (sortSlice_perm _ sortSlice_ok).
  assert (Hval : forall e, In e arr0 -> PrimFloat.is_nan (KVf_Value e) = false).
  { intros e He. apply (Permutation_in _ Hp0), in_map_iff in He as ([k v] & <- & Hkv).
    simpl. apply (Hnan k). apply elem_of_map_to_list, list_elem_of_In, Hkv. }
  assert (Heq : forall x y, In x arr0 -> In y arr0 ->
            f_ltb (KVf_Value y) (KVf_Value x) = descending (KVf_Value x) (KVf_Value y)).
  { intros x y Hx Hy. symmetry. apply descending_gt; apply Hval; assumption. }
  exists arr. split; [|split].
  - destruct (Nat.ltb_spec n (length arr)) as [_|Hge]; [reflexivity|].
    now rewrite take_ge.
  - now rewrite Hp.
  - apply (SortedBy_on (fun a b => descending (KVf_Value a) (KVf_Value b))).
    + intros x y Hx Hy. symmetry. apply Heq; eapply Permutation_in; eauto.
    + unfold arr.
      rewrite (sortSlice_elements _ _
                 (fun a b => descending (KVf_Value a) (KVf_Value b)) arr0 Heq).
      apply sortSlice_sorted; [exact sortSlice_ok|].
      split.
      * intros x. apply (swo_irrefl _ descending_swo).
      * intros x y z. apply (swo_trans _ descending_swo).
      * intros x y z. apply (swo_negtrans _ descending_swo).
Qed.

(** X5.  On [float64], for a map none of whose values is NaN, the entries
    [topN] returns are in descending order of value, and no entry of the map
    that it leaves out has a greater value than an entry it returns.  The
    sort is assumed to meet the contract of [sort.Slice] and to compare
    elements of the slice only; the comparison [>] is not a strict weak
    order on all of [float64], but on the values of the map it is the order
    [descending], which is one. *)
Theorem topN_ranking (m : gmap string float) (n : nat) :
  (forall k v, m !! k = Some v -> PrimFloat.is_nan v = false) ->
  let top := topN sortSlice rng m n in
  SortedBy (fun a b : KVf float => f_ltb (KVf_Value b) (KVf_Value a)) top
  /\ forall e k v, In e top -> m !! k = Some v -> ~ In (mkKVf k v) top ->
       f_ltb (KVf_Value e) v = false.
Proof.
  intros Hnan top. unfold top.
  destruct (topN_sorted_float m n Hnan) as (arr & -> & Hp & Hs).
  unfold SortedBy in *. rewrite <- (take_drop n arr) in Hs. split.
  - clear -Hs. induction (take n arr) as [|a l IH]; [constructor|].
    simpl in Hs. apply StronglySorted_inv in Hs as [Hs Ha].
    constructor; [now apply IH|].
    rewrite List.Forall_forall in *. intros x Hx. apply Ha, in_or_app. now left.
  - intros e k v He Hkv Hout.
    apply (StronglySorted_app_inv _ _ _ Hs e (mkKVf k v) He).
    assert (Hin : In (mkKVf k v) arr).
    { apply (Permutation_in _ (Permutation_sym Hp)), in_map_iff.
      exists (k, v). split; [reflexivity|].
      apply list_elem_of_In, elem_of_map_to_list, Hkv. }
    rewrite <- (take_drop n arr) in Hin. apply in_app_or in Hin as [Hin|Hin];
      [contradiction|exact Hin].
Qed.

End TopNFloat.


Section Totals.
Context {F : Type} `{Float64 F}.

Lemma totals_lookup (key : Sale F -> string) (l : list (Sale F)) (k : string) (v : F) :
  fold_left (fun m s => mapAdd m (key s) (Amount s)) l ∅ !! k = Some v ->
  In k (List.map key l) /\ v = keyTotal key k l.
Proof.
  intros Hkv. apply elem_of_map_to_list in Hkv.
  rewrite (totals_entries key l) in Hkv.
  apply list_elem_of_In, in_map_iff in Hkv as (k' & E & Hk).
  injection E as -> ->. split; [|reflexivity].
  apply list_elem_of_In. apply list_elem_of_In in Hk.
  unfold keysOf in Hk. now rewrite elem_of_remove_dups in Hk.
Qed.

Lemma totals_size (key : Sale F -> string) (l : list (Sale F)) :
  size (fold_left (fun m s => mapAdd m (key s) (Amount s)) l ∅)
  = length (keysOf key l).
Proof.
  rewrite <- length_map_to_list, (Permutation_length (totals_entries key l)).
  apply length_map.
Qed.

End Totals.

Section TopLists.
Context {F : Type} `{Float64 F}.
Variable sortSlice : Sorter.
Variable rangeDaily rangeCustomers rangeProducts rangeRetention : RangeOrder.
Hypothesis sortSlice_ok : sortSlice_contract sortSlice.
Hypothesis rangeCustomers_ok : range_contract rangeCustomers.
Hypothesis rangeProducts_ok : range_contract rangeProducts.

Local Abbreviation kpis :=
  (computeKPIs sortSlice rangeDaily rangeCustomers rangeProducts rangeRetention).

Lemma computeKPIs_top (sales : list (Sale F)) :
  sales <> [] ->
  let a := fold_left step (sortByDate sortSlice sales) acc0 in
  TopCustomers (kpis sales) = topN sortSlice rangeCustomers (byCustomer a) 5
  /\ TopProducts (kpis sales) = topN sortSlice rangeProducts (byProduct a) 5.
Proof. intros Hne. destruct sales as [|s sales]; [congruence|]. split; reflexivity. Qed.

(** X6.  The report lists the five customers, and the five products, of
    greatest value that [topN] picks, or all of them when there are fewer
    than five; the value listed with a customer or product is the sum of the
    amounts of its records, added from 0 in the order the sorted records are
    processed. *)
Theorem top_lists_carry_totals (sales : list (Sale F)) :
  let k := kpis sales in
  let processed := sortByDate sortSlice sales in
  length (TopCustomers k) = Nat.min 5 (length (keysOf Customer sales))
  /\ length (TopProducts k) = Nat.min 5 (length (keysOf Product sales))
  /\ (forall e, In e (TopCustomers k) ->
        In (Key e) (List.map Customer sales)
        /\ KVf_Value e = keyTotal Customer (Key e) processed)
  /\ (forall e, In e (TopProducts k) ->
        In (Key e) (List.map Product sales)
        /\ KVf_Value e = keyTotal Product (Key e) processed).
Proof.
  intros k processed. unfold k, processed.
  destruct (decide (sales = [])) as [->|Hne].
  - simpl. split; [reflexivity|]. split; [reflexivity|]. split; intros e [].
  - assert (Hperm : Permutation (sortByDate sortSlice sales) sales)
      by (apply sortByDate_perm, sortSlice_ok).
    destruct (computeKPIs_top sales Hne) as [-> ->].
    rewrite fold_step_byCustomer, fold_step_byProduct.
    change (byCustomer acc0) with (∅ : gmap string F).
    change (byProduct acc0) with (∅ : gmap string F).
    rewrite !(topN_length sortSlice _ sortSlice_ok) by assumption.
    rewrite !totals_size.
    rewrite (keysOf_perm_length Customer _ _ Hperm),
      (keysOf_perm_length Product _ _ Hperm).
    split; [reflexivity|]. split; [reflexivity|].
    split; intros e He;
      apply (topN_lookup sortSlice _ sortSlice_ok) in He; try assumption;
      apply totals_lookup in He as [Hk Hv]; (split; [|exact Hv]);
      eapply Permutation_in; try exact Hk; apply Permutation_map, Hperm.
Qed.

End TopLists.

(* ===================================================================== *)
(** * The shape of the suggestions, and alerts *)
(* ===================================================================== *)

Section SuggestionsShape.
Context {F : Type} `{Float64 F}.
Local Open Scope f64_scope.

Lemma anomalyMessages_concat_inv (anoms : list (Anomaly F)) (m : Suggestion F) :
  In m (concat (List.map anomalyMessages anoms)) ->
  exists day z, m = Dip day z \/ m = Spike day z.
Proof.
  rewrite in_concat. intros (ms & Hms & Hm).
  apply in_map_iff in Hms as (an & <- & _).
  apply anomalyMessages_inv in Hm as [(day & -> & _)|(day & -> & _)]; eauto.
Qed.

Lemma anomalyMessages_concat_length (anoms : list (Anomaly F)) :
  (length (concat (List.map anomalyMessages anoms)) <= length anoms)%nat.
Proof.
  induction anoms as [|an anoms IH]; simpl; [lia|].
  rewrite length_app. unfold anomalyMessages at 1.
  destruct (Z_ an <? f_of_Z (-2)); [simpl; lia|].
  destruct (f_of_Z 2 <? Z_ an); simpl; lia.
Qed.

(** The messages of [suggestions], rule by rule. *)
Lemma suggestions_In (total aov : F) (overdueCount : nat) (overdueTotal : F)
    (topC topP : list (KVf F)) (anoms : list (Anomaly F)) (m : Suggestion F) :
  In m (suggestions total aov overdueCount overdueTotal topC topP anoms)
  <-> ((0 < overdueCount)%nat /\ m = Dunning overdueCount overdueTotal)
      \/ ((aov <? f_of_Z 50) = true /\ m = Bundles)
      \/ ((0 < length topC)%nat /\ m = Loyalty topC)
      \/ ((0 < length topP)%nat /\ m = DoubleDown topP)
      \/ In m (concat (List.map anomalyMessages anoms))
      \/ (((f_of_Z 0 <? total) = true /\ (f_of_Z 0 <? aov) = true
           /\ overdueCount = 0%nat /\ anoms = []) /\ m = Steady).
Proof.
  rewrite suggestions_spec, !in_app_iff.
  assert (Hs : forall (c : bool) (a : Suggestion F),
            In m (if c then [a] else []) <-> c = true /\ m = a).
  { intros c a. split; [apply in_if_singleton|intros [-> ->]; now left]. }
  rewrite !Hs, !Nat.ltb_lt, !andb_true_iff, !Nat.eqb_eq, length_zero_iff_nil.
  tauto.
Qed.

Lemma suggestions_dunning_iff (total aov : F) (overdueCount : nat) (overdueTotal : F)
    (topC topP : list (KVf F)) (anoms : list (Anomaly F)) (n : nat) (t : F) :
  In (Dunning n t) (suggestions total aov overdueCount overdueTotal topC topP anoms)
  <-> n = overdueCount /\ t = overdueTotal /\ (0 < overdueCount)%nat.
Proof.
  rewrite suggestions_In. split.
  - intros [[Ho E]|[[_ E]|[[_ E]|[[_ E]|[Hm|[_ E]]]]]]; try discriminate E.
    + injection E as -> ->. auto.
    + apply anomalyMessages_concat_inv in Hm as (day & z & [E|E]); discriminate E.
  - intros (-> & -> & Ho). left. auto.
Qed.

Lemma suggestions_steady_iff (total aov : F) (overdueCount : nat) (overdueTotal : F)
    (topC topP : list (KVf F)) (anoms : list (Anomaly F)) :
  In Steady (suggestions total aov overdueCount overdueTotal topC topP anoms)
  <-> (f_of_Z 0 <? total) = true /\ (f_of_Z 0 <? aov) = true
      /\ overdueCount = 0%nat /\ anoms = [].
Proof.
  rewrite suggestions_In. split.
  - intros [[_ E]|[[_ E]|[[_ E]|[[_ E]|[Hm|[Hs _]]]]]]; try discriminate E.
    + apply anomalyMessages_concat_inv in Hm as (day & z & [E|E]); discriminate E.
    + exact Hs.
  - intros Hs. repeat right. auto.
Qed.

Lemma suggestions_head_dunning (total aov : F) (overdueCount : nat) (overdueTotal : F)
    (topC topP : list (KVf F)) (anoms : list (Anomaly F)) :
  (0 < overdueCount)%nat ->
  head (suggestions total aov overdueCount overdueTotal topC topP anoms)
  = Some (Dunning overdueCount overdueTotal).
Proof.
  intros Ho. rewrite suggestions_spec. apply Nat.ltb_lt in Ho. rewrite Ho. reflexivity.
Qed.

(** X7.  The dunning message is issued exactly when the overdue count is
    positive, with the count and the total, and is then the first message.
    The steady-performance message is issued exactly when total revenue and
    the average order value are positive, nothing is overdue and there is no
    anomaly; it is then the last message, and the only others are the
    bundles, loyalty and double-down messages.  There are at most five
    messages besides one for each anomaly. *)
Theorem suggestions_shape (total aov : F) (overdueCount : nat) (overdueTotal : F)
    (topC topP : list (KVf F)) (anoms : list (Anomaly F)) :
  let out := suggestions total aov overdueCount overdueTotal topC topP anoms in
  (forall n t, In (Dunning n t) out <->
               n = overdueCount /\ t = overdueTotal /\ (0 < overdueCount)%nat)
  /\ ((0 < overdueCount)%nat -> head out = Some (Dunning overdueCount overdueTotal))
  /\ (In Steady out <->
      (f_of_Z 0 <? total) = true /\ (f_of_Z 0 <? aov) = true
      /\ overdueCount = 0%nat /\ anoms = [])
  /\ (In Steady out ->
      last out = Some Steady
      /\ forall m, In m out ->
           m = Bundles \/ m = Loyalty topC \/ m = DoubleDown topP \/ m = Steady)
  /\ (length out <= 5 + length anoms)%nat.
Proof.
  intros out. unfold out.
  split; [intros n t; apply suggestions_dunning_iff|].
  split; [apply suggestions_head_dunning|].
  split; [apply suggestions_steady_iff|]. split.
  - intros Hst. pose proof (proj1 (suggestions_steady_iff _ _ _ _ _ _ _) Hst)
      as (Ht & Ha & -> & ->). split.
    + rewrite suggestions_spec, Ht, Ha. simpl. rewrite !app_assoc. apply last_snoc.
    + intros m. rewrite suggestions_In. simpl.
      intros [[Hc _]|[[_ E]|[[_ E]|[[_ E]|[[]|[_ E]]]]]]; [lia|auto..].
  - rewrite suggestions_spec, !length_app.
    pose proof (anomalyMessages_concat_length anoms).
    destruct (0 <? overdueCount)%nat, (aov <? f_of_Z 50), (0 <? length topC)%nat,
      (0 <? length topP)%nat,
      ((f_of_Z 0 <? total) && (f_of_Z 0 <? aov)
         && (overdueCount =? 0)%nat && (length anoms =? 0)%nat); simpl; lia.
Qed.

End SuggestionsShape.

Section Alert.
Context {F : Type} `{Float64 F}.
Variable sortSlice : Sorter.
Variable rangeDaily rangeCustomers rangeProducts rangeRetention : RangeOrder.

Local Abbreviation kpis :=
  (computeKPIs sortSlice rangeDaily rangeCustomers rangeProducts rangeRetention).

(** The suggestions of the report are those of its own figures. *)
Lemma computeKPIs_suggestions (sales : list (Sale F)) :
  let k := kpis sales in
  Suggestions k
  = match sales with
    | [] => []
    | _ :: _ =>
        suggestions (TotalRevenue k) (AvgOrderValue k) (OverdueCount k) (OverdueTotal k)
          (TopCustomers k) (TopProducts k) (Anomalies k)
    end.
Proof. destruct sales; reflexivity. Qed.

(** X8.  An alert is posted exactly when the report has an anomaly or a
    positive overdue count.  A report with the steady-performance message
    raises no alert; the report of an empty input raises none; and the
    overdue count is positive exactly when the first suggestion is the
    dunning message for the report's overdue count and total. *)
Theorem alert_and_suggestions (sales : list (Sale F)) :
  let k := kpis sales in
  (alertNeeded k = true <-> Anomalies k <> [] \/ (0 < OverdueCount k)%nat)
  /\ (In Steady (Suggestions k) -> alertNeeded k = false)
  /\ (sales = [] -> alertNeeded k = false)
  /\ ((0 < OverdueCount k)%nat <->
      head (Suggestions k) = Some (Dunning (OverdueCount k) (OverdueTotal k))).
Proof.
  intros k.
  assert (Halert : alertNeeded k = true <-> Anomalies k <> [] \/ (0 < OverdueCount k)%nat).
  { unfold alertNeeded. rewrite orb_true_iff, !Nat.ltb_lt.
    destruct (Anomalies k); simpl; [|split; [intros _; left; discriminate|lia]].
    split; [intros [Hc|Hc]; [lia|now right]|intros [Hc|Hc]; [congruence|now right]]. }
  split; [exact Halert|].
  pose proof (computeKPIs_suggestions sales) as Hsug. fold k in Hsug. simpl in Hsug.
  destruct sales as [|s0 sales'].
  - split; [intros []|]. split; [reflexivity|].
    split; [simpl; lia|discriminate].
  - rewrite Hsug.
    set (out := suggestions _ _ _ _ _ _ _).
    pose proof (fun n t => suggestions_dunning_iff (TotalRevenue k) (AvgOrderValue k)
                  (OverdueCount k) (OverdueTotal k) (TopCustomers k) (TopProducts k)
                  (Anomalies k) n t) as Hd.
    pose proof (suggestions_head_dunning (TotalRevenue k) (AvgOrderValue k)
                  (OverdueCount k) (OverdueTotal k) (TopCustomers k) (TopProducts k)
                  (Anomalies k)) as Hhead.
    pose proof (suggestions_steady_iff (TotalRevenue k) (AvgOrderValue k)
                  (OverdueCount k) (OverdueTotal k) (TopCustomers k) (TopProducts k)
                  (Anomalies k)) as Hst.
    fold out in Hd, Hhead, Hst.
    split; [|split; [discriminate|]].
    + intros Hs. apply Hst in Hs as (_ & _ & Ho & Ha).
      apply not_true_is_false. rewrite Halert, Ha, Ho. intros [Hc|Hc]; [congruence|lia].
    + split; [exact Hhead|].
      intros Hh. apply (Hd (OverdueCount k) (OverdueTotal k)).
      destruct out as [|m out']; [discriminate|]. injection Hh as ->. now left.
Qed.

End Alert.

(* ===================================================================== *)
(** * The overdue heuristic *)
(* ===================================================================== *)

(** A text that contains "overdue" contains "due". *)
Lemma Contains_overdue_due (s : string) :
  strings.Contains s "overdue" = true -> strings.Contains s "due" = true.
Proof.
  rewrite !Contains_spec. intros (pre & post & ->).
  exists (pre +:+ "over"), post.
  change ("overdue" +:+ post) with ("over" +:+ "due" +:+ post).
  induction pre as [|c pre IH]; [reflexivity|].
  change (String c pre +:+ "over" +:+ "due" +:+ post)
    with (String c (pre +:+ "over" +:+ "due" +:+ post)).
  rewrite IH. reflexivity.
Qed.

(** X9.  The overdue heuristic is decided by two of its three tests: a
    record is counted as overdue exactly when its status contains "unpaid"
    or "due"; the test for "overdue" adds nothing, as every text that
    contains "overdue" contains "due". *)
Theorem isOverdue_two_tests {F : Type} (s : Sale F) :
  isOverdue s
  = strings.Contains (Status s) "unpaid" || strings.Contains (Status s) "due".
Proof.
  unfold isOverdue.
  destruct (strings.Contains (Status s) "overdue") eqn:Ho; simpl; [|reflexivity].
  rewrite (Contains_overdue_due _ Ho). symmetry. apply orb_true_r.
Qed.

(* ===================================================================== *)
(** * The window of the forecast, and short periods *)
(* ===================================================================== *)

Section ForecastWindow.
Context {F : Type} `{Float64 F}.
Local Open Scope f64_scope.

Lemma forecast7_last7 (d : list (KVt F)) :
  (7 <= length d)%nat ->
  forecast7 d
  = fsum (List.map Value (drop (length d - 7) d)) / f_of_Z 7 * f_of_Z 7.
Proof.
  intros Hlen. unfold forecast7.
  destruct (Nat.eqb_spec (length d) 0) as [E|_]; [lia|].
  destruct (Nat.ltb_spec (length d) 7) as [E|_]; [lia|].
  cbv zeta. rewrite fold_left_window by lia.
  rewrite take_ge by (rewrite length_drop; lia).
  reflexivity.
Qed.

(** X10.  Once the series has seven points the forecast depends on the
    last seven only: points before them do not change it, and it is the
    sum of the last seven values divided by 7 and multiplied by 7. *)
Theorem forecast7_ignores_older_points (older d : list (KVt F)) :
  (7 <= length d)%nat ->
  forecast7 (older ++ d) = forecast7 d
  /\ forecast7 d
     = fsum (List.map Value (drop (length d - 7) d)) / f_of_Z 7 * f_of_Z 7.
Proof.
  intros Hlen. split; [|apply forecast7_last7, Hlen].
  rewrite !forecast7_last7 by (rewrite ?length_app; lia).
  rewrite length_app.
  replace (length older + length d - 7)%nat
    with (length older + (length d - 7))%nat by lia.
  rewrite drop_app_add'  by reflexivity. reflexivity.
Qed.

End ForecastWindow.

Section FewDays.
Context {F : Type} `{Float64 F}.
Variable sortSlice : Sorter.
Variable rangeDaily rangeCustomers rangeProducts rangeRetention : RangeOrder.
Hypothesis sortSlice_ok : sortSlice_contract sortSlice.
Hypothesis rangeDaily_ok : range_contract rangeDaily.

Local Abbreviation kpis :=
  (computeKPIs sortSlice rangeDaily rangeCustomers rangeProducts rangeRetention).

Lemma computeKPIs_anomalies (sales : list (Sale F)) :
  Anomalies (kpis sales) = detectAnomalies (DailyRevenue (kpis sales)).
Proof. destruct sales; reflexivity. Qed.

(** X11.  When the records fall on fewer than seven distinct dates the
    report has no anomaly and no dip or spike message, whatever the
    amounts, and only overdue records can raise an alert. *)
Theorem few_days_no_anomalies (sales : list (Sale F)) :
  (length (keysOf dateKey sales) < 7)%nat ->
  let k := kpis sales in
  Anomalies k = []
  /\ (forall day z, ~ In (Dip day z) (Suggestions k) /\ ~ In (Spike day z) (Suggestions k))
  /\ alertNeeded k = (0 <? OverdueCount k)%nat.
Proof.
  intros Hdays k.
  assert (Ha : Anomalies k = []).
  { unfold k. rewrite computeKPIs_anomalies. unfold detectAnomalies.
    rewrite (DailyRevenue_length sortSlice rangeDaily rangeCustomers rangeProducts
               rangeRetention sortSlice_ok rangeDaily_ok).
    apply Nat.ltb_lt in Hdays. rewrite Hdays. reflexivity. }
  split; [exact Ha|]. split.
  - pose proof (computeKPIs_suggestions sortSlice rangeDaily rangeCustomers
                  rangeProducts rangeRetention sales) as Hs.
    fold k in Hs. simpl in Hs.
    intros day z. destruct sales as [|s0 sales']; [rewrite Hs; simpl; tauto|].
    rewrite Hs, Ha.
    split; intros Hm; apply suggestions_In in Hm;
      destruct Hm as [[_ E]|[[_ E]|[[_ E]|[[_ E]|[[]|[_ E]]]]]]; discriminate E.
  - unfold alertNeeded. rewrite Ha. reflexivity.
Qed.

End FewDays.

(* ===================================================================== *)
(** * The records and the header of parseCSV *)
(* ===================================================================== *)

Lemma omap_length_le {A B : Type} (f : A -> option B) (l : list A) :
  (length (omap f l) <= length l)%nat.
Proof. induction l as [|x l IH]; csimpl; [lia|]. destruct (f x); csimpl; lia. Qed.

Lemma nz_not_blank (a b : string) :
  strings.TrimSpace b <> "" -> strings.TrimSpace (nz a b) <> "".
Proof.
  intros Hb. unfold nz.
  destruct (String.eqb_spec (strings.TrimSpace a) ""); assumption.
Qed.

Lemma getLoop_no_column (entries : list (string * nat)) (row : list string)
    (key : string) :
  (forall e, In e entries -> strings.Contains e.1 key = false) ->
  getLoop entries row key = "".
Proof.
  induction entries as [|[k idx] entries IH]; intros Hno; simpl; [reflexivity|].
  pose proof (Hno (k, idx) (or_introl eq_refl)) as Hk. simpl in Hk. rewrite Hk.
  apply IH. intros e He. apply Hno. now right.
Qed.

Section IngestShape.
Context {F : Type} `{Float64 F}.
Variable ReadAll : string -> list (list string) * option string.
Variable ToLower : string -> string.
Variable ParseFloat : string -> F.
Variable rangeHeader : nat -> string -> RangeOrder.

(** The records of [parseCSV] are those of the data rows that
    [parseRow] keeps; there are none when it returns an error. *)
Lemma parseCSV_records (r : string) :
  exists rows : list (nat * list string),
    (length rows <= length (ReadAll r).1 - 1)%nat
    /\ (parseCSV ReadAll ToLower ParseFloat rangeHeader r).1
       = omap (fun '(i, row) =>
                 parseRow ToLower ParseFloat rangeHeader
                   (headerMap ToLower (default [] ((ReadAll r).1 !! 0%nat))) i row)
              rows
    /\ ((ReadAll r).2 = None -> (2 <= length (ReadAll r).1)%nat ->
        rows = imap pair (drop 1 (ReadAll r).1)
        /\ (parseCSV ReadAll ToLower ParseFloat rangeHeader r).2 = None).
Proof.
  unfold parseCSV. destruct (ReadAll r) as [recs [e|]]; simpl.
  - exists []. split; [simpl; lia|]. split; [reflexivity|discriminate].
  - destruct (Nat.ltb_spec (length recs) 2) as [Hlt|Hge]; simpl.
    + exists []. split; [simpl; lia|]. split; [reflexivity|lia].
    + exists (imap pair (drop 1 recs)).
      split; [rewrite length_imap, length_drop; lia|].
      split; [|intros _ _; split; reflexivity].
      rewrite (fold_left_ext_fun _
        (fun out x => match (fun '(i, row) =>
                         parseRow ToLower ParseFloat rangeHeader
                           (headerMap ToLower (default [] (recs !! 0%nat))) i row) x
                      with Some y => out ++ [y] | None => out end))
        by (intros b [i row]; reflexivity).
      exact (fold_left_snoc_omap
               (fun '(i, row) =>
                  parseRow ToLower ParseFloat rangeHeader
                    (headerMap ToLower (default [] (recs !! 0%nat))) i row)
               (imap pair (drop 1 recs)) []).
Qed.

Lemma parseRow_fields (h : gmap string nat) (i : nat) (row : list string) (s : Sale F) :
  parseRow ToLower ParseFloat rangeHeader h i row = Some s ->
  get rangeHeader h i row "date" <> ""
  /\ Date s = parseDateFlexible (get rangeHeader h i row "date")
  /\ time.IsZero (Date s) = false
  /\ Customer s = nz (get rangeHeader h i row "customer") "Unknown"
  /\ Product s = nz (get rangeHeader h i row "product") "Unknown".
Proof.
  unfold parseRow.
  destruct (String.eqb_spec (get rangeHeader h i row "date") "") as [|Hd];
    [discriminate|].
  destruct (time.IsZero _) eqn:Hz; [discriminate|].
  intros E. injection E as <-. simpl. auto.
Qed.

(** X12.  [parseCSV] returns at most one record for each data row, and
    every record it returns is complete: its date is not the zero time, and
    its customer and its product are not blank, a blank cell or a missing
    column having been replaced by "Unknown". *)
Theorem parseCSV_records_complete (r : string) :
  let result := parseCSV ReadAll ToLower ParseFloat rangeHeader r in
  (length result.1 <= length (ReadAll r).1 - 1)%nat
  /\ forall s, In s result.1 ->
       time.IsZero (Date s) = false
       /\ strings.TrimSpace (Customer s) <> ""
       /\ strings.TrimSpace (Product s) <> "".
Proof.
  intros result. unfold result.
  destruct (parseCSV_records r) as (rows & Hlen & -> & _). split.
  - etransitivity; [apply omap_length_le|exact Hlen].
  - intros s Hs. apply list_elem_of_In, list_elem_of_omap in Hs as ([i row] & _ & Hrow).
    apply parseRow_fields in Hrow as (_ & _ & Hz & -> & ->).
    split; [exact Hz|].
    split; apply nz_not_blank; vm_compute; discriminate.
Qed.

(** X13.  When no column name of the header contains "date", a readable
    CSV with data rows yields no record and no error: every row is
    dropped, and the report computed from the result is the empty report
    [KPIs{}]. *)
Theorem parseCSV_without_date_column (r : string)
    (sortSlice : Sorter)
    (rangeDaily rangeCustomers rangeProducts rangeRetention : RangeOrder) :
  (forall i key, range_contract (rangeHeader i key)) ->
  (ReadAll r).2 = None -> (2 <= length (ReadAll r).1)%nat ->
  (forall k, is_Some (headerMap ToLower (default [] ((ReadAll r).1 !! 0%nat)) !! k) ->
             strings.Contains k "date" = false) ->
  parseCSV ReadAll ToLower ParseFloat rangeHeader r = ([], None)
  /\ computeKPIs sortSlice rangeDaily rangeCustomers rangeProducts rangeRetention
       (parseCSV ReadAll ToLower ParseFloat rangeHeader r).1 = KPIs_zero.
Proof.
  intros Hrange Herr Hlen Hno.
  assert (E : parseCSV ReadAll ToLower ParseFloat rangeHeader r = ([], None)).
  { destruct (parseCSV_records r) as (rows & _ & Hrec & Hok).
    destruct (Hok Herr Hlen) as [_ Hnone].
    destruct (parseCSV ReadAll ToLower ParseFloat rangeHeader r) as [out err].
    simpl in *. subst err. f_equal. rewrite Hrec.
    clear Hrec Hok. induction rows as [|[i row] rows IH]; [reflexivity|].
    simpl. unfold parseRow at 1.
    assert (Hd : get rangeHeader
                   (headerMap ToLower (default [] ((ReadAll r).1 !! 0%nat))) i row "date"
                 = "").
    { unfold get. apply getLoop_no_column. intros [k idx] He. simpl.
      apply Hno. exists idx.
      apply elem_of_map_to_list, list_elem_of_In.
      eapply Permutation_in; [apply Hrange|exact He]. }
    rewrite Hd. simpl. exact IH. }
  split; [exact E|]. rewrite E. reflexivity.
Qed.

End IngestShape.

Section HeaderMap.
Variable ToLower : string -> string.

Local Abbreviation norm := (fun col => ToLower (strings.TrimSpace col)).

Lemma headerMap_snoc (header : list string) (col : string) :
  headerMap ToLower (header ++ [col])
  = <[norm col := length header]> (headerMap ToLower header).
Proof.
  unfold headerMap. rewrite imap_app, fold_left_app. simpl.
  rewrite Nat.add_0_r. reflexivity.
Qed.

(** X14.  The header map sends a name, trimmed and lower-cased, to the
    index of the last column of that name: among columns of the same name
    the later one wins, and a name that no column has is not in the map. *)
Theorem headerMap_last_column (header : list string) (k : string) (i : nat) :
  headerMap ToLower header !! k = Some i
  <-> (exists col, header !! i = Some col /\ norm col = k)
      /\ forall j col, header !! j = Some col -> norm col = k -> (j <= i)%nat.
Proof.
  revert i. induction header as [|c header IH] using rev_ind; intros i.
  - unfold headerMap. simpl. rewrite lookup_empty. split; [discriminate|].
    intros [(col & Hc & _) _]. rewrite lookup_nil in Hc. discriminate.
  - rewrite headerMap_snoc.
    destruct (decide (norm c = k)) as [Hk|Hk].
    + rewrite <- Hk, lookup_insert_eq. split.
      * intros E. injection E as <-. split.
        -- exists c. split; [|reflexivity]. apply list_lookup_middle. reflexivity.
        -- intros j col Hj _. apply lookup_lt_Some in Hj.
           rewrite length_app in Hj. simpl in Hj. lia.
      * intros [(col & Hi & _) Hmax]. f_equal.
        apply lookup_lt_Some in Hi. rewrite length_app in Hi. simpl in Hi.
        pose proof (Hmax (length header) c
                      (list_lookup_middle header [] c _ eq_refl) eq_refl).
        lia.
    + rewrite lookup_insert_ne by exact Hk. rewrite IH. split.
      * intros [(col & Hi & Hc) Hmax]. split.
        -- exists col. split; [|exact Hc]. now apply lookup_app_l_Some.
        -- intros j col' Hj Hc'. apply lookup_snoc_Some in Hj as [[_ Hj]|[_ <-]].
           ++ now apply (Hmax j col').
           ++ contradiction.
      * intros [(col & Hi & Hc) Hmax]. split.
        -- exists col. split; [|exact Hc].
           apply lookup_snoc_Some in Hi as [[_ Hi]|[_ <-]]; [exact Hi|contradiction].
        -- intros j col' Hj Hc'. apply (Hmax j col'); [|exact Hc'].
           now apply lookup_app_l_Some.
Qed.

End HeaderMap.

Section GetColumn.
Variable rangeHeader : nat -> string -> RangeOrder.
Hypothesis rangeHeader_ok : forall i key, range_contract (rangeHeader i key).

(** X15.  When exactly one column name of the header map contains the
    key, the lookup [get] returns the cell of that column in the row,
    trimmed, and the empty text when the row is too short to have the
    cell. *)
Theorem get_unique_column (h : gmap string nat) (i : nat) (row : list string)
    (key k : string) (idx : nat) :
  h !! k = Some idx -> strings.Contains k key = true -> uniqueColumn h key ->
  get rangeHeader h i row key
  = match row !! idx with
    | Some cell => strings.TrimSpace cell
    | None => ""
    end.
Proof.
  intros Hk Hc Hu. unfold get.
  assert (Hp : Permutation (rangeHeader i key nat h)
                 ((k, idx) :: map_to_list (delete k h))).
  { rewrite (rangeHeader_ok i key). symmetry. apply map_to_list_delete, Hk. }
  rewrite (getLoop_perm row key _ _ Hp).
  2:{ eapply atMostOneMatch_perm; [symmetry; apply rangeHeader_ok|].
      apply uniqueColumn_entries, Hu. }
  simpl. rewrite Hc. destruct (row !! idx) as [cell|]; [reflexivity|].
  apply getLoop_no_column. intros [k' idx'] He. simpl.
  apply list_elem_of_In, elem_of_map_to_list in He.
  destruct (strings.Contains k' key) eqn:Hc'; [|reflexivity].
  apply lookup_delete_Some in He as [Hne He].
  exfalso. apply Hne. apply Hu; eauto.
Qed.

End GetColumn.


(* ===================================================================== *)
(** * Dates written and read back *)
(* ===================================================================== *)

Lemma fourDigits_all :
  forallb (fun n => fourDigits (Z.of_nat n)) (seq 0 (Z.to_nat 10000)) = true.
Proof. vm_compute. reflexivity. Qed.

Lemma twoDigits_all :
  forallb (fun n => twoDigits (Z.of_nat n)) (seq 0 (Z.to_nat 100)) = true.
Proof. vm_compute. reflexivity. Qed.

Lemma appendInt_4 (x : Z) :
  0 <= x <= 9999 ->
  exists c0 c1 c2 c3,
    time.appendInt x 4 = string_of_list_ascii [c0; c1; c2; c3]
    /\ forallb time.isDigit [c0; c1; c2; c3] = true
    /\ time.number [c0; c1; c2; c3] = x.
Proof.
  intros Hx.
  pose proof (proj1 (forallb_forall _ _) fourDigits_all (Z.to_nat x)) as Hc.
  cbv beta in Hc. rewrite Z2Nat.id in Hc by lia.
  specialize (Hc ltac:(apply in_seq; lia)).
  unfold fourDigits in Hc.
  rewrite <- (string_of_list_ascii_of_string (time.appendInt x 4)).
  destruct (list_ascii_of_string (time.appendInt x 4))
    as [|c0 [|c1 [|c2 [|c3 [|c4 l]]]]]; try discriminate Hc.
  apply andb_true_iff in Hc as [Hd Hn]. apply Z.eqb_eq in Hn.
  exists c0, c1, c2, c3. auto.
Qed.

Lemma appendInt_2 (x : Z) :
  0 <= x <= 99 ->
  exists c0 c1,
    time.appendInt x 2 = string_of_list_ascii [c0; c1]
    /\ forallb time.isDigit [c0; c1] = true
    /\ time.digitVal c0 * 10 + time.digitVal c1 = x.
Proof.
  intros Hx.
  pose proof (proj1 (forallb_forall _ _) twoDigits_all (Z.to_nat x)) as Hc.
  cbv beta in Hc. rewrite Z2Nat.id in Hc by lia.
  specialize (Hc ltac:(apply in_seq; lia)).
  unfold twoDigits in Hc.
  rewrite <- (string_of_list_ascii_of_string (time.appendInt x 2)).
  destruct (list_ascii_of_string (time.appendInt x 2))
    as [|c0 [|c1 [|c2 l]]]; try discriminate Hc.
  apply andb_true_iff in Hc as [Hd Hn]. apply Z.eqb_eq in Hn.
  exists c0, c1. auto.
Qed.

Lemma validDate_iff (t : time.Time) :
  validDate t = true <->
  0 <= time.year t <= 9999 /\ 1 <= time.month t <= 12
  /\ 1 <= time.day t <= time.daysIn (time.month t) (time.year t).
Proof. unfold validDate. rewrite !andb_true_iff, !Z.leb_le. tauto. Qed.

Lemma daysIn_le_31 (m y : Z) : time.daysIn m y <= 31.
Proof.
  unfold time.daysIn.
  destruct (m =? 2); [destruct (time.isLeap y); lia|].
  destruct ((m =? 4) || (m =? 6) || (m =? 9) || (m =? 11)); lia.
Qed.

(** The text [Format] writes for a valid date, digit by digit. *)
Lemma FormatDate_digits (t : time.Time) :
  validDate t = true ->
  exists y0 y1 y2 y3 m0 m1 d0 d1,
    time.FormatDate t
    = string_of_list_ascii [y0; y1; y2; y3; "-"%char; m0; m1; "-"%char; d0; d1]
    /\ forallb time.isDigit [y0; y1; y2; y3; m0; m1; d0; d1] = true
    /\ time.number [y0; y1; y2; y3] = time.year t
    /\ time.digitVal m0 * 10 + time.digitVal m1 = time.month t
    /\ time.digitVal d0 * 10 + time.digitVal d1 = time.day t.
Proof.
  rewrite validDate_iff. intros (Hy & Hm & Hd).
  pose proof (daysIn_le_31 (time.month t) (time.year t)) as H31.
  destruct (appendInt_4 (time.year t) Hy) as (y0 & y1 & y2 & y3 & Ey & Dy & Ny).
  destruct (appendInt_2 (time.month t)) as (m0 & m1 & Em & Dm & Nm); [lia|].
  destruct (appendInt_2 (time.day t)) as (d0 & d1 & Ed & Dd & Nd); [lia|].
  exists y0, y1, y2, y3, m0, m1, d0, d1.
  unfold time.FormatDate. rewrite Ey, Em, Ed.
  split; [reflexivity|]. split; [|auto].
  simpl in *. rewrite !andb_true_iff in *. tauto.
Qed.

Lemma Parse_iso_digits (y0 y1 y2 y3 m0 m1 d0 d1 : ascii) :
  forallb time.isDigit [y0; y1; y2; y3; m0; m1; d0; d1] = true ->
  let yyyy := time.number [y0; y1; y2; y3] in
  let mm := time.digitVal m0 * 10 + time.digitVal m1 in
  let dd := time.digitVal d0 * 10 + time.digitVal d1 in
  1 <= mm <= 12 -> 1 <= dd <= time.daysIn mm yyyy ->
  time.Parse time.layout_2006_01_02
    (string_of_list_ascii [y0; y1; y2; y3; "-"%char; m0; m1; "-"%char; d0; d1])
  = Some (time.Date yyyy mm dd).
Proof.
  intros Hd yyyy mm dd Hm Hday.
  simpl in Hd. rewrite !andb_true_iff in Hd.
  destruct Hd as (H1 & H2 & H3 & H4 & H5 & H6 & H7 & H8 & _).
  unfold time.Parse. rewrite list_ascii_of_string_of_list_ascii.
  cbn [time.layout_2006_01_02 time.parseChunks time.parseChunk].
  rewrite H1, H2, H3, H4.
  cbn [andb Ascii.eqb Bool.eqb time.parseChunks time.parseChunk time.getnum].
  rewrite H5, H6. fold mm.
  destruct (Z.leb_spec mm 0) as [|_]; [lia|].
  destruct (Z.ltb_spec 12 mm) as [|_]; [lia|].
  cbn [orb Ascii.eqb Bool.eqb time.parseChunks time.parseChunk time.getnum].
  rewrite H7, H8. fold dd.
  cbn [andb time.parseChunks time.mon time.dy time.yr time.hr time.mi time.sc
       time.ns time.tz time.fields0].
  fold yyyy.
  destruct (Z.ltb_spec mm 0) as [|_]; [lia|].
  destruct (Z.ltb_spec dd 0) as [|_]; [lia|].
  destruct (Z.ltb_spec dd 1) as [|_]; [lia|].
  destruct (Z.ltb_spec (time.daysIn mm yyyy) dd) as [|_]; [lia|].
  reflexivity.
Qed.

Lemma Parse_FormatDate (t : time.Time) :
  validDate t = true ->
  time.Parse time.layout_2006_01_02 (time.FormatDate t) = Some (civilDate t).
Proof.
  intros Hv.
  destruct (FormatDate_digits t Hv)
    as (y0 & y1 & y2 & y3 & m0 & m1 & d0 & d1 & -> & Hd & Hy & Hm & Hday).
  apply validDate_iff in Hv as (_ & Hmv & Hdv).
  rewrite Parse_iso_digits; [|exact Hd|lia|rewrite Hm, Hy, Hday; exact Hdv].
  unfold civilDate. rewrite Hy, Hm, Hday. reflexivity.
Qed.

(** X16.  A valid calendar date with a year of four digits survives the
    round trip that [computeKPIs] makes for the daily series: [Format] to
    [YYYY-MM-DD] and [time.Parse] back give midnight UTC of the same civil
    date; and [parseDateFlexible] reads the formatted text as that date. *)
Theorem format_parse_round_trip (t : time.Time) :
  validDate t = true ->
  time.Parse time.layout_2006_01_02 (time.FormatDate t) = Some (civilDate t)
  /\ parseDateFlexible (time.FormatDate t) = civilDate t.
Proof.
  intros Hv. split; [apply Parse_FormatDate, Hv|].
  pose proof (Parse_FormatDate t Hv) as Hp.
  destruct (FormatDate_digits t Hv)
    as (y0 & y1 & y2 & y3 & m0 & m1 & d0 & d1 & E & Hd & _).
  rewrite E in *.
  simpl in Hd. rewrite !andb_true_iff in Hd.
  destruct Hd as (H1 & _ & _ & _ & _ & _ & _ & H8 & _).
  rewrite parseDateFlexible_layouts.
  rewrite (TrimSpace_digits y0 d1 [y1; y2; y3; "-"; m0; m1; "-"; d0; d1]%char
             [d0; "-"; m1; m0; "-"; y3; y2; y1; y0]%char H1 H8 eq_refl).
  unfold dateLayouts. cbn [firstParse]. rewrite Hp. reflexivity.
Qed.

(** ** The dates [time.Parse] returns *)

Lemma number_4_range (c0 c1 c2 c3 : ascii) :
  time.isDigit c0 && time.isDigit c1 && time.isDigit c2 && time.isDigit c3 = true ->
  0 <= time.number [c0; c1; c2; c3] <= 9999.
Proof.
  rewrite !andb_true_iff. intros (((H0 & H1) & H2) & H3).
  apply digitVal_range in H0, H1, H2, H3. unfold time.number. simpl. lia.
Qed.

Lemma getnum_nonneg (s : list ascii) (fixed : bool) (n : Z) (rest : list ascii) :
  time.getnum s fixed = Some (n, rest) -> 0 <= n.
Proof.
  unfold time.getnum. destruct s as [|c0 s]; [discriminate|].
  destruct (time.isDigit c0) eqn:H0; [|discriminate].
  apply digitVal_range in H0.
  destruct s as [|c1 s].
  - destruct fixed; [discriminate|]. intros E. injection E as <- _. lia.
  - destruct (time.isDigit c1) eqn:H1.
    + apply digitVal_range in H1. intros E. injection E as <- _. lia.
    + destruct fixed; [discriminate|]. intros E. injection E as <- _. lia.
Qed.

Lemma parseChunk_inRange (k : time.chunk) (f f' : time.fields) (s s' : list ascii) :
  fieldsInRange f -> time.parseChunk k f s = Some (f', s') -> fieldsInRange f'.
Proof.
  intros (Hy & Hm & Hd). unfold fieldsInRange. destruct k; simpl.
  - destruct s as [|c' rest]; [discriminate|].
    destruct (Ascii.eqb c c'); [|discriminate]. intros E. injection E as <- _. auto.
  - destruct s as [|c0 [|c1 [|c2 [|c3 rest]]]]; try discriminate.
    destruct (time.isDigit c0 && time.isDigit c1 && time.isDigit c2 && time.isDigit c3)
      eqn:Hdig; [|discriminate].
    intros E. injection E as <- _. simpl.
    split; [apply number_4_range, Hdig|auto].
  - destruct (time.getnum s true) as [[m rest]|]; [|discriminate].
    destruct (Z.leb_spec m 0); [discriminate|].
    destruct (Z.ltb_spec 12 m); [discriminate|]. simpl.
    intros E. injection E as <- _. simpl. split; [exact Hy|]. split; [right; lia|exact Hd].
  - destruct (time.getnum s true) as [[d rest]|] eqn:Hg; [|discriminate].
    apply getnum_nonneg in Hg.
    intros E. injection E as <- _. simpl. auto.
  - destruct (time.getnum s false) as [[h rest]|]; [|discriminate].
    destruct (24 <=? h); [discriminate|]. intros E. injection E as <- _. auto.
  - destruct (time.getnum s true) as [[m rest]|]; [|discriminate].
    destruct (60 <=? m); [discriminate|]. intros E. injection E as <- _. auto.
  - destruct (time.getnum s true) as [[x rest]|]; [|discriminate].
    destruct (60 <=? x); [discriminate|].
    destruct (time.fraction rest) as [n rest']. intros E. injection E as <- _. auto.
  - destruct s as [|c0 rest]; [discriminate|].
    destruct (Ascii.eqb_spec c0 "Z"%char) as [->|Hz].
    + intros E. injection E as <- _. auto.
    + assert (Hgen :
        match rest with
        | h1 :: h2 :: colon :: m1 :: m2 :: rest' =>
            if Ascii.eqb colon ":" then
              match time.getnum [h1; h2] true, time.getnum [m1; m2] true with
              | Some (h, _), Some (m, _) =>
                  if (24 <? h) || (60 <? m) then None
                  else
                    let off := (h * 60 + m) * 60 in
                    if Ascii.eqb c0 "+" then
                      Some (time.mkFields (time.yr f) (time.mon f) (time.dy f) (time.hr f)
                              (time.mi f) (time.sc f) (time.ns f) (Some off), rest')
                    else if Ascii.eqb c0 "-" then
                      Some (time.mkFields (time.yr f) (time.mon f) (time.dy f) (time.hr f)
                              (time.mi f) (time.sc f) (time.ns f) (Some (- off)), rest')
                    else None
              | _, _ => None
              end
            else None
        | _ => None
        end = Some (f', s') ->
        (0 <= time.yr f' <= 9999)
        /\ (time.mon f' = -1 \/ 1 <= time.mon f' <= 12)
        /\ (time.dy f' = -1 \/ 0 <= time.dy f')).
      { destruct rest as [|h1 [|h2 [|colon [|m1 [|m2 rest']]]]]; try discriminate.
        destruct (Ascii.eqb colon ":"); [|discriminate].
        destruct (time.getnum [h1; h2] true) as [[h ?]|]; [|discriminate].
        destruct (time.getnum [m1; m2] true) as [[m ?]|]; [|discriminate].
        destruct ((24 <? h) || (60 <? m)); [discriminate|]. cbv zeta.
        destruct (Ascii.eqb c0 "+"); [intros E; injection E as <- _; auto|].
        destruct (Ascii.eqb c0 "-"); [intros E; injection E as <- _; auto|discriminate]. }
      intros E. apply Hgen. rewrite <- E.
      destruct c0 as [[] [] [] [] [] [] [] []]; try reflexivity. congruence.
Qed.

Lemma parseChunks_inRange (layout : list time.chunk) (f f' : time.fields)
    (s : list ascii) :
  fieldsInRange f -> time.parseChunks layout f s = Some f' -> fieldsInRange f'.
Proof.
  revert f s. induction layout as [|k layout IH]; intros f s Hf; simpl.
  - destruct s; [|discriminate]. intros E. injection E as <-. exact Hf.
  - destruct (time.parseChunk k f s) as [[f1 s1]|] eqn:Hk; [|discriminate].
    apply IH. eapply parseChunk_inRange; eauto.
Qed.

(** Whatever the layout, a time that [time.Parse] returns has a valid
    calendar date. *)
Lemma Parse_validDate (layout : list time.chunk) (value : string) (t : time.Time) :
  time.Parse layout value = Some t -> validDate t = true.
Proof.
  unfold time.Parse.
  destruct (time.parseChunks layout time.fields0 (list_ascii_of_string value))
    as [f|] eqn:Hp; [|discriminate].
  apply parseChunks_inRange in Hp as (Hy & Hm & Hd).
  2:{ unfold fieldsInRange. simpl. lia. }
  set (m := if time.mon f <? 0 then 1 else time.mon f).
  set (d := if time.dy f <? 0 then 1 else time.dy f).
  destruct (Z.ltb_spec d 1) as [|Hd1]; [discriminate|].
  destruct (Z.ltb_spec (time.daysIn m (time.yr f)) d) as [|Hd2]; [discriminate|].
  simpl. intros E. injection E as <-. apply validDate_iff. simpl.
  split; [exact Hy|]. split; [|lia].
  unfold m. destruct (Z.ltb_spec (time.mon f) 0); lia.
Qed.

Lemma firstParse_validDate (layouts : list (list time.chunk)) (s : string)
    (t : time.Time) :
  firstParse layouts s = Some t -> validDate t = true.
Proof.
  induction layouts as [|f layouts IH]; simpl; [discriminate|].
  destruct (time.Parse f s) as [t'|] eqn:Hp; [|exact IH].
  intros E. injection E as <-. eapply Parse_validDate, Hp.
Qed.

Lemma parseDateFlexible_validDate (s : string) : validDate (parseDateFlexible s) = true.
Proof.
  rewrite parseDateFlexible_layouts.
  destruct (firstParse dateLayouts (strings.TrimSpace s)) as [t|] eqn:Hp; simpl.
  - eapply firstParse_validDate, Hp.
  - reflexivity.
Qed.


Section ParsedDates.
Context {F : Type} `{Float64 F}.
Variable ReadAll : string -> list (list string) * option string.
Variable ToLower : string -> string.
Variable ParseFloat : string -> F.
Variable rangeHeader : nat -> string -> RangeOrder.

(** X17.  [parseDateFlexible] never returns an impossible date: whatever
    the text, the result has a year from 0 to 9999, a month from 1 to 12 and
    a day that exists in that month of that year.  So has the date of every
    record that [parseCSV] returns. *)
Theorem parsed_dates_are_valid :
  (forall s, validDate (parseDateFlexible s) = true)
  /\ (forall r s,
        In s (parseCSV ReadAll ToLower ParseFloat rangeHeader r).1 ->
        validDate (Date s) = true).
Proof.
  split; [exact parseDateFlexible_validDate|].
  intros r s Hs.
  destruct (parseCSV_records ReadAll ToLower ParseFloat rangeHeader r)
    as (rows & _ & E & _).
  rewrite E in Hs.
  apply list_elem_of_In, list_elem_of_omap in Hs as ([i row] & _ & Hrow).
  apply parseRow_fields in Hrow as (_ & -> & _).
  apply parseDateFlexible_validDate.
Qed.

End ParsedDates.

Lemma FormatDate_civilDate (t u : time.Time) :
  civilDate t = civilDate u -> time.FormatDate t = time.FormatDate u.
Proof.
  unfold civilDate, time.Date, time.FormatDate. intros E.
  injection E as -> -> ->. reflexivity.
Qed.

Section DailyDays.
Context {F : Type} `{Float64 F}.
Variable sortSlice : Sorter.
Variable rangeDaily rangeCustomers rangeProducts rangeRetention : RangeOrder.
Hypothesis sortSlice_ok : sortSlice_contract sortSlice.
Hypothesis rangeDaily_ok : range_contract rangeDaily.

Local Abbreviation kpis :=
  (computeKPIs sortSlice rangeDaily rangeCustomers rangeProducts rangeRetention).

(** X18.  When the records have valid calendar dates, as those of
    [parseCSV] have, the daily revenue series has exactly one point for each
    civil date on which there is a record, dated midnight UTC of that date
    and carrying the sum of the amounts of the records of the date; no
    point is dated the zero time by a key that fails to parse back. *)
Theorem daily_points_are_civil_dates (sales : list (Sale F)) :
  (forall s, In s sales -> validDate (Date s) = true) ->
  let k := kpis sales in
  let processed := sortByDate sortSlice sales in
  (forall p, In p (DailyRevenue k) ->
     exists s, In s sales /\ Day p = civilDate (Date s)
               /\ Value p = keyTotal dateKey (dateKey s) processed)
  /\ (forall s, In s sales ->
        exists p, In p (DailyRevenue k) /\ Day p = civilDate (Date s))
  /\ NoDup (List.map Day (DailyRevenue k)).
Proof.
  intros Hvalid k processed.
  pose proof (DailyRevenue_perm sortSlice rangeDaily rangeCustomers rangeProducts
                rangeRetention sortSlice_ok rangeDaily_ok sales) as Hp.
  fold k processed in Hp. simpl in Hp.
  assert (Hperm : Permutation processed sales) by (apply sortByDate_perm, sortSlice_ok).
  assert (Hkey : forall key, In key (keysOf dateKey processed) ->
            exists s, In s sales /\ dateKey s = key).
  { intros key Hk. apply list_elem_of_In in Hk. unfold keysOf in Hk.
    rewrite elem_of_remove_dups in Hk.
    apply list_elem_of_In, in_map_iff in Hk as (s & Hs & Hin).
    exists s. split; [|exact Hs]. eapply Permutation_in; eauto. }
  assert (Hday : forall s, In s sales ->
            Day (dayPoint processed (dateKey s)) = civilDate (Date s)).
  { intros s Hs. unfold dayPoint, dateKey. simpl.
    rewrite (Parse_FormatDate _ (Hvalid s Hs)). reflexivity. }
  split; [|split].
  - intros p Hin. apply (Permutation_in _ Hp), in_map_iff in Hin as (key & <- & Hk).
    destruct (Hkey key Hk) as (s & Hs & <-).
    exists s. split; [exact Hs|]. split; [apply Hday, Hs|reflexivity].
  - intros s Hs. exists (dayPoint processed (dateKey s)). split; [|apply Hday, Hs].
    apply (Permutation_in _ (Permutation_sym Hp)), in_map_iff.
    exists (dateKey s). split; [reflexivity|].
    apply list_elem_of_In. unfold keysOf. rewrite elem_of_remove_dups.
    apply list_elem_of_In, in_map_iff. exists s. split; [reflexivity|].
    eapply Permutation_in; [symmetry; exact Hperm|exact Hs].
  - rewrite (Permutation_map Day Hp), List.map_map.
    apply (NoDup_fmap_2_strong (fun key => Day (dayPoint processed key))).
    + intros k1 k2 Hk1 Hk2 E.
      apply list_elem_of_In, Hkey in Hk1 as (s1 & Hs1 & <-).
      apply list_elem_of_In, Hkey in Hk2 as (s2 & Hs2 & <-).
      rewrite !Hday in E by assumption.
      apply FormatDate_civilDate, E.
    + apply NoDup_remove_dups.
Qed.

End DailyDays.


(* ===================================================================== *)
(** * The retention rate *)
(* ===================================================================== *)

Lemma fold_keyed_to_list {A V : Type} (key : A -> string) (upd : option V -> A -> V)
    (g : string -> V) (l : list A) :
  (forall k, k ∈ keysOf key l ->
     fold_left (fun o s => Some (upd o s)) (filedUnder key k l) None = Some (g k)) ->
  Permutation
    (map_to_list (fold_left (fun m s => <[key s := upd (m !! key s) s]> m) l
                    (∅ : gmap string V)))
    (List.map (fun k => (k, g k)) (keysOf key l)).
Proof.
  intros Hg. apply NoDup_Permutation.
  - apply NoDup_map_to_list.
  - apply (NoDup_fmap_2_strong (fun k => (k, g k))).
    + intros x y _ _ E. now injection E.
    + apply NoDup_remove_dups.
  - intros [k v]. rewrite elem_of_map_to_list.
    rewrite (fold_keyed_entries key upd l k v).
    change (List.map ?f ?l) with (f <$> l). rewrite list_elem_of_fmap. split.
    + intros [Hk Hv]. exists k. split; [|exact Hk].
      rewrite (Hg k Hk) in Hv. injection Hv as <-. reflexivity.
    + intros (k' & E & Hk). injection E as -> ->. split; [exact Hk|].
      apply Hg, Hk.
Qed.

Section SetFold.
Context {A K : Type} `{Countable K}.
Variable f : A -> K.

Lemma set_fold_lookup (xs : list A) (set : gmap K bool) (k : K) :
  is_Some (fold_left (fun set x => <[f x := true]> set) xs set !! k)
  <-> is_Some (set !! k) \/ k ∈ List.map f xs.
Proof.
  revert set. induction xs as [|x xs IH]; intros set; simpl.
  - rewrite elem_of_nil. tauto.
  - rewrite IH, elem_of_cons. destruct (decide (f x = k)) as [->|Hne].
    + rewrite lookup_insert_eq. split; [auto|intros _; left; eauto].
    + rewrite lookup_insert_ne by exact Hne. split; [tauto|].
      intros [?|[?|?]]; [tauto|congruence|tauto].
Qed.

Lemma set_fold_size (xs : list A) :
  size (fold_left (fun set x => <[f x := true]> set) xs (∅ : gmap K bool))
  = length (remove_dups (List.map f xs)).
Proof.
  rewrite <- length_map_to_list, <- (length_fmap fst).
  apply Permutation_length, NoDup_Permutation.
  - apply NoDup_fst_map_to_list.
  - apply NoDup_remove_dups.
  - intros k. rewrite elem_of_remove_dups, list_elem_of_fmap. split.
    + intros ([k' v] & -> & Hkv). apply elem_of_map_to_list in Hkv.
      assert (Hs : is_Some (fold_left (fun set x => <[f x := true]> set) xs
                              (∅ : gmap K bool) !! k')) by eauto.
      apply set_fold_lookup in Hs as [Hs|Hs]; [|exact Hs].
      rewrite lookup_empty in Hs. destruct Hs; discriminate.
    + intros Hk.
      destruct (proj2 (set_fold_lookup xs ∅ k) (or_intror Hk)) as [v Hv].
      exists (k, v). split; [reflexivity|]. apply elem_of_map_to_list, Hv.
Qed.

End SetFold.

Lemma remove_dups_perm_length {K : Type} `{EqDecision K} (l l' : list K) :
  Permutation l l' -> length (remove_dups l) = length (remove_dups l').
Proof.
  intros Hp. apply Permutation_length, NoDup_Permutation;
    [apply NoDup_remove_dups..|].
  intros k. rewrite !elem_of_remove_dups, Hp. reflexivity.
Qed.

Lemma Permutation_List_filter {A : Type} (p : A -> bool) (l l' : list A) :
  Permutation l l' -> Permutation (List.filter p l) (List.filter p l').
Proof.
  induction 1 as [|x l l' _ IH|x y l|l l' l'' _ IH1 _ IH2]; simpl.
  - constructor.
  - destruct (p x); [constructor|]; exact IH.
  - destruct (p x), (p y); try reflexivity. constructor.
  - etransitivity; eauto.
Qed.

Lemma count_loop {V : Type} (p : V -> bool) (l : list (string * V)) (n : nat) :
  fold_left (fun retained '(_, set) => if p set then S retained else retained) l n
  = (n + length (List.filter (fun kv => p kv.2) l))%nat.
Proof.
  revert n. induction l as [|[k v] l IH]; intros n; simpl; [lia|].
  rewrite IH. destruct (p v); simpl; lia.
Qed.

Section Retention.
Context {F : Type} `{Float64 F}.
Variable rangeRetention : RangeOrder.
Hypothesis rangeRetention_ok : range_contract rangeRetention.

(** The week set [retentionRate] keeps for a customer. *)
Local Abbreviation weekSet xs :=
  (fold_left (fun set (s : Sale F) => <[weekOf s := true]> set) xs
     (∅ : gmap (Z * Z) bool)).

Lemma weekSet_fold (xs : list (Sale F)) (o : option (gmap (Z * Z) bool)) :
  xs <> [] ->
  fold_left (fun o s => Some (<[weekOf s := true]> (default ∅ o))) xs o
  = Some (fold_left (fun set s => <[weekOf s := true]> set) xs (default ∅ o)).
Proof.
  destruct xs as [|x xs]; [congruence|]. intros _. simpl.
  generalize (<[weekOf x := true]> (default ∅ o)). clear x o.
  induction xs as [|y xs IH]; intros v; simpl; [reflexivity|apply IH].
Qed.

(** The map [m] of [retentionRate]: each customer with the set of its
    weeks. *)
Lemma retention_map (sales : list (Sale F)) :
  fold_left
    (fun (m : gmap string (gmap (Z * Z) bool)) s =>
       let w := time.ISOWeek (Date s) in
       let m := match m !! Customer s with
                | Some _ => m
                | None => <[Customer s := ∅]> m
                end in
       <[Customer s := <[w := true]> (default ∅ (m !! Customer s))]> m)
    sales ∅
  = fold_left
      (fun m s => <[Customer s := <[weekOf s := true]> (default ∅ (m !! Customer s))]> m)
      sales ∅.
Proof.
  apply fold_left_ext_fun. intros m s. cbv zeta. fold (weekOf s).
  destruct (m !! Customer s) eqn:Hc; [rewrite Hc; reflexivity|].
  rewrite lookup_insert_eq, insert_insert_eq. reflexivity.
Qed.

Lemma retention_entries (sales : list (Sale F)) :
  Permutation
    (map_to_list
       (fold_left
          (fun m s =>
             <[Customer s := <[weekOf s := true]> (default ∅ (m !! Customer s))]> m)
          sales (∅ : gmap string (gmap (Z * Z) bool))))
    (List.map (fun c => (c, weekSet (filedUnder Customer c sales)))
              (keysOf Customer sales)).
Proof.
  apply (fold_keyed_to_list Customer
           (fun o s => <[weekOf s := true]> (default ∅ o))
           (fun c => weekSet (filedUnder Customer c sales))).
  intros k Hk. rewrite weekSet_fold; [reflexivity|].
  rewrite filedUnder_nil_iff. unfold keysOf in Hk.
  rewrite elem_of_remove_dups in Hk. tauto.
Qed.

Lemma retentionRate_formula (sales : list (Sale F)) :
  retentionRate rangeRetention sales
  = match sales with
    | [] => f_of_Z 0
    | _ :: _ =>
        f_div (f_of_Z (Z.of_nat (length (retainedCustomers sales))))
              (f_of_Z (Z.of_nat (length (keysOf Customer sales))))
    end.
Proof.
  unfold retentionRate. rewrite retention_map.
  set (m := fold_left _ sales ∅).
  assert (Hsize : size m = length (keysOf Customer sales)).
  { rewrite <- length_map_to_list. unfold m.
    rewrite (Permutation_length (retention_entries sales)). apply length_map. }
  assert (Hret : fold_left
            (fun retained '(_, set) =>
               if (2 <=? size set)%nat then S retained else retained)
            (rangeRetention _ m) 0%nat
          = length (retainedCustomers sales)).
  { rewrite (count_loop (fun set : gmap (Z * Z) bool => (2 <=? size set)%nat)).
    simpl.
    rewrite (Permutation_filter_length _ _ _ (rangeRetention_ok _ m)).
    unfold m.
    rewrite (Permutation_filter_length _ _ _ (retention_entries sales)).
    rewrite filter_map_swap, length_map. unfold retainedCustomers. simpl.
    f_equal. apply filter_ext. intros c.
    unfold weeksOf. rewrite (set_fold_size weekOf). reflexivity. }
  cbv zeta. rewrite Hret, Hsize.
  destruct sales as [|s sales']; [reflexivity|].
  destruct (Nat.eqb_spec (length (keysOf Customer (s :: sales'))) 0) as [E|_];
    [|reflexivity].
  exfalso. apply length_zero_iff_nil in E.
  assert (Hin : Customer s ∈ keysOf Customer (s :: sales')).
  { unfold keysOf. rewrite elem_of_remove_dups. simpl. apply elem_of_cons. now left. }
  rewrite E in Hin. apply elem_of_nil in Hin. exact Hin.
Qed.

Lemma retainedCustomers_perm_length (l l' : list (Sale F)) :
  Permutation l l' ->
  length (retainedCustomers l) = length (retainedCustomers l').
Proof.
  intros Hp. unfold retainedCustomers.
  rewrite (filter_ext _ (fun c => (2 <=? length (weeksOf c l'))%nat)).
  - apply Permutation_filter_length, NoDup_Permutation;
      [apply NoDup_remove_dups..|].
    intros k. unfold keysOf. rewrite !elem_of_remove_dups.
    rewrite (Permutation_map Customer Hp). reflexivity.
  - intros c. f_equal. unfold weeksOf.
    apply remove_dups_perm_length, Permutation_map, Permutation_List_filter, Hp.
Qed.

End Retention.

Section RetentionReport.
Context {F : Type} `{Float64 F}.
Variable sortSlice : Sorter.
Variable rangeDaily rangeCustomers rangeProducts rangeRetention : RangeOrder.
Hypothesis sortSlice_ok : sortSlice_contract sortSlice.
Hypothesis rangeRetention_ok : range_contract rangeRetention.

Local Abbreviation kpis :=
  (computeKPIs sortSlice rangeDaily rangeCustomers rangeProducts rangeRetention).

Lemma computeKPIs_retention (sales : list (Sale F)) :
  RetentionRate (kpis sales) = retentionRate rangeRetention (sortByDate sortSlice sales).
Proof.
  destruct sales as [|s sales]; [|reflexivity].
  rewrite (sortByDate_nil sortSlice sortSlice_ok). reflexivity.
Qed.

(** X19.  The retention rate is 0 for no records and otherwise the number
    of customers with records in two or more distinct ISO weeks divided by
    the number of distinct customers; the former never exceeds the latter;
    and the rate the report carries is that of the input records, whatever
    their order and whatever the sort does with records of the same date. *)
Theorem retention_rate_spec (sales : list (Sale F)) :
  let rate (l : list (Sale F)) :=
    match l with
    | [] => f_of_Z 0
    | _ :: _ =>
        f_div (f_of_Z (Z.of_nat (length (retainedCustomers l))))
              (f_of_Z (Z.of_nat (length (keysOf Customer l))))
    end in
  retentionRate rangeRetention sales = rate sales
  /\ (length (retainedCustomers sales) <= length (keysOf Customer sales))%nat
  /\ RetentionRate (kpis sales) = rate sales.
Proof.
  intros rate.
  split; [apply retentionRate_formula, rangeRetention_ok|].
  split; [apply filter_length_le|].
  rewrite computeKPIs_retention, (retentionRate_formula _ rangeRetention_ok).
  assert (Hperm : Permutation (sortByDate sortSlice sales) sales)
    by (apply sortByDate_perm, sortSlice_ok).
  destruct sales as [|s sales'].
  - rewrite (sortByDate_nil sortSlice sortSlice_ok). reflexivity.
  - destruct (sortByDate sortSlice (s :: sales')) as [|s1 sorted] eqn:E.
    + apply Permutation_nil in Hperm. discriminate.
    + unfold rate.
      rewrite (retainedCustomers_perm_length _ _ Hperm),
        (keysOf_perm_length Customer _ _ Hperm).
      reflexivity.
Qed.

End RetentionReport.



(* ===================================================================== *)
(** * The properties on the examples *)
(* ===================================================================== *)

Section Witnesses.
Local Open Scope float_scope.

(** X1 on the six records of the example. *)
Lemma computeKPIs_counts_witness :
  sortSlice_contract insertionSort
  /\ let k := computeKPIs insertionSort rangeCanonical rangeCanonical rangeCanonical
                rangeCanonical exampleSales in
     Orders k = length exampleSales
     /\ UniqueCustomers k = length (keysOf Customer exampleSales)
     /\ (UniqueCustomers k <= Orders k)%nat
     /\ (OverdueCount k <= Orders k)%nat
     /\ AvgOrderValue k
        = match exampleSales with
          | [] => f_of_Z 0
          | _ :: _ => f_div (TotalRevenue k) (f_of_Z (Z.of_nat (length exampleSales)))
          end.
Proof.
  split; [exact insertionSort_contract|].
  exact (computeKPIs_counts insertionSort rangeCanonical rangeCanonical rangeCanonical
           rangeCanonical insertionSort_contract exampleSales).
Defined.

(** X2 on the example. *)
Lemma period_endpoints_witness :
  sortSlice_contract insertionSort
  /\ exampleSales <> []
  /\ let k := computeKPIs insertionSort rangeCanonical rangeCanonical rangeCanonical
                rangeCanonical exampleSales in
     (exists s, In s exampleSales /\ From k = Date s)
     /\ (exists s, In s exampleSales /\ To k = Date s)
     /\ time.Before (To k) (From k) = false.
Proof.
  split; [exact insertionSort_contract|]. split; [discriminate|].
  exact (period_endpoints insertionSort rangeCanonical rangeCanonical rangeCanonical
           rangeCanonical insertionSort_contract exampleSales ltac:(discriminate)).
Defined.

(** X3 on the example. *)
Lemma daily_revenue_per_day_witness :
  sortSlice_contract insertionSort
  /\ range_contract rangeCanonical
  /\ let k := computeKPIs insertionSort rangeCanonical rangeCanonical rangeCanonical
                rangeCanonical exampleSales in
     let processed := sortByDate insertionSort exampleSales in
     Permutation (DailyRevenue k)
       (List.map (dayPoint processed) (keysOf dateKey processed))
     /\ SortedBy (fun a b => time.Before (Day a) (Day b)) (DailyRevenue k)
     /\ length (DailyRevenue k) = length (keysOf dateKey exampleSales).
Proof.
  split; [exact insertionSort_contract|]. split; [exact rangeCanonical_contract|].
  exact (daily_revenue_per_day insertionSort rangeCanonical rangeCanonical
           rangeCanonical rangeCanonical insertionSort_contract
           rangeCanonical_contract exampleSales).
Defined.

(** X4 on the revenue of the three customers of the example, for the two
    greatest. *)
Lemma topN_entries_witness :
  sortSlice_contract insertionSort
  /\ range_contract rangeCanonical
  /\ let top := topN insertionSort rangeCanonical exampleByCustomer 2 in
     length top = Nat.min 2 (size exampleByCustomer)
     /\ NoDup (List.map Key top)
     /\ forall e, In e top -> exampleByCustomer !! Key e = Some (KVf_Value e).
Proof.
  split; [exact insertionSort_contract|]. split; [exact rangeCanonical_contract|].
  exact (topN_entries insertionSort rangeCanonical insertionSort_contract
           rangeCanonical_contract exampleByCustomer 2).
Defined.

(** X6 on the example. *)
Lemma top_lists_carry_totals_witness :
  sortSlice_contract insertionSort
  /\ range_contract rangeCanonical
  /\ let k := computeKPIs insertionSort rangeCanonical rangeCanonical rangeCanonical
                rangeCanonical exampleSales in
     let processed := sortByDate insertionSort exampleSales in
     length (TopCustomers k) = Nat.min 5 (length (keysOf Customer exampleSales))
     /\ length (TopProducts k) = Nat.min 5 (length (keysOf Product exampleSales))
     /\ (forall e, In e (TopCustomers k) ->
           In (Key e) (List.map Customer exampleSales)
           /\ KVf_Value e = keyTotal Customer (Key e) processed)
     /\ (forall e, In e (TopProducts k) ->
           In (Key e) (List.map Product exampleSales)
           /\ KVf_Value e = keyTotal Product (Key e) processed).
Proof.
  split; [exact insertionSort_contract|]. split; [exact rangeCanonical_contract|].
  exact (top_lists_carry_totals insertionSort rangeCanonical rangeCanonical
           rangeCanonical rangeCanonical insertionSort_contract
           rangeCanonical_contract rangeCanonical_contract exampleSales).
Defined.

(** X10 on seven days with two older days before them. *)
Lemma forecast7_ignores_older_points_witness :
  let older := julySeries [100; 200] in
  let d := julySeries [1; 2; 3; 4; 5; 6; 7] in
  (7 <= length d)%nat
  /\ forecast7 (older ++ d) = forecast7 d
  /\ forecast7 d
     = f_mul (f_div (fsum (List.map Value (drop (length d - 7) d))) (f_of_Z 7))
             (f_of_Z 7).
Proof.
  intros older d. split; [simpl; lia|].
  exact (forecast7_ignores_older_points older d ltac:(simpl; lia)).
Defined.

(** X11 on the example, whose records fall on five dates. *)
Lemma few_days_no_anomalies_witness :
  sortSlice_contract insertionSort
  /\ range_contract rangeCanonical
  /\ (length (keysOf dateKey exampleSales) < 7)%nat
  /\ let k := computeKPIs insertionSort rangeCanonical rangeCanonical rangeCanonical
                rangeCanonical exampleSales in
     Anomalies k = []
     /\ (forall day z,
           ~ In (Dip day z) (Suggestions k) /\ ~ In (Spike day z) (Suggestions k))
     /\ alertNeeded k = (0 <? OverdueCount k)%nat.
Proof.
  split; [exact insertionSort_contract|]. split; [exact rangeCanonical_contract|].
  assert (Hdays : (length (keysOf dateKey exampleSales) < 7)%nat)
    by (apply Nat.ltb_lt; vm_compute; reflexivity).
  split; [exact Hdays|].
  exact (few_days_no_anomalies insertionSort rangeCanonical rangeCanonical
           rangeCanonical rangeCanonical insertionSort_contract
           rangeCanonical_contract exampleSales Hdays).
Defined.

(** X16 on 23:59:58 of February 29, 2024, five hours west of UTC. *)
Lemma format_parse_round_trip_witness :
  let t := time.mkTime 2024 2 29 23 59 58 0 (-18000) in
  validDate t = true
  /\ time.Parse time.layout_2006_01_02 (time.FormatDate t) = Some (civilDate t)
  /\ parseDateFlexible (time.FormatDate t) = civilDate t.
Proof.
  intros t. split; [reflexivity|].
  exact (format_parse_round_trip t eq_refl).
Defined.

(** The dates of the example are valid. *)
Lemma exampleSales_valid (s : Sale float) :
  In s exampleSales -> validDate (Date s) = true.
Proof.
  simpl. intros [<-|[<-|[<-|[<-|[<-|[<-|[]]]]]]]; reflexivity.
Qed.

(** X18 on the example. *)
Lemma daily_points_are_civil_dates_witness :
  sortSlice_contract insertionSort
  /\ range_contract rangeCanonical
  /\ (forall s, In s exampleSales -> validDate (Date s) = true)
  /\ let k := computeKPIs insertionSort rangeCanonical rangeCanonical rangeCanonical
                rangeCanonical exampleSales in
     let processed := sortByDate insertionSort exampleSales in
     (forall p, In p (DailyRevenue k) ->
        exists s, In s exampleSales /\ Day p = civilDate (Date s)
                  /\ Value p = keyTotal dateKey (dateKey s) processed)
     /\ (forall s, In s exampleSales ->
           exists p, In p (DailyRevenue k) /\ Day p = civilDate (Date s))
     /\ NoDup (List.map Day (DailyRevenue k)).
Proof.
  split; [exact insertionSort_contract|]. split; [exact rangeCanonical_contract|].
  split; [exact exampleSales_valid|].
  exact (daily_points_are_civil_dates insertionSort rangeCanonical rangeCanonical
           rangeCanonical rangeCanonical insertionSort_contract
           rangeCanonical_contract exampleSales exampleSales_valid).
Defined.

(** X19 on the example. *)
Lemma retention_rate_spec_witness :
  sortSlice_contract insertionSort
  /\ range_contract rangeCanonical
  /\ let rate (l : list (Sale float)) :=
       match l with
       | [] => f_of_Z 0
       | _ :: _ =>
           f_div (f_of_Z (Z.of_nat (length (retainedCustomers l))))
                 (f_of_Z (Z.of_nat (length (keysOf Customer l))))
       end in
     retentionRate rangeCanonical exampleSales = rate exampleSales
     /\ (length (retainedCustomers exampleSales)
         <= length (keysOf Customer exampleSales))%nat
     /\ RetentionRate (computeKPIs insertionSort rangeCanonical rangeCanonical
                         rangeCanonical rangeCanonical exampleSales)
        = rate exampleSales.
Proof.
  split; [exact insertionSort_contract|]. split; [exact rangeCanonical_contract|].
  exact (retention_rate_spec insertionSort rangeCanonical rangeCanonical
           rangeCanonical rangeCanonical insertionSort_contract
           rangeCanonical_contract exampleSales).
Defined.

End Witnesses.

Section TopNFloatWitness.
Local Open Scope float_scope.

(** The entries of [exampleByCustomer]; none is NaN. *)
Lemma exampleByCustomer_entries :
  map_to_list exampleByCustomer = [("Acme", 487); ("Atlas", 349); ("Zen", 398)].
Proof. vm_compute. reflexivity. Qed.

Lemma exampleByCustomer_no_nan (k : string) (v : float) :
  exampleByCustomer !! k = Some v -> PrimFloat.is_nan v = false.
Proof.
  intros Hkv. apply elem_of_map_to_list, list_elem_of_In in Hkv.
  rewrite exampleByCustomer_entries in Hkv. simpl in Hkv.
  destruct Hkv as [E|[E|[E|[]]]]; injection E as _ <-; reflexivity.
Qed.

(** X5 on the revenue of the three customers of the example, for the two
    greatest, with the insertion sort. *)
Lemma topN_ranking_witness :
  sortSlice_contract insertionSort
  /\ sortSlice_local insertionSort
  /\ range_contract rangeCanonical
  /\ (forall k v, exampleByCustomer !! k = Some v -> PrimFloat.is_nan v = false)
  /\ let top := topN insertionSort rangeCanonical exampleByCustomer 2 in
     SortedBy (fun a b : KVf float => f_ltb (KVf_Value b) (KVf_Value a)) top
     /\ forall e k v, In e top -> exampleByCustomer !! k = Some v ->
          ~ In (mkKVf k v) top ->
          f_ltb (KVf_Value e) v = false.
Proof.
  split; [exact insertionSort_contract|]. split; [exact insertionSort_local|].
  split; [exact rangeCanonical_contract|]. split; [exact exampleByCustomer_no_nan|].
  exact (topN_ranking insertionSort rangeCanonical insertionSort_contract
           insertionSort_local rangeCanonical_contract exampleByCustomer 2
           exampleByCustomer_no_nan).
Defined.

End TopNFloatWitness.

Section IngestWitnesses.
Local Open Scope float_scope.

Lemma noDateTable_header :
  map_to_list (headerMap strings.ToLowerASCII
                 (default [] ((tableReader noDateTable "").1 !! 0%nat)))
  = [("customer", 1); ("amount", 2); ("day", 0)]%nat.
Proof. vm_compute. reflexivity. Qed.

Lemma noDateTable_no_date (k : string) :
  is_Some (headerMap strings.ToLowerASCII
             (default [] ((tableReader noDateTable "").1 !! 0%nat)) !! k) ->
  strings.Contains k "date" = false.
Proof.
  intros [i Hk]. apply elem_of_map_to_list, list_elem_of_In in Hk.
  rewrite noDateTable_header in Hk. simpl in Hk.
  destruct Hk as [E|[E|[E|[]]]]; injection E as <- _; reflexivity.
Qed.

(** X13 on [noDateTable]. *)
Lemma parseCSV_without_date_column_witness :
  (forall (i : nat) (key : string), range_contract rangeCanonical)
  /\ (tableReader noDateTable "").2 = None
  /\ (2 <= length (tableReader noDateTable "").1)%nat
  /\ (forall k,
        is_Some (headerMap strings.ToLowerASCII
                   (default [] ((tableReader noDateTable "").1 !! 0%nat)) !! k) ->
        strings.Contains k "date" = false)
  /\ parseCSV (tableReader noDateTable) strings.ToLowerASCII ParseFloatInteger
       (fun _ _ => rangeCanonical) "" = ([], None)
  /\ computeKPIs insertionSort rangeCanonical rangeCanonical rangeCanonical rangeCanonical
       (parseCSV (tableReader noDateTable) strings.ToLowerASCII ParseFloatInteger
          (fun _ _ => rangeCanonical) "").1 = KPIs_zero.
Proof.
  split; [intros _ _; exact rangeCanonical_contract|].
  split; [reflexivity|]. split; [simpl; lia|].
  split; [exact noDateTable_no_date|].
  exact (parseCSV_without_date_column (tableReader noDateTable) strings.ToLowerASCII
           ParseFloatInteger (fun _ _ => rangeCanonical) ""
           insertionSort rangeCanonical rangeCanonical rangeCanonical rangeCanonical
           (fun _ _ => rangeCanonical_contract) eq_refl ltac:(simpl; lia)
           noDateTable_no_date).
Defined.

Lemma plainTable_date_column :
  headerMap strings.ToLowerASCII
    (default [] ((tableReader plainTable "").1 !! 0%nat)) !! "date" = Some 0%nat.
Proof.
  apply elem_of_map_to_list, list_elem_of_In. rewrite plainTable_header.
  simpl. tauto.
Qed.

(** X15 on the header of [plainTable], for the date of a row whose cell has
    a trailing space. *)
Lemma get_unique_column_witness :
  let h := headerMap strings.ToLowerASCII
             (default [] ((tableReader plainTable "").1 !! 0%nat)) in
  let row := ["2025-07-01 "; "Acme"] in
  (forall (i : nat) (key : string), range_contract rangeReversed)
  /\ h !! "date" = Some 0%nat
  /\ strings.Contains "date" "date" = true
  /\ uniqueColumn h "date"
  /\ get (fun _ _ => rangeReversed) h 0 row "date"
     = match row !! 0%nat with
       | Some cell => strings.TrimSpace cell
       | None => ""
       end.
Proof.
  intros h row.
  split; [intros _ _; exact rangeReversed_contract|].
  split; [exact plainTable_date_column|]. split; [reflexivity|].
  split; [apply plainTable_unique; simpl; tauto|].
  exact (get_unique_column (fun _ _ => rangeReversed)
           (fun _ _ => rangeReversed_contract) h 0%nat row "date" "date" 0%nat
           plainTable_date_column eq_refl
           (plainTable_unique "date" ltac:(simpl; tauto))).
Defined.

End IngestWitnesses.

(* ===================================================================== *)
(** * Dates read month first, and partial dates *)
(* ===================================================================== *)

Section MonthFirst.
(** The text [c1 c2 / c3 c4 / c5 c6 c7 c8], all eight digits. *)
Variables c1 c2 c3 c4 c5 c6 c7 c8 : ascii.
Hypothesis digits :
  forallb time.isDigit [c1; c2; c3; c4; c5; c6; c7; c8] = true.

Local Abbreviation text := (slashDate c1 c2 c3 c4 c5 c6 c7 c8).
Local Abbreviation first := (time.digitVal c1 * 10 + time.digitVal c2).
Local Abbreviation second := (time.digitVal c3 * 10 + time.digitVal c4).
Local Abbreviation yyyy := (time.number [c5; c6; c7; c8]).

Lemma slashDate_day_month_fails :
  12 < second -> time.Parse time.layout_02_01_2006_slash text = None.
Proof.
  intros Hm.
  destruct (slashDate_digits c1 c2 c3 c4 c5 c6 c7 c8 digits)
    as (H1 & H2 & H3 & H4 & _).
  unfold time.Parse, slashDate. rewrite list_ascii_of_string_of_list_ascii.
  cbn [time.layout_02_01_2006_slash time.parseChunks time.parseChunk time.getnum].
  rewrite H1, H2. cbn [Ascii.eqb Bool.eqb time.parseChunks time.parseChunk time.getnum].
  rewrite H3, H4.
  destruct (Z.ltb_spec 12 second) as [_|]; [|lia].
  rewrite orb_true_r. reflexivity.
Qed.

Lemma slashDate_month_day :
  1 <= first <= 12 -> 1 <= second <= time.daysIn first yyyy ->
  time.Parse time.layout_01_02_2006_slash text
  = Some (time.Date yyyy first second).
Proof.
  intros Hm Hday.
  destruct (slashDate_digits c1 c2 c3 c4 c5 c6 c7 c8 digits)
    as (H1 & H2 & H3 & H4 & H5 & H6 & H7 & H8).
  unfold time.Parse, slashDate. rewrite list_ascii_of_string_of_list_ascii.
  cbn [time.layout_01_02_2006_slash time.parseChunks time.parseChunk time.getnum].
  rewrite H1, H2.
  destruct (Z.leb_spec first 0) as [|_]; [lia|].
  destruct (Z.ltb_spec 12 first) as [|_]; [lia|].
  cbn [orb Ascii.eqb Bool.eqb time.parseChunks time.parseChunk time.getnum].
  rewrite H3, H4.
  cbn [Ascii.eqb Bool.eqb time.parseChunks time.parseChunk].
  rewrite H5, H6, H7, H8.
  cbn [andb time.parseChunks time.mon time.dy time.yr time.hr time.mi time.sc
       time.ns time.tz time.fields0].
  destruct (Z.ltb_spec first 0) as [|_]; [lia|].
  destruct (Z.ltb_spec second 0) as [|_]; [lia|].
  destruct (Z.ltb_spec second 1) as [|_]; [lia|].
  destruct (Z.ltb_spec (time.daysIn first yyyy) second) as [|_]; [lia|].
  reflexivity.
Qed.

(** X20.  A text [AA/BB/YYYY] of digits is read month first, as the day BB
    of the month AA, only when it cannot be read day first: when BB is more
    than 12, AA is a month and BB is a day of that month. *)
Theorem slash_date_read_month_first :
  1 <= first <= 12 -> 12 < second <= time.daysIn first yyyy ->
  parseDateFlexible text = time.Date yyyy first second
  /\ time.Parse time.layout_02_01_2006_slash text = None.
Proof.
  intros Hm Hday. split; [|apply slashDate_day_month_fails; lia].
  rewrite parseDateFlexible_layouts,
    (slashDate_trimmed c1 c2 c3 c4 c5 c6 c7 c8 digits).
  rewrite (firstParse_first dateLayouts text 2 time.layout_01_02_2006_slash
             (time.Date yyyy first second)); [reflexivity|reflexivity| |].
  - apply slashDate_month_day; lia.
  - intros j g Hj Hg. destruct j as [|[|j]]; [| |lia].
    + injection Hg as <-. apply slashDate_not_iso, digits.
    + injection Hg as <-. apply slashDate_day_month_fails. lia.
Qed.

End MonthFirst.

(** X20 on the text "12/25/2025". *)
Lemma slash_date_read_month_first_witness :
  forallb time.isDigit ["1"; "2"; "2"; "5"; "2"; "0"; "2"; "5"]%char = true
  /\ 1 <= time.digitVal "1" * 10 + time.digitVal "2" <= 12
  /\ 12 < time.digitVal "2" * 10 + time.digitVal "5"
       <= time.daysIn (time.digitVal "1" * 10 + time.digitVal "2")
            (time.number ["2"; "0"; "2"; "5"]%char)
  /\ parseDateFlexible (slashDate "1" "2" "2" "5" "2" "0" "2" "5")
     = time.Date (time.number ["2"; "0"; "2"; "5"]%char)
         (time.digitVal "1" * 10 + time.digitVal "2")
         (time.digitVal "2" * 10 + time.digitVal "5")
  /\ time.Parse time.layout_02_01_2006_slash (slashDate "1" "2" "2" "5" "2" "0" "2" "5")
     = None.
Proof.
  split; [reflexivity|].
  split; [vm_compute; split; discriminate|].
  split; [vm_compute; split; [reflexivity|discriminate]|].
  exact (slash_date_read_month_first "1" "2" "2" "5" "2" "0" "2" "5" eq_refl
           ltac:(vm_compute; split; discriminate)
           ltac:(vm_compute; split; [reflexivity|discriminate]))%char.
Defined.

Lemma digit_not_slash (c : ascii) : time.isDigit c = true -> Ascii.eqb "/" c = false.
Proof.
  intros Hc. apply isDigit_range in Hc.
  destruct (Ascii.eqb_spec "/" c) as [<-|]; [|reflexivity].
  change (nat_of_ascii "/") with 47%nat in Hc. lia.
Qed.

Lemma daysIn_ge_28 (m y : Z) : 28 <= time.daysIn m y.
Proof.
  unfold time.daysIn.
  destruct (m =? 2); [destruct (time.isLeap y); lia|].
  destruct ((m =? 4) || (m =? 6) || (m =? 9) || (m =? 11)); lia.
Qed.

Section YearMonth.
Variables y0 y1 y2 y3 m0 m1 : ascii.
Hypothesis digits : forallb time.isDigit [y0; y1; y2; y3; m0; m1] = true.

Local Abbreviation text := (yearMonth y0 y1 y2 y3 m0 m1).
Local Abbreviation yyyy := (time.number [y0; y1; y2; y3]).
Local Abbreviation mm := (time.digitVal m0 * 10 + time.digitVal m1).

Lemma yearMonth_digits :
  time.isDigit y0 = true /\ time.isDigit y1 = true /\ time.isDigit y2 = true
  /\ time.isDigit y3 = true /\ time.isDigit m0 = true /\ time.isDigit m1 = true.
Proof.
  pose proof digits as Hd. simpl in Hd. rewrite !andb_true_iff in Hd. tauto.
Qed.

Lemma yearMonth_trimmed : strings.TrimSpace text = text.
Proof.
  destruct yearMonth_digits as (H0 & _ & _ & _ & _ & H5).
  unfold yearMonth. eapply TrimSpace_digits; [exact H0|exact H5|reflexivity].
Qed.

Lemma yearMonth_partial :
  1 <= mm <= 12 ->
  time.Parse time.layout_2006_01 text = Some (time.Date yyyy mm 1).
Proof.
  intros Hm. destruct yearMonth_digits as (H0 & H1 & H2 & H3 & H4 & H5).
  pose proof (daysIn_ge_28 mm yyyy) as Hdays.
  unfold time.Parse, yearMonth. rewrite list_ascii_of_string_of_list_ascii.
  cbn [time.layout_2006_01 time.parseChunks time.parseChunk].
  rewrite H0, H1, H2, H3.
  cbn [andb Ascii.eqb Bool.eqb time.parseChunks time.parseChunk time.getnum].
  rewrite H4, H5.
  destruct (Z.leb_spec mm 0) as [|_]; [lia|].
  destruct (Z.ltb_spec 12 mm) as [|_]; [lia|].
  cbn [orb time.parseChunks time.mon time.dy time.yr time.hr time.mi time.sc
       time.ns time.tz time.fields0].
  destruct (Z.ltb_spec mm 0) as [|_]; [lia|].
  change (-1 <? 0) with true. cbv iota.
  change (1 <? 1) with false.
  destruct (Z.ltb_spec (time.daysIn mm yyyy) 1) as [|_]; [lia|].
  reflexivity.
Qed.

Lemma yearMonth_not_full (layout : list time.chunk) :
  In layout candidates -> time.Parse layout text = None.
Proof.
  destruct yearMonth_digits as (H0 & H1 & H2 & H3 & H4 & H5).
  pose proof (digit_not_slash y2 H2) as Hs.
  unfold candidates. simpl.
  intros [<-|[<-|[<-|[<-|[<-|[<-|[]]]]]]];
    unfold time.Parse, yearMonth; rewrite list_ascii_of_string_of_list_ascii.
  - cbn [time.layout_2006_01_02 time.parseChunks time.parseChunk].
    rewrite H0, H1, H2, H3.
    cbn [andb Ascii.eqb Bool.eqb time.parseChunks time.parseChunk time.getnum].
    rewrite H4, H5.
    destruct ((mm <=? 0) || (12 <? mm)); reflexivity.
  - cbn [time.layout_02_01_2006_slash time.parseChunks time.parseChunk time.getnum].
    rewrite H0, H1. cbn [time.parseChunks time.parseChunk]. rewrite Hs. reflexivity.
  - cbn [time.layout_01_02_2006_slash time.parseChunks time.parseChunk time.getnum].
    rewrite H0, H1.
    destruct ((time.digitVal y0 * 10 + time.digitVal y1 <=? 0)
              || (12 <? time.digitVal y0 * 10 + time.digitVal y1)); [reflexivity|].
    cbn [time.parseChunks time.parseChunk]. rewrite Hs. reflexivity.
  - cbn [time.layout_2006_01_02_slash time.parseChunks time.parseChunk].
    rewrite H0, H1, H2, H3. reflexivity.
  - cbn [time.layout_2006_01_02_dot time.parseChunks time.parseChunk].
    rewrite H0, H1, H2, H3. reflexivity.
  - cbn [time.RFC3339 time.parseChunks time.parseChunk].
    rewrite H0, H1, H2, H3.
    cbn [andb Ascii.eqb Bool.eqb time.parseChunks time.parseChunk time.getnum].
    rewrite H4, H5.
    destruct ((mm <=? 0) || (12 <? mm)); reflexivity.
Qed.

(** X21.  A text [YYYY-MM] of digits whose MM is a month is read by the
    partial layout, after the six full layouts have failed on it, as
    midnight UTC of the first day of that month. *)
Theorem year_month_is_first_of_month :
  1 <= mm <= 12 ->
  parseDateFlexible text = time.Date yyyy mm 1
  /\ firstParse candidates text = None.
Proof.
  intros Hm.
  assert (Hnone : firstParse candidates text = None)
    by (apply firstParse_none, yearMonth_not_full).
  split; [|exact Hnone].
  unfold parseDateFlexible. rewrite yearMonth_trimmed, Hnone, yearMonth_partial by lia.
  reflexivity.
Qed.

End YearMonth.

(** X21 on the text "2025-07". *)
Lemma year_month_is_first_of_month_witness :
  forallb time.isDigit ["2"; "0"; "2"; "5"; "0"; "7"]%char = true
  /\ 1 <= time.digitVal "0" * 10 + time.digitVal "7" <= 12
  /\ parseDateFlexible (yearMonth "2" "0" "2" "5" "0" "7")
     = time.Date (time.number ["2"; "0"; "2"; "5"]%char)
         (time.digitVal "0" * 10 + time.digitVal "7") 1
  /\ firstParse candidates (yearMonth "2" "0" "2" "5" "0" "7") = None.
Proof.
  split; [reflexivity|].
  split; [vm_compute; split; discriminate|].
  exact (year_month_is_first_of_month "2" "0" "2" "5" "0" "7" eq_refl
           ltac:(vm_compute; split; discriminate))%char.
Defined.
